(** * Token-migration backup worker: scan loop, publisher, SigV4 delivery

  A shallow embedding of the TypeScript sources

    - [src/main/workerBackupData.ts]   (scan loop, process entry point)
    - [src/main/workerBackupData.ts], utils part (Logger, statistics,
      [processEvent], [validateAwsConfig])
    - [src/unnamed/part_001]           (message service, [sendMessage])
    - [src/services/sqs.service.ts]    (signer and delivery client)
    - [src/unnamed/part_000]           (interfaces)

  Conventions of the embedding.

    - JavaScript strings are byte strings (UTF-8); [toUpperCase] is exact
      on ASCII text, which is what addresses and hashes are.
    - JavaScript numbers that are block numbers, indices, counters, delays
      and epoch times are doubles with an integer value; they are held in
      [Z] by that value, and the window arithmetic of the scan loop is done
      in [Z].  Where the program multiplies numbers that come from the
      chain or prints them into a text that is sent (the block time in
      milliseconds, the indices in the message identifiers), the operation
      of doubles is used: rounding to nearest even, and [String] printing
      the shortest digits.  Amounts, which go through
      [Number(formatEther(..))], are doubles as well, held as the rational
      value of the double.
    - A value handed to [JSON.stringify] is a tree of plain data, with a
      leaf for the parts the walk cannot get through (an object that
      contains itself, a [toJSON] or a getter that throws).
    - Effects (chain node, HTTPS, clock, timers, console) are threaded
      through a state-and-exception monad; the external collaborators are
      oracles indexed by the number of earlier calls. *)

From Stdlib Require Import ZArith QArith List String Ascii Bool Lia.
From Stdlib Require Import DecimalString DecimalZ.
Import ListNotations.

Local Open Scope string_scope.
Local Open Scope Z_scope.

(** ** Text helpers *)

Module Text.

Definition LF : string := String "010"%char EmptyString.
Definition DQ : string := String "034"%char EmptyString.

(** The decimal digits of an integer; this is [String(n)] for a number
    with an integer value below 2^53 in size. *)
Definition ofZ (z : Z) : string := NilZero.string_of_int (Z.to_int z).

Fixpoint repeatChar (c : ascii) (n : nat) : string :=
  match n with
  | O => EmptyString
  | S n' => String c (repeatChar c n')
  end.

(** [s.padStart(n, "0")]. *)
Definition padStart0 (n : nat) (s : string) : string :=
  repeatChar "0"%char (n - String.length s) ++ s.

(** [s.slice(0, n)]. *)
Definition slice0 (n : nat) (s : string) : string := substring 0 n s.

Definition upperChar (c : ascii) : ascii :=
  let n := nat_of_ascii c in
  if ((97 <=? n) && (n <=? 122))%nat then ascii_of_nat (n - 32) else c.

(** [s.toUpperCase()], on ASCII letters. *)
Fixpoint toUpperCase (s : string) : string :=
  match s with
  | EmptyString => EmptyString
  | String c s' => String (upperChar c) (toUpperCase s')
  end.

Fixpoint bytes (s : string) : list Z :=
  match s with
  | EmptyString => []
  | String c s' => Z.of_nat (nat_of_ascii c) :: bytes s'
  end.

Definition hexDigit (n : Z) : ascii :=
  if n <? 10 then ascii_of_nat (Z.to_nat (48 + n))
  else ascii_of_nat (Z.to_nat (87 + n)).

(** [buffer.toString("hex")]: two lower-case digits per byte. *)
Fixpoint hex (bs : list Z) : string :=
  match bs with
  | [] => EmptyString
  | b :: bs' => String (hexDigit (b / 16)) (String (hexDigit (b mod 16)) (hex bs'))
  end.

(** A text written with single quotes, each one standing for a double
    quote (to write JSON texts down). *)
Fixpoint quoted (s : string) : string :=
  match s with
  | EmptyString => EmptyString
  | String c s' =>
      String (if Ascii.eqb c "039"%char then "034"%char else c) (quoted s')
  end.

Fixpoint concat (l : list string) : string :=
  match l with
  | [] => EmptyString
  | s :: l' => s ++ concat l'
  end.

End Text.

(** ** SHA-256 and HMAC-SHA256 (node's [crypto.createHash] / [createHmac])

  Words are 32-bit, held in [Z] with the reduction modulo 2^32 explicit. *)

Module Crypto.

Definition Buffer := list Z.

Definition w32 (x : Z) : Z := x mod 4294967296.
Definition add32 (x y : Z) : Z := w32 (x + y).
Definition rotr (n x : Z) : Z :=
  Z.lor (Z.shiftr x n) (w32 (Z.shiftl x (32 - n))).
Definition not32 (x : Z) : Z := Z.lxor x 0xffffffff.

Definition Ch (x y z : Z) : Z := Z.lxor (Z.land x y) (Z.land (not32 x) z).
Definition Maj (x y z : Z) : Z :=
  Z.lxor (Z.lxor (Z.land x y) (Z.land x z)) (Z.land y z).
Definition bigSigma0 (x : Z) : Z := Z.lxor (Z.lxor (rotr 2 x) (rotr 13 x)) (rotr 22 x).
Definition bigSigma1 (x : Z) : Z := Z.lxor (Z.lxor (rotr 6 x) (rotr 11 x)) (rotr 25 x).
Definition smallSigma0 (x : Z) : Z := Z.lxor (Z.lxor (rotr 7 x) (rotr 18 x)) (Z.shiftr x 3).
Definition smallSigma1 (x : Z) : Z := Z.lxor (Z.lxor (rotr 17 x) (rotr 19 x)) (Z.shiftr x 10).

(** The round constants and the initial hash value are, in the words of
    the standard, the first 32 bits of the fractional parts of the cube
    roots of the first 64 primes, and of the square roots of the first 8. *)
Definition primes64 : list Z :=
  [ 2; 3; 5; 7; 11; 13; 17; 19; 23; 29; 31; 37; 41; 43; 47; 53;
    59; 61; 67; 71; 73; 79; 83; 89; 97; 101; 103; 107; 109; 113; 127; 131;
    137; 139; 149; 151; 157; 163; 167; 173; 179; 181; 191; 193; 197; 199; 211; 223;
    227; 229; 233; 239; 241; 251; 257; 263; 269; 271; 277; 281; 283; 293; 307; 311 ].

(** The integer cube root of [n], one bit at a time from bit [bits - 1]. *)
Fixpoint cubeRoot (bits : nat) (n r : Z) : Z :=
  match bits with
  | O => r
  | S b =>
      let r' := r + 2 ^ Z.of_nat b in
      cubeRoot b n (if r' * r' * r' <=? n then r' else r)
  end.

Definition K256 : list Z :=
  Eval vm_compute in map (fun p => w32 (cubeRoot 36 (p * 2 ^ 96) 0)) primes64.

Definition H256 : list Z :=
  Eval vm_compute in map (fun p => w32 (Z.sqrt (p * 2 ^ 64))) (firstn 8 primes64).

(** Padding: a 1 bit, zeros up to 56 modulo 64, the bit length on 8 bytes. *)
Definition bigEndian (width : nat) (x : Z) : list Z :=
  map (fun i => (x / 256 ^ Z.of_nat (width - 1 - i)) mod 256) (seq 0 width).

Definition pad (msg : list Z) : list Z :=
  let len := Z.of_nat (List.length msg) in
  let zeros := Z.to_nat ((55 - len) mod 64) in
  msg ++ [128] ++ repeat 0 zeros ++ bigEndian 8 (8 * len).

Fixpoint words (n : nat) (bs : list Z) : list Z :=
  match n, bs with
  | S n', b0 :: b1 :: b2 :: b3 :: bs' =>
      (((b0 * 256 + b1) * 256 + b2) * 256 + b3) :: words n' bs'
  | _, _ => []
  end.

(** Message schedule: [w] holds the words so far, newest first. *)
Fixpoint schedule (n : nat) (w : list Z) : list Z :=
  match n with
  | O => w
  | S n' =>
      let at_ i := nth i w 0 in
      let next := add32 (add32 (smallSigma1 (at_ 1%nat)) (at_ 6%nat))
                        (add32 (smallSigma0 (at_ 14%nat)) (at_ 15%nat)) in
      schedule n' (next :: w)
  end.

Record Regs := mkRegs { ra : Z; rb : Z; rc : Z; rd : Z; re : Z; rf : Z; rg : Z; rh : Z }.

Definition round (r : Regs) (kw : Z * Z) : Regs :=
  let '(k, w) := kw in
  let t1 := add32 (add32 (add32 (rh r) (bigSigma1 (re r))) (add32 (Ch (re r) (rf r) (rg r)) k)) w in
  let t2 := add32 (bigSigma0 (ra r)) (Maj (ra r) (rb r) (rc r)) in
  mkRegs (add32 t1 t2) (ra r) (rb r) (rc r) (add32 (rd r) t1) (re r) (rf r) (rg r).

Definition regsOf (h : list Z) : Regs :=
  let at_ i := nth i h 0 in
  mkRegs (at_ 0%nat) (at_ 1%nat) (at_ 2%nat) (at_ 3%nat)
         (at_ 4%nat) (at_ 5%nat) (at_ 6%nat) (at_ 7%nat).

Definition listOf (r : Regs) : list Z :=
  [ra r; rb r; rc r; rd r; re r; rf r; rg r; rh r].

Definition compress (h : list Z) (block : list Z) : list Z :=
  let w := rev (schedule 48 (rev (words 16 block))) in
  let r := fold_left round (combine K256 w) (regsOf h) in
  map (fun p => add32 (fst p) (snd p)) (combine h (listOf r)).

Fixpoint blocks (n : nat) (h : list Z) (bs : list Z) : list Z :=
  match n with
  | O => h
  | S n' => blocks n' (compress h (firstn 64 bs)) (skipn 64 bs)
  end.

Definition sha256 (msg : list Z) : Buffer :=
  let p := pad msg in
  flat_map (bigEndian 4) (blocks (List.length p / 64) H256 p).

Fixpoint xorPad (c : Z) (n : nat) (key : list Z) : list Z :=
  match n with
  | O => []
  | S n' =>
      match key with
      | [] => c :: xorPad c n' []
      | k :: key' => Z.lxor k c :: xorPad c n' key'
      end
  end.

Definition hmac_sha256 (key msg : list Z) : Buffer :=
  let key' := if (64 <? List.length key)%nat then sha256 key else key in
  sha256 (xorPad 0x5c 64 key' ++ sha256 (xorPad 0x36 64 key' ++ msg)).

(** [crypto.createHash("sha256").update(s).digest("hex")]. *)
Definition sha256_hex (s : string) : string := Text.hex (sha256 (Text.bytes s)).

End Crypto.

(** ** JavaScript numbers

  A finite double is held as its exact rational value (reduced); the
  rounding of the IEEE-754 binary64 format (53-bit significand, round to
  nearest, ties to even, gradual underflow, overflow to infinity) is
  [roundDouble]. *)

Module JsNumber.

Inductive number :=
| Num (q : Q)
| NaN
| Infinity (negative : bool).

Definition ofZ (z : Z) : number := Num (inject_Z z).

(** [a/d >= base^p], for positive [a] and [d]. *)
Definition gePow (base a d p : Z) : bool :=
  if 0 <=? p then d * base ^ p <=? a else d <=? a * base ^ (- p).

Definition ilog2 (a d : Z) : Z :=
  let l := Z.log2 a - Z.log2 d in
  if gePow 2 a d l then l else l - 1.

Definition ilog10 (a d : Z) : Z :=
  let est := (ilog2 a d * 30103) / 100000 in
  match find (gePow 10 a d) [est + 2; est + 1; est; est - 1] with
  | Some p => p
  | None => est - 2
  end.

(** Nearest integer to [n/d], ties to even. *)
Definition roundHalfEven (n d : Z) : Z :=
  let m := n / d in
  let r := n mod d in
  if (d <? 2 * r) || ((d =? 2 * r) && Z.odd m) then m + 1 else m.

(** Nearest integer to [n/d], ties upward. *)
Definition roundHalfUp (n d : Z) : Z :=
  let m := n / d in
  if d <=? 2 * (n mod d) then m + 1 else m.

Definition timesPow (base m e : Z) : Q :=
  if 0 <=? e then inject_Z (m * base ^ e)
  else Qred (m # Z.to_pos (base ^ (- e))).

Definition roundDouble (q : Q) : number :=
  let n := Qnum q in
  let d := Zpos (Qden q) in
  if n =? 0 then Num 0
  else
    let a := Z.abs n in
    let e := Z.max (ilog2 a d - 52) (-1074) in
    let m := if 0 <=? e then roundHalfEven a (d * 2 ^ e)
             else roundHalfEven (a * 2 ^ (- e)) d in
    if (0 <=? e) && (2 ^ 1024 <=? m * 2 ^ e) then Infinity (n <? 0)
    else Num (timesPow 2 (Z.sgn n * m) e).

Definition eqb (x y : number) : bool :=
  match x, y with
  | Num p, Num q => Qeq_bool p q
  | NaN, NaN => false
  | Infinity a, Infinity b => Bool.eqb a b
  | _, _ => false
  end.

Definition isNegative (x : number) : bool :=
  match x with
  | Num q => Qnum q <? 0
  | Infinity neg => neg
  | NaN => false
  end.

Definition isZero (x : number) : bool :=
  match x with
  | Num q => Qnum q =? 0
  | _ => false
  end.

(** [x * y] and [x / y] (the sign of a zero is not tracked). *)
Definition mul (x y : number) : number :=
  match x, y with
  | Num p, Num q => roundDouble (p * q)
  | NaN, _ | _, NaN => NaN
  | _, _ =>
      if isZero x || isZero y then NaN
      else Infinity (xorb (isNegative x) (isNegative y))
  end.

Definition div (x y : number) : number :=
  match x, y with
  | Num p, Num q =>
      if Qnum q =? 0 then (if Qnum p =? 0 then NaN else Infinity (Qnum p <? 0))
      else roundDouble (p / q)
  | NaN, _ | _, NaN => NaN
  | Infinity _, Infinity _ => NaN
  | Infinity neg, Num q => Infinity (xorb neg (Qnum q <? 0))
  | Num _, Infinity _ => Num 0
  end.

(** Shortest digits: the [k]-digit integer [s] and the exponent [n] with
    [s * 10^(n-k)] rounding to [a/d]; of two, the closer (then the even). *)
Definition candidate (a d n k : Z) : option (Z * Z) :=
  let sh := n - k in
  let vn := if 0 <=? sh then a else a * 10 ^ (- sh) in
  let vd := if 0 <=? sh then d * 10 ^ sh else d in
  let lo := vn / vd in
  let r := vn mod vd in
  let backTo c := eqb (roundDouble (Qred (timesPow 10 c sh))) (Num (Qred (a # Z.to_pos d))) in
  let norm c := if c =? 10 ^ k then (10 ^ (k - 1), n + 1) else (c, n) in
  match backTo lo, backTo (lo + 1) with
  | true, true =>
      if 2 * r <? vd then Some (norm lo)
      else if vd <? 2 * r then Some (norm (lo + 1))
      else Some (norm (if Z.even lo then lo else lo + 1))
  | true, false => Some (norm lo)
  | false, true => Some (norm (lo + 1))
  | false, false => None
  end.

Fixpoint shortest (fuel : nat) (a d n k : Z) : Z * Z * Z :=
  match fuel with
  | O => (a / d, n, k)
  | S fuel' =>
      match candidate a d n k with
      | Some (s, n') => (s, n', k)
      | None => shortest fuel' a d n (k + 1)
      end
  end.

Definition zeros (n : Z) : string := Text.repeatChar "0"%char (Z.to_nat n).

Definition positiveToString (a d : Z) : string :=
  let '(s, n, k) := shortest 17 a d (ilog10 a d + 1) 1 in
  let ds := Text.ofZ s in
  if (k <=? n) && (n <=? 21) then ds ++ zeros (n - k)
  else if (0 <? n) && (n <=? 21) then
    substring 0 (Z.to_nat n) ds ++ "." ++ substring (Z.to_nat n) (Z.to_nat (k - n)) ds
  else if (-6 <? n) && (n <=? 0) then "0." ++ zeros (- n) ++ ds
  else
    let e := n - 1 in
    let sign := if e <? 0 then "-" else "+" in
    if k =? 1 then ds ++ "e" ++ sign ++ Text.ofZ (Z.abs e)
    else substring 0 1 ds ++ "." ++ substring 1 (Z.to_nat (k - 1)) ds
         ++ "e" ++ sign ++ Text.ofZ (Z.abs e).

(** [String(x)], [x.toString()]. *)
Definition toString (x : number) : string :=
  match x with
  | NaN => "NaN"
  | Infinity neg => if neg then "-Infinity" else "Infinity"
  | Num q =>
      let n := Qnum q in
      let d := Zpos (Qden q) in
      if n =? 0 then "0"
      else (if n <? 0 then "-" else EmptyString) ++ positiveToString (Z.abs n) d
  end.

(** [x.toFixed(f)]. *)
Definition toFixed (f : nat) (x : number) : string :=
  match x with
  | Num q =>
      let a := Z.abs (Qnum q) in
      let d := Zpos (Qden q) in
      if gePow 10 a d 21 then toString x
      else
        let n := roundHalfUp (a * 10 ^ Z.of_nat f) d in
        let ds := Text.padStart0 (f + 1) (Text.ofZ n) in
        let k := String.length ds in
        (if Qnum q <? 0 then "-" else EmptyString)
        ++ substring 0 (k - f) ds
        ++ (if (f =? 0)%nat then EmptyString else "." ++ substring (k - f) f ds)
  | _ => toString x
  end.

Fixpoint digitsValue (s : string) (acc : Z) : option Z :=
  match s with
  | EmptyString => Some acc
  | String c s' =>
      let n := Z.of_nat (nat_of_ascii c) in
      if (48 <=? n) && (n <=? 57) then digitsValue s' (acc * 10 + (n - 48)) else None
  end.

Fixpoint splitAtDot (s : string) : string * option string :=
  match s with
  | EmptyString => (EmptyString, None)
  | String c s' =>
      if Ascii.eqb c "."%char then (EmptyString, Some s')
      else let '(w, f) := splitAtDot s' in (String c w, f)
  end.

Definition unsignedDecimal (s : string) : option Q :=
  let '(w, f) := splitAtDot s in
  let frac := match f with Some t => t | None => EmptyString end in
  if ((String.length w + String.length frac) =? 0)%nat then None
  else
    match digitsValue w 0, digitsValue frac 0 with
    | Some wv, Some fv =>
        let scale := 10 ^ Z.of_nat (String.length frac) in
        Some (Qred ((wv * scale + fv) # Z.to_pos scale))
    | _, _ => None
    end.

(** [Number(s)] on a plain decimal literal: an optional sign, digits, an
    optional point and digits (the texts [formatEther] produces lie in
    this fragment; any text outside it is mapped to [NaN], which is what
    JavaScript does for texts that are no numeric literal at all). *)
Definition Number_ofString (s : string) : number :=
  match s with
  | EmptyString => Num 0
  | String c s' =>
      if Ascii.eqb c "-"%char then
        match unsignedDecimal s' with
        | Some q => roundDouble (- q)
        | None => NaN
        end
      else if Ascii.eqb c "+"%char then
        match unsignedDecimal s' with
        | Some q => roundDouble q
        | None => NaN
        end
      else
        match unsignedDecimal s with
        | Some q => roundDouble q
        | None => NaN
        end
  end.

End JsNumber.

(** ** [Date]: milliseconds since the epoch, and the UTC getters *)

Module JsDate.

Definition Date := Z.

Definition msPerDay : Z := 86400000.

(** Proleptic Gregorian date of a day number (days since 1970-01-01). *)
Definition civil (day : Z) : Z * Z * Z :=
  let z := day + 719468 in
  let era := z / 146097 in
  let doe := z mod 146097 in
  let yoe := (doe - doe / 1460 + doe / 36524 - doe / 146096) / 365 in
  let doy := doe - (365 * yoe + yoe / 4 - yoe / 100) in
  let mp := (5 * doy + 2) / 153 in
  let d := doy - (153 * mp + 2) / 5 + 1 in
  let m := if mp <? 10 then mp + 3 else mp - 9 in
  let y := yoe + era * 400 + (if m <=? 2 then 1 else 0) in
  (y, m, d).

Definition getUTCFullYear (t : Date) : Z := fst (fst (civil (t / msPerDay))).
Definition getUTCMonth (t : Date) : Z := snd (fst (civil (t / msPerDay))) - 1.
Definition getUTCDate (t : Date) : Z := snd (civil (t / msPerDay)).
Definition getUTCHours (t : Date) : Z := (t mod msPerDay) / 3600000.
Definition getUTCMinutes (t : Date) : Z := ((t mod msPerDay) / 60000) mod 60.
Definition getUTCSeconds (t : Date) : Z := ((t mod msPerDay) / 1000) mod 60.
Definition getUTCMilliseconds (t : Date) : Z := t mod 1000.

Definition pad (n : nat) (z : Z) : string := Text.padStart0 n (Text.ofZ z).

(** [toISOString()]: four-digit years, or a signed six-digit year. *)
Definition toISOString (t : Date) : string :=
  let y := getUTCFullYear t in
  let year := if (0 <=? y) && (y <=? 9999) then pad 4 y
              else (if y <? 0 then "-" else "+") ++ pad 6 (Z.abs y) in
  year ++ "-" ++ pad 2 (getUTCMonth t + 1) ++ "-" ++ pad 2 (getUTCDate t)
  ++ "T" ++ pad 2 (getUTCHours t) ++ ":" ++ pad 2 (getUTCMinutes t)
  ++ ":" ++ pad 2 (getUTCSeconds t) ++ "." ++ pad 3 (getUTCMilliseconds t) ++ "Z".

End JsDate.

(** ** JavaScript values and [JSON.stringify] *)

Module Js.

(** What a [throw] carries: an [Error] instance ([isError]) or a plain
    object with [code] and [message]; an absent [code] is the empty text. *)
Record Exn := mkExn {
  isError : bool;
  exnName : string;
  exnCode : string;
  exnMessage : string
}.

Definition TypeError (msg : string) : Exn := mkExn true "TypeError" EmptyString msg.

Inductive Result (A : Type) :=
| Ok (a : A)
| Throw (e : Exn).
Arguments Ok {A} a.
Arguments Throw {A} e.

(** A value as [JSON.stringify] meets it: plain data, an object listing its
    own enumerable members in the order of enumeration, or, as [JThrows e],
    something the walk cannot get through: an object that contains itself,
    or one whose [toJSON] or getter throws; [e] is the exception raised
    when the walk reaches it. *)
#[local] Set Warnings "-register-all".
Inductive value :=
| JUndefined
| JNull
| JBool (b : bool)
| JNumber (n : JsNumber.number)
| JBigInt (z : Z)
| JString (s : string)
| JArray (items : list value)
| JObject (fields : list (string * value))
| JThrows (e : Exn).

Definition JInt (z : Z) : value := JNumber (JsNumber.ofZ z).

Definition hex4 (n : Z) : string :=
  String (Text.hexDigit (n / 4096 mod 16)) (String (Text.hexDigit (n / 256 mod 16))
    (String (Text.hexDigit (n / 16 mod 16)) (String (Text.hexDigit (n mod 16)) EmptyString))).

Definition escapeChar (c : ascii) : string :=
  let n := Z.of_nat (nat_of_ascii c) in
  let bs := String "092"%char EmptyString in
  if n =? 34 then bs ++ Text.DQ
  else if n =? 92 then bs ++ bs
  else if n =? 8 then bs ++ "b"
  else if n =? 9 then bs ++ "t"
  else if n =? 10 then bs ++ "n"
  else if n =? 12 then bs ++ "f"
  else if n =? 13 then bs ++ "r"
  else if n <? 32 then bs ++ "u" ++ hex4 n
  else String c EmptyString.

Fixpoint escape (s : string) : string :=
  match s with
  | EmptyString => EmptyString
  | String c s' => escapeChar c ++ escape s'
  end.

Definition quote (s : string) : string := Text.DQ ++ escape s ++ Text.DQ.

Fixpoint join (sep : string) (parts : list string) : string :=
  match parts with
  | [] => EmptyString
  | [p] => p
  | p :: rest => p ++ sep ++ join sep rest
  end.

(** Outcome of serialising one value: a text, nothing ([undefined], which
    an object drops and an array prints as [null]), or an exception: the
    [TypeError] of a BigInt, which has no JSON form, or what a [JThrows]
    raises. *)
Inductive Ser :=
| SerText (s : string)
| SerNothing
| SerFail (e : Exn).

Definition bigIntError : Exn := TypeError "Do not know how to serialize a BigInt".

Fixpoint serialize (v : value) : Ser :=
  match v with
  | JUndefined => SerNothing
  | JNull => SerText "null"
  | JBool b => SerText (if b then "true" else "false")
  | JNumber (JsNumber.Num q) => SerText (JsNumber.toString (JsNumber.Num q))
  | JNumber _ => SerText "null"
  | JBigInt _ => SerFail bigIntError
  | JString s => SerText (quote s)
  | JArray items =>
      match (fix elements (l : list value) : Result (list string) :=
               match l with
               | [] => Ok []
               | x :: l' =>
                   match serialize x with
                   | SerFail e => Throw e
                   | SerNothing =>
                       match elements l' with
                       | Ok parts => Ok ("null" :: parts)
                       | Throw e => Throw e
                       end
                   | SerText s =>
                       match elements l' with
                       | Ok parts => Ok (s :: parts)
                       | Throw e => Throw e
                       end
                   end
               end) items with
      | Ok parts => SerText ("[" ++ join "," parts ++ "]")
      | Throw e => SerFail e
      end
  | JObject fields =>
      match (fix members (l : list (string * value)) : Result (list string) :=
               match l with
               | [] => Ok []
               | (k, x) :: l' =>
                   match serialize x with
                   | SerFail e => Throw e
                   | SerNothing => members l'
                   | SerText s =>
                       match members l' with
                       | Ok parts => Ok ((quote k ++ ":" ++ s) :: parts)
                       | Throw e => Throw e
                       end
                   end
               end) fields with
      | Ok parts => SerText ("{" ++ join "," parts ++ "}")
      | Throw e => SerFail e
      end
  | JThrows e => SerFail e
  end.

(** [JSON.stringify(v)]: a string, [undefined], or a thrown exception. *)
Definition JSON_stringify (v : value) : Result value :=
  match serialize v with
  | SerText s => Ok (JString s)
  | SerNothing => Ok JUndefined
  | SerFail e => Throw e
  end.

(** [obj.key] on an object value. *)
Fixpoint lookup (k : string) (fields : list (string * value)) : value :=
  match fields with
  | [] => JUndefined
  | (k', v) :: rest => if String.eqb k k' then v else lookup k rest
  end.

Definition get (k : string) (v : value) : value :=
  match v with
  | JObject fields => lookup k fields
  | _ => JUndefined
  end.

End Js.

(** ** ethers: [BigNumber] and [formatEther] *)

Module Ethers.

Definition BigNumber := Z.

Fixpoint dropZeros (s : list ascii) : list ascii :=
  match s with
  | c :: s' => if Ascii.eqb c "0"%char then dropZeros s' else s
  | [] => []
  end.

(** The fraction without its trailing zeros, one zero kept when all are. *)
Definition stripTrailingZeros (s : string) : string :=
  match rev (dropZeros (rev (list_ascii_of_string s))) with
  | [] => "0"
  | l => string_of_list_ascii l
  end.

(** [ethers.utils.formatEther(x)]: [x] as a decimal with 18 fractional
    digits.  The source passes [x.toString()], which [formatEther] parses
    back to the same integer. *)
Definition formatEther (x : BigNumber) : string :=
  let multiplier := 10 ^ 18 in
  let v := Z.abs x in
  let fraction := stripTrailingZeros (Text.padStart0 18 (Text.ofZ (v mod multiplier))) in
  let whole := Text.ofZ (v / multiplier) in
  (if x <? 0 then "-" else EmptyString) ++ whole ++ "." ++ fraction.

End Ethers.

(** ** Interfaces ([src/unnamed/part_000]) and configuration *)

Import Js.

Module MessageEventType.
Definition TOKEN_CREATED : string := "TokenCreated".
Definition TOKEN_MIGRATED : string := "TokenMigrated".
Definition TRADE : string := "Trade".
Definition REFERRAL_ADDED : string := "ReferralAdded".
Definition REFERRAL_REMOVED : string := "ReferralRemoved".
Definition REFERRAL_UPDATED : string := "ReferralUpdated".
Definition REFERRAL_TYPE_UPDATED : string := "ReferralTypeUpdated".
Definition WITHDRAWAL : string := "Withdrawal".
End MessageEventType.

Module TokenMigratedDataType.
Record t := mk {
  tokenAddress : string;
  poolId : string;
  amountToken : JsNumber.number;
  amountETH : JsNumber.number;
  timestamp : JsNumber.number;
  transactionHash : string
}.

(** The object literal, with its keys in source order. *)
Definition toValue (d : t) : value :=
  JObject [ ("tokenAddress", JString (tokenAddress d));
            ("poolId", JString (poolId d));
            ("amountToken", JNumber (amountToken d));
            ("amountETH", JNumber (amountETH d));
            ("timestamp", JNumber (timestamp d));
            ("transactionHash", JString (transactionHash d)) ].
End TokenMigratedDataType.

(** [event.args]: a decoded argument may be absent from a malformed log. *)
Module EventArgs.
Record t := mk {
  token : option string;
  pairAddress : option string;
  poolId : option Ethers.BigNumber;
  amountToken : option Ethers.BigNumber;
  amountETH : option Ethers.BigNumber
}.
End EventArgs.

(** [ethers.Event], the fields the worker reads. *)
Module Event.
Record t := mk {
  args : option EventArgs.t;
  blockNumber : Z;
  transactionHash : string;
  transactionIndex : Z;
  logIndex : Z
}.
End Event.

Module Block.
Record t := mk { timestamp : Z }.
End Block.

Module SQSConfig.
Record Headers := mkHeaders { target : string; contentType : string }.
Record Credentials := mkCredentials { accessKey : string; secretKey : string; region : string }.
Record t := mk {
  method : string;
  service : string;
  algorithm : string;
  host : string;
  headers : Headers;
  credentials : Credentials
}.
End SQSConfig.

Module ProcessingContext.
Record t := mk {
  fromBlock : Z;
  toBlock : Z;
  eventCount : Z;
  processedCount : Z;
  failedCount : Z
}.
End ProcessingContext.

Module ProcessingStats.
Record t := mk {
  successRate : string;
  failureRate : string;
  totalEvents : Z;
  successfulEvents : Z;
  failedEvents : Z
}.
End ProcessingStats.

Module AWSConfigError.
Definition REGION_INVALID : string := "REGION_INVALID".
Definition CONFIG_NOT_FOUND : string := "CONFIG_NOT_FOUND".
Definition CREDENTIALS_MISSING : string := "CREDENTIALS_MISSING".
Definition QUEUE_URL_MISSING : string := "QUEUE_URL_MISSING".
End AWSConfigError.

(** [awsConfig] as the README lays it out.  A text that is missing and a
    text that is empty are both falsy, and both are the empty text here. *)
Module AwsConfig.
Record Credentials := mkCredentials { ACCESS_KEY_ID : string; SECRET_ACCESS_KEY : string }.
Record Section_ := mkSection {
  REGION : string;
  CREDENTIALS : option Credentials;
  SQS_QUEUE_URL : string
}.
Record t := mk { AWS : option Section_ }.
End AwsConfig.

(** [CONSTANTS] ([src/constants/index], not part of the sources at hand):
    taken as a parameter, each numeric entry after its [Number(..)] or
    unary [+] conversion. *)
Module Constants.
Record t := mk {
  RPC_URL : string;
  MAIN_CONTRACT_ADDRESS : string;
  START_BLOCK : Z;
  SCAN_WITH_SPACE_BLOCK : Z;
  RETRY_DELAY : Z;
  AMOUNT_TO_MILLISECONDS : Z;
  MAX_TRIES_BEFORE_RETRY : Z;
  AWAIT_TIME_BEFORE_RETRY : Z
}.
End Constants.

(** ** The outside world: effects and oracles *)

Record Request := mkRequest {
  req_url : string;
  req_method : string;
  req_headers : list (string * string);
  req_body : value
}.

(** What the program does to the outside, in order of occurrence. *)
Inductive Effect :=
| ELog (level : string) (message : string) (data : value)
| EProbe (queueUrl : string)
| EGetBlockNumber
| EQueryFilter (name : string) (fromBlock toBlock : Z)
| EGetBlock (blockNumber : Z)
| EFetch (at_ : Z) (req : Request)
| ESleep (ms : Z).

(** The collaborators.  Each answer may depend on how many calls of the
    same kind came before.  A fetch answers after [fst] milliseconds with an
    exception or with a response whose [json()] yields a body or throws. *)
Record World := mkWorld {
  getQueueAttributes : option Exn;
  getBlockNumber : nat -> Result Z;
  queryFilter : nat -> string -> Z -> Z -> Result (list Event.t);
  getBlock : nat -> Z -> Result (option Block.t);
  fetch : nat -> Request -> Z * Result (Result value)
}.

Record State := mkState {
  now : JsDate.Date;
  nHead : nat;
  nQuery : nat;
  nBlock : nat;
  nFetch : nat;
  trace : list Effect
}.

Definition emit (e : Effect) (st : State) : State :=
  mkState (now st) (nHead st) (nQuery st) (nBlock st) (nFetch st) (trace st ++ [e]).

(** Time passing: a timer of [ms] milliseconds, or a call that takes so long. *)
Definition elapse (ms : Z) (st : State) : State :=
  mkState (now st + Z.max ms 0) (nHead st) (nQuery st) (nBlock st) (nFetch st) (trace st).

Definition countedHead (st : State) : State :=
  mkState (now st) (S (nHead st)) (nQuery st) (nBlock st) (nFetch st) (trace st).

Definition countedQuery (st : State) : State :=
  mkState (now st) (nHead st) (S (nQuery st)) (nBlock st) (nFetch st) (trace st).

Definition countedBlock (st : State) : State :=
  mkState (now st) (nHead st) (nQuery st) (S (nBlock st)) (nFetch st) (trace st).

Definition countedFetch (st : State) : State :=
  mkState (now st) (nHead st) (nQuery st) (nBlock st) (S (nFetch st)) (trace st).

(** ** The monad of the program: state, and a thrown exception or a value *)

Definition M (A : Type) : Type := State -> Result A * State.

Definition ret {A} (a : A) : M A := fun st => (Ok a, st).

Definition throw {A} (e : Exn) : M A := fun st => (Throw e, st).

Definition bind {A B} (c : M A) (k : A -> M B) : M B :=
  fun st =>
    match c st with
    | (Ok a, st') => k a st'
    | (Throw e, st') => (Throw e, st')
    end.

(** [try { body } catch (error) { handler }]. *)
Definition tryCatch {A} (body : M A) (handler : Exn -> M A) : M A :=
  fun st =>
    match body st with
    | (Ok a, st') => (Ok a, st')
    | (Throw e, st') => handler e st'
    end.

Definition lift {A} (r : Result A) : M A := fun st => (r, st).

Declare Scope monad_scope.
Delimit Scope monad_scope with monad.
Notation "x <- c ;; k" := (bind c (fun x => k))
  (at level 61, c at next level, right associativity) : monad_scope.
Notation "c ;; k" := (bind c (fun _ => k))
  (at level 61, right associativity) : monad_scope.
Local Open Scope monad_scope.

Definition log (level message : string) (data : value) : M unit :=
  fun st => (Ok tt, emit (ELog level message data) st).

(** [new Date()]. *)
Definition newDate : M JsDate.Date := fun st => (Ok (now st), st).

(** [await new Promise(resolve => setTimeout(resolve, ms))]. *)
Definition sleep (ms : Z) : M unit :=
  fun st => (Ok tt, elapse ms (emit (ESleep ms) st)).

(** [{ ...a, ...b }] on field lists without common keys. *)
Definition spread (a b : list (string * value)) : list (string * value) := a ++ b.

(** [error instanceof Error ? { name-or-type, message } : String(error)]. *)
Definition describeError (nameKey : string) (error : Exn) : value :=
  if isError error
  then JObject [(nameKey, JString (exnName error)); ("message", JString (exnMessage error))]
  else JString "[object Object]".

(** The object literal of the module-level [sqsConfig] of
    [sqs.service.ts], lines 7-21. *)
Definition sqsConfigOf (aws : AwsConfig.Section_) (c : AwsConfig.Credentials) : SQSConfig.t :=
  {| SQSConfig.method := "POST";
     SQSConfig.service := "sqs";
     SQSConfig.algorithm := "AWS4-HMAC-SHA256";
     SQSConfig.host := "sqs." ++ AwsConfig.REGION aws ++ ".amazonaws.com";
     SQSConfig.headers :=
       {| SQSConfig.target := "AmazonSQS.SendMessage";
          SQSConfig.contentType := "application/x-amz-json-1.0" |};
     SQSConfig.credentials :=
       {| SQSConfig.accessKey := AwsConfig.ACCESS_KEY_ID c;
          SQSConfig.secretKey := AwsConfig.SECRET_ACCESS_KEY c;
          SQSConfig.region := AwsConfig.REGION aws |} |}.

(** The initialiser itself, which runs when [sqs.service.ts] is imported:
    it reads [awsConfig.AWS.REGION] and [awsConfig.AWS.CREDENTIALS.ACCESS_KEY_ID]
    without a guard, so it throws a [TypeError] when the section or the
    credentials object is missing. *)
Definition loadSqsConfig (awsConfig : AwsConfig.t) : Result SQSConfig.t :=
  match AwsConfig.AWS awsConfig with
  | None => Throw (TypeError "Cannot read properties of undefined (reading 'REGION')")
  | Some aws =>
      match AwsConfig.CREDENTIALS aws with
      | None =>
          Throw (TypeError "Cannot read properties of undefined (reading 'ACCESS_KEY_ID')")
      | Some c => Ok (sqsConfigOf aws c)
      end
  end.

(** ** The signing algorithm in the words of the specification (its 4.1)

    Written from the six steps of the specification, to be compared with
    the functions of [sqs.service.ts] further down. *)

Module SignerSpec.

Definition HMAC (key : Crypto.Buffer) (text : string) : Crypto.Buffer :=
  Crypto.hmac_sha256 key (Text.bytes text).

(** Step 1: the date stamp is the first eight characters of the stamp. *)
Definition dateStamp (ts : string) : string := substring 0 8 ts.

(** Step 2. *)
Definition canonicalRequest (method host contentType target ts payloadJson : string) : string :=
  Text.concat
    [ method; Text.LF; "/"; Text.LF; Text.LF;
      "content-type:"; contentType; Text.LF;
      "host:"; host; Text.LF;
      "x-amz-date:"; ts; Text.LF;
      "x-amz-target:"; target; Text.LF; Text.LF;
      "content-type;host;x-amz-date;x-amz-target"; Text.LF;
      Crypto.sha256_hex payloadJson ].

(** Step 3. *)
Definition stringToSign (algo ts region service request : string) : string :=
  Text.concat
    [ algo; Text.LF; ts; Text.LF;
      dateStamp ts; "/"; region; "/"; service; "/aws4_request"; Text.LF;
      Crypto.sha256_hex request ].

(** Step 4: four chained HMAC-SHA256 operations. *)
Definition signingKey (secretKey stamp region service : string) : Crypto.Buffer :=
  let kDate := HMAC (Text.bytes ("AWS4" ++ secretKey)) stamp in
  let kRegion := HMAC kDate region in
  let kService := HMAC kRegion service in
  let kSigning := HMAC kService "aws4_request" in
  kSigning.

(** Step 5. *)
Definition signature (kSigning : Crypto.Buffer) (toSign : string) : string :=
  Text.hex (HMAC kSigning toSign).

(** Step 6. *)
Definition header (algo accessKeyId stamp region service sig : string) : string :=
  Text.concat
    [ algo; " Credential="; accessKeyId; "/"; stamp; "/"; region; "/"; service;
      "/aws4_request, SignedHeaders=content-type;host;x-amz-date;x-amz-target, Signature=";
      sig ].

Definition authorization (algo method host contentType target payloadJson ts
                          secretKey accessKeyId region service : string) : string :=
  let request := canonicalRequest method host contentType target ts payloadJson in
  let toSign := stringToSign algo ts region service request in
  let kSigning := signingKey secretKey (dateStamp ts) region service in
  header algo accessKeyId (dateStamp ts) region service (signature kSigning toSign).

End SignerSpec.

(** ** Sample configurations, worlds and events *)

Module Sample.

Definition credentials : AwsConfig.Credentials :=
  AwsConfig.mkCredentials "AKIDEXAMPLE" "wJalrXUtnFEMI/K7MDENG+bPxRfiCYEXAMPLEKEY".

Definition aws : AwsConfig.Section_ :=
  AwsConfig.mkSection "us-east-1" (Some credentials)
    "https://sqs.us-east-1.amazonaws.com/123456789012/migrations.fifo".

Definition awsConfig : AwsConfig.t := AwsConfig.mk (Some aws).

(** A region outside the allow-list. *)
Definition marsConfig : AwsConfig.t :=
  AwsConfig.mk (Some (AwsConfig.mkSection "mars-1" (Some credentials)
                        "https://sqs.us-east-1.amazonaws.com/123456789012/migrations.fifo")).

Definition sqsConfig : SQSConfig.t := sqsConfigOf aws credentials.

(** Start at block 100, windows of 50 blocks, one second between windows,
    three delivery attempts two seconds apart. *)
Definition constants : Constants.t :=
  {| Constants.RPC_URL := "http://localhost:8545";
     Constants.MAIN_CONTRACT_ADDRESS := "0x00000000000000000000000000000000000c0ffe";
     Constants.START_BLOCK := 100;
     Constants.SCAN_WITH_SPACE_BLOCK := 50;
     Constants.RETRY_DELAY := 1000;
     Constants.AMOUNT_TO_MILLISECONDS := 1000;
     Constants.MAX_TRIES_BEFORE_RETRY := 3;
     Constants.AWAIT_TIME_BEFORE_RETRY := 2000 |}.


(** The raw event of the end-to-end scenario. *)
Definition rawArgs : EventArgs.t :=
  {| EventArgs.token := Some "0xabc";
     EventArgs.pairAddress := Some "0xdef";
     EventArgs.poolId := None;
     EventArgs.amountToken := Some 2000000000000000000;
     EventArgs.amountETH := Some 1000000000000000000 |}.

Definition rawEvent : Event.t :=
  {| Event.args := Some rawArgs;
     Event.blockNumber := 42;
     Event.transactionHash := "0x1";
     Event.transactionIndex := 0;
     Event.logIndex := 0 |}.

Definition block : Block.t := Block.mk 1700000000.

Definition migrationMessage : TokenMigratedDataType.t :=
  {| TokenMigratedDataType.tokenAddress := "0XABC";
     TokenMigratedDataType.poolId := "0XDEF";
     TokenMigratedDataType.amountToken := JsNumber.ofZ 2;
     TokenMigratedDataType.amountETH := JsNumber.ofZ 1;
     TokenMigratedDataType.timestamp := JsNumber.ofZ 1700000000000;
     TokenMigratedDataType.transactionHash := "0x1" |}.

Definition messageBody : string :=
  Text.quoted
    ("{'type':'TokenMigrated','msg':{'tokenAddress':'0XABC','poolId':'0XDEF',"
     ++ "'amountToken':2,'amountETH':1,'timestamp':1700000000000,'transactionHash':'0x1'},"
     ++ "'txHash':'0x1','txIndex':0,'logIndex':0,'blockNumber':42}").

Definition networkDown : Exn := mkExn true "FetchError" "ECONNRESET" "socket hang up".

Definition nodeDown : Exn := mkExn true "Error" "SERVER_ERROR" "missing response".

Definition accepted : value := JObject [("MessageId", JString "5fea7756-0ea4-451a-a703-a558b933e274")].

(** A node at chain head [head] (one block further at each later reading),
    whose first log query answers [events] and the later ones nothing, and
    a queue endpoint behaving as [fetchAnswer]. *)
Definition worldOf (head : Z) (events : list Event.t)
                   (fetchAnswer : nat -> Request -> Z * Result (Result value)) : World :=
  {| getQueueAttributes := None;
     getBlockNumber := fun k => Ok (head + Z.of_nat k);
     queryFilter := fun k _ _ _ => if (k =? 0)%nat then Ok events else Ok [];
     getBlock := fun _ _ => Ok (Some block);
     fetch := fetchAnswer |}.

(** Every delivery attempt fails after 150 ms. *)
Definition queueDown (head : Z) (events : list Event.t) : World :=
  worldOf head events (fun _ _ => (150, Throw networkDown)).

(** The first delivery attempt fails, the second is answered. *)
Definition queueFlaky (head : Z) (events : list Event.t) : World :=
  worldOf head events
    (fun k _ => if (k =? 0)%nat then (150, Throw networkDown) else (150, Ok (Ok accepted))).

(** The first [n] log queries throw. *)
Definition nodeFlaky (n : nat) (head : Z) : World :=
  {| getQueueAttributes := None;
     getBlockNumber := fun k => Ok (head + Z.of_nat k);
     queryFilter := fun k _ _ _ => if (k <? n)%nat then Throw nodeDown else Ok [];
     getBlock := fun _ _ => Ok (Some block);
     fetch := fun _ _ => (150, Ok (Ok accepted)) |}.

(** The process starts on 2023-11-14 at 22:13:20 UTC. *)
Definition start : State := mkState 1700000000000 0 0 0 0 [].

Definition smallPayload : value := JObject [("QueueUrl", JString "q"); ("MessageBody", JString "m")].

End Sample.

(** ** The program *)

Section Program.

Variable CONSTANTS : Constants.t.
Variable awsConfig : AwsConfig.t.
Variable sqsConfig : SQSConfig.t.
Variable world : World.

(** *** [src/services/sqs.service.ts] *)

(** Lines 29-36 of [sendMessageToSQS]: the stamp [YYYYMMDDThhmmssZ]. *)
Definition amzDateOf (now : JsDate.Date) : string :=
  let year := JsDate.getUTCFullYear now in
  let month := Text.padStart0 2 (Text.ofZ (JsDate.getUTCMonth now + 1)) in
  let day := Text.padStart0 2 (Text.ofZ (JsDate.getUTCDate now)) in
  let hours := Text.padStart0 2 (Text.ofZ (JsDate.getUTCHours now)) in
  let minutes := Text.padStart0 2 (Text.ofZ (JsDate.getUTCMinutes now)) in
  let seconds := Text.padStart0 2 (Text.ofZ (JsDate.getUTCSeconds now)) in
  Text.ofZ year ++ month ++ day ++ "T" ++ hours ++ minutes ++ seconds ++ "Z".

(** [hash.update(x)] accepts a string; [undefined] is a [TypeError]. *)
Definition updateArg (v : value) : Result string :=
  match v with
  | JString s => Ok s
  | _ => Throw (mkExn true "TypeError" "ERR_INVALID_ARG_TYPE"
                  "The data argument must be of type string or an instance of Buffer")
  end.

Definition createCanonicalRequest (method host : string) (payload : value) (amzDate : string)
  : Result string :=
  let canonicalUri := "/" in
  let canonicalQuerystring := EmptyString in
  let canonicalHeaders :=
    "content-type:" ++ SQSConfig.contentType (SQSConfig.headers sqsConfig) ++ Text.LF
    ++ "host:" ++ host ++ Text.LF
    ++ "x-amz-date:" ++ amzDate ++ Text.LF
    ++ "x-amz-target:" ++ SQSConfig.target (SQSConfig.headers sqsConfig) ++ Text.LF in
  let signedHeaders := "content-type;host;x-amz-date;x-amz-target" in
  match JSON_stringify payload with
  | Throw e => Throw e
  | Ok json =>
      match updateArg json with
      | Throw e => Throw e
      | Ok text =>
          let payloadHash := Crypto.sha256_hex text in
          Ok (method ++ Text.LF ++ canonicalUri ++ Text.LF ++ canonicalQuerystring ++ Text.LF
              ++ canonicalHeaders ++ Text.LF ++ signedHeaders ++ Text.LF ++ payloadHash)
      end
  end.

Definition createStringToSign (amzDate dateStamp canonicalRequest : string) : string :=
  let credentialScope :=
    dateStamp ++ "/" ++ SQSConfig.region (SQSConfig.credentials sqsConfig)
    ++ "/" ++ SQSConfig.service sqsConfig ++ "/aws4_request" in
  let hashCanonicalRequest := Crypto.sha256_hex canonicalRequest in
  SQSConfig.algorithm sqsConfig ++ Text.LF ++ amzDate ++ Text.LF ++ credentialScope
  ++ Text.LF ++ hashCanonicalRequest.

Definition getSignatureKey (key dateStamp regionName serviceName : string) : Crypto.Buffer :=
  let kDate := Crypto.hmac_sha256 (Text.bytes ("AWS4" ++ key)) (Text.bytes dateStamp) in
  let kRegion := Crypto.hmac_sha256 kDate (Text.bytes regionName) in
  let kService := Crypto.hmac_sha256 kRegion (Text.bytes serviceName) in
  let kSigning := Crypto.hmac_sha256 kService (Text.bytes "aws4_request") in
  kSigning.

Definition calculateAuthParam (dateStamp stringToSign : string) : string :=
  let signingKey :=
    getSignatureKey (SQSConfig.secretKey (SQSConfig.credentials sqsConfig)) dateStamp
                    (SQSConfig.region (SQSConfig.credentials sqsConfig))
                    (SQSConfig.service sqsConfig) in
  let signature := Text.hex (Crypto.hmac_sha256 signingKey (Text.bytes stringToSign)) in
  let signedHeaders := "content-type;host;x-amz-date;x-amz-target" in
  let credentialScope :=
    dateStamp ++ "/" ++ SQSConfig.region (SQSConfig.credentials sqsConfig)
    ++ "/" ++ SQSConfig.service sqsConfig ++ "/aws4_request" in
  SQSConfig.algorithm sqsConfig ++ " Credential="
  ++ SQSConfig.accessKey (SQSConfig.credentials sqsConfig) ++ "/" ++ credentialScope
  ++ ", SignedHeaders=" ++ signedHeaders ++ ", Signature=" ++ signature.

(** Lines 29-48: the header value computed at the head of [sendMessageToSQS]
    from the time read there. *)
Definition authorizationHeaderAt (now : JsDate.Date) (payload : value) : Result string :=
  let amzDate := amzDateOf now in
  let dateStamp := Text.slice0 8 amzDate in
  match createCanonicalRequest (SQSConfig.method sqsConfig) (SQSConfig.host sqsConfig)
                               payload amzDate with
  | Throw e => Throw e
  | Ok canonicalRequest =>
      let stringToSign := createStringToSign amzDate dateStamp canonicalRequest in
      Ok (calculateAuthParam dateStamp stringToSign)
  end.

(** [await fetch(url, init)], then [await res.json()]. *)
Definition doFetch (req : Request) : M (Result value) :=
  fun st =>
    let '(elapsed, answer) := fetch world (nFetch st) req in
    (answer, countedFetch (elapse elapsed (emit (EFetch (now st) req) st))).

Definition res_json (res : Result value) : M value := lift res.

(** The request of lines 53-62: the URL and the [init] object of [fetch]. *)
Definition requestOf (amzDate authorizationHeader : string) (body : value) : Request :=
  {| req_url := "https://" ++ SQSConfig.host sqsConfig;
     req_method := SQSConfig.method sqsConfig;
     req_headers :=
       [ ("X-Amz-Date", amzDate);
         ("X-Amz-Target", SQSConfig.target (SQSConfig.headers sqsConfig));
         ("Content-Type", SQSConfig.contentType (SQSConfig.headers sqsConfig));
         ("Authorization", authorizationHeader) ];
     req_body := body |}.

(** The retry loop of lines 51-73.  [Some v] is the [return] inside the
    [try]; [None] lets the loop go on.  The loop runs while
    [idx < MAX_TRIES], that is at most [Z.to_nat MAX_TRIES] times, which is
    the fuel it is started with. *)
Fixpoint deliveryLoop (fuel : nat) (MAX_TRIES idx : Z) (payload : value)
                      (amzDate authorizationHeader : string) : M value :=
  match fuel with
  | O => ret JUndefined
  | S fuel' =>
      if idx <? MAX_TRIES then
        r <- tryCatch
               (body <- lift (JSON_stringify payload) ;;
                res <- doFetch (requestOf amzDate authorizationHeader body) ;;
                v <- res_json res ;;
                ret (Some v))
               (fun error =>
                  log "console.error" "Error sending message to SQS"
                      (JObject [ ("handler", JString "sendMessageToSQS");
                                 ("error", JObject [ ("name", JString (exnName error));
                                                     ("message", JString (exnMessage error)) ]) ]) ;;
                  (if idx <? MAX_TRIES - 1
                   then sleep (Constants.AWAIT_TIME_BEFORE_RETRY CONSTANTS)
                   else ret tt) ;;
                  ret None) ;;
        match r with
        | Some v => ret v
        | None => deliveryLoop fuel' MAX_TRIES (idx + 1) payload amzDate authorizationHeader
        end
      else ret JUndefined
  end.

Definition sendMessageToSQS (payload : value) : M value :=
  now <- newDate ;;
  let amzDate := amzDateOf now in
  let dateStamp := Text.slice0 8 amzDate in
  canonicalRequest <- lift (createCanonicalRequest (SQSConfig.method sqsConfig)
                                                   (SQSConfig.host sqsConfig) payload amzDate) ;;
  let stringToSign := createStringToSign amzDate dateStamp canonicalRequest in
  let authorizationHeader := calculateAuthParam dateStamp stringToSign in
  let MAX_TRIES := Constants.MAX_TRIES_BEFORE_RETRY CONSTANTS in
  deliveryLoop (Z.to_nat MAX_TRIES) MAX_TRIES 0 payload amzDate authorizationHeader.

(** *** The message service ([src/unnamed/part_001]) *)

Definition readQueueUrl : M string :=
  match AwsConfig.AWS awsConfig with
  | Some aws => ret (AwsConfig.SQS_QUEUE_URL aws)
  | None => throw (TypeError "Cannot read properties of undefined (reading 'SQS_QUEUE_URL')")
  end.

(** The object literal of lines 21-28, before it is serialised. *)
Definition messageObject (messageEventType : string) (objectData : value)
                         (transactionHash : string)
                         (transactionIndex logIndex blockNumber : Z) : value :=
  JObject [ ("type", JString messageEventType);
            ("msg", objectData);
            ("txHash", JString transactionHash);
            ("txIndex", JInt transactionIndex);
            ("logIndex", JInt logIndex);
            ("blockNumber", JInt blockNumber) ].

(** The object literal [payload] of lines 47-52.  The two indices are
    numbers; a template literal prints a number as [String] does. *)
Definition payloadObject (queueUrl : string) (message : value) (transactionHash : string)
                         (transactionIndex logIndex : Z) : value :=
  JObject [ ("QueueUrl", JString queueUrl);
            ("MessageBody", message);
            ("MessageGroupId",
             JString (transactionHash
                      ++ "/" ++ JsNumber.toString (JsNumber.ofZ transactionIndex)
                      ++ "/" ++ JsNumber.toString (JsNumber.ofZ logIndex)));
            ("MessageDeduplicationId",
             JString (transactionHash
                      ++ "/" ++ JsNumber.toString (JsNumber.ofZ transactionIndex)
                      ++ "/" ++ JsNumber.toString (JsNumber.ofZ logIndex))) ].

(** The banner lines drawn around the logs are recorded by their caption. *)
Definition sendMessage (messageEventType : string) (objectData : value)
                       (transactionHash : string)
                       (transactionIndex logIndex blockNumber : Z) : M unit :=
  message <- lift (JSON_stringify
                     (messageObject messageEventType objectData transactionHash
                                    transactionIndex logIndex blockNumber)) ;;
  tryCatch
    (let logContext :=
       [ ("service", JString "MessageService");
         ("action", JString "sendMessage");
         ("messageType", JString messageEventType);
         ("txHash", JString transactionHash);
         ("txIndex", JInt transactionIndex);
         ("logIndex", JInt logIndex);
         ("blockNumber", JInt blockNumber) ] in
     log "console.log" "Message Service" JUndefined ;;
     t <- newDate ;;
     log "console.info" "[INFO] Preparing to send message:"
         (JObject (spread logContext [("timestamp", JString (JsDate.toISOString t))])) ;;
     queueUrl <- readQueueUrl ;;
     let payload :=
       payloadObject queueUrl message transactionHash transactionIndex logIndex in
     log "console.log" "payload" payload ;;
     _ <- sendMessageToSQS payload ;;
     t' <- newDate ;;
     queueUrl' <- readQueueUrl ;;
     log "console.info" "[SUCCESS] Message sent successfully:"
         (JObject (spread logContext [ ("timestamp", JString (JsDate.toISOString t'));
                                       ("queueUrl", JString queueUrl') ])) ;;
     log "console.log" "Message Service end" JUndefined)
    (fun error =>
       log "console.log" "Message Service Error" JUndefined ;;
       t <- newDate ;;
       log "console.error" "[ERROR] Failed to send message:"
           (JObject [ ("service", JString "MessageService");
                      ("action", JString "sendMessage");
                      ("messageType", JString messageEventType);
                      ("txHash", JString transactionHash);
                      ("error", JObject [ ("name", JString (exnName error));
                                          ("message", JString (exnMessage error)) ]);
                      ("timestamp", JString (JsDate.toISOString t)) ]) ;;
       log "console.log" "Message Service Error end" JUndefined).

(** *** Utilities (second part of [src/main/workerBackupData.ts]) *)

(** [Logger.info], [success], [error], [warn]: one console line, the data
    (when given) printed as JSON. *)
Definition Logger_info (message : string) (data : value) : M unit := log "info" message data.
Definition Logger_success (message : string) (data : value) : M unit := log "success" message data.
Definition Logger_error (message : string) (data : value) : M unit := log "error" message data.
Definition Logger_warn (message : string) (data : value) : M unit := log "warn" message data.

Definition Logger_progress (current total : Z) (message : string) : M unit :=
  let percentage :=
    JsNumber.toFixed 2
      (JsNumber.mul (JsNumber.div (JsNumber.ofZ current) (JsNumber.ofZ total)) (JsNumber.ofZ 100)) in
  log "progress"
      (message ++ ": " ++ percentage ++ "% [" ++ Text.ofZ current ++ "/" ++ Text.ofZ total ++ "]")
      JUndefined.

Definition rate (part total : Z) : string :=
  if total =? 0 then "0.00"
  else JsNumber.toFixed 2
         (JsNumber.mul (JsNumber.div (JsNumber.ofZ part) (JsNumber.ofZ total)) (JsNumber.ofZ 100)).

Definition calculateProcessingStats (context : ProcessingContext.t) : ProcessingStats.t :=
  let successRate :=
    rate (ProcessingContext.processedCount context) (ProcessingContext.eventCount context) in
  let failureRate :=
    rate (ProcessingContext.failedCount context) (ProcessingContext.eventCount context) in
  {| ProcessingStats.successRate := successRate ++ "%";
     ProcessingStats.failureRate := failureRate ++ "%";
     ProcessingStats.totalEvents := ProcessingContext.eventCount context;
     ProcessingStats.successfulEvents := ProcessingContext.processedCount context;
     ProcessingStats.failedEvents := ProcessingContext.failedCount context |}.

(** [await provider.getBlock(n)]; [null] for a block the node does not have. *)
Definition provider_getBlock (blockNumber : Z) : M (option Block.t) :=
  fun st =>
    (getBlock world (nBlock st) blockNumber, countedBlock (emit (EGetBlock blockNumber) st)).

Definition required {A} (field : option A) (what : string) : Result A :=
  match field with
  | Some a => Ok a
  | None => Throw (TypeError ("Cannot read properties of undefined (reading '" ++ what ++ "')"))
  end.

(** Lines 187-194 of [processEvent]: the object literal [migrationData],
    its members evaluated in order. *)
Definition migrationDataOf (event : Event.t) (a : EventArgs.t) (blockData : option Block.t)
  : Result TokenMigratedDataType.t :=
  match required (EventArgs.token a) "toUpperCase" with
  | Throw e => Throw e
  | Ok token =>
  match required (EventArgs.pairAddress a) "toUpperCase" with
  | Throw e => Throw e
  | Ok pairAddress =>
  match required (EventArgs.amountToken a) "toString" with
  | Throw e => Throw e
  | Ok amountToken =>
  match required (EventArgs.amountETH a) "toString" with
  | Throw e => Throw e
  | Ok amountETH =>
  match required blockData "timestamp" with
  | Throw e => Throw e
  | Ok block =>
      Ok {| TokenMigratedDataType.tokenAddress := Text.toUpperCase token;
            TokenMigratedDataType.poolId := Text.toUpperCase pairAddress;
            TokenMigratedDataType.amountToken :=
              JsNumber.Number_ofString (Ethers.formatEther amountToken);
            TokenMigratedDataType.amountETH :=
              JsNumber.Number_ofString (Ethers.formatEther amountETH);
            TokenMigratedDataType.timestamp :=
              JsNumber.mul (JsNumber.ofZ (Block.timestamp block))
                           (JsNumber.ofZ (Constants.AMOUNT_TO_MILLISECONDS CONSTANTS));
            TokenMigratedDataType.transactionHash := Event.transactionHash event |}
  end end end end end.

Definition processEvent (event : Event.t) : M unit :=
  a <- lift (match Event.args event with
             | Some a => Ok a
             | None => Throw (TypeError "Cannot destructure property 'token' of 'event.args'")
             end) ;;
  blockData <- provider_getBlock (Event.blockNumber event) ;;
  migrationData <- lift (migrationDataOf event a blockData) ;;
  sendMessage MessageEventType.TOKEN_MIGRATED
              (TokenMigratedDataType.toValue migrationData)
              (Event.transactionHash event)
              (Event.transactionIndex event)
              (Event.logIndex event)
              (Event.blockNumber event).

Definition VALID_AWS_REGIONS : list string :=
  [ "us-east-1"; "us-east-2"; "us-west-1"; "us-west-2";
    "ap-south-1"; "ap-northeast-1"; "ap-northeast-2"; "ap-northeast-3";
    "ap-southeast-1"; "ap-southeast-2";
    "eu-central-1"; "eu-west-1"; "eu-west-2"; "eu-west-3";
    "sa-east-1" ].

Definition includes (l : list string) (s : string) : bool := existsb (String.eqb s) l.

Definition falsy (s : string) : bool := String.eqb s EmptyString.

(** A thrown object literal [{ code, message }]. *)
Definition configError (code message : string) : Exn := mkExn false EmptyString code message.

(** [await sqs.getQueueAttributes({..}).promise()]. *)
Definition probeQueue (queueUrl : string) : M unit :=
  fun st =>
    (match getQueueAttributes world with
     | None => Ok tt
     | Some e => Throw e
     end, emit (EProbe queueUrl) st).

Definition validateAwsConfig : M unit :=
  match AwsConfig.AWS awsConfig with
  | None => throw (configError AWSConfigError.CONFIG_NOT_FOUND "AWS configuration not found")
  | Some aws =>
      let REGION := AwsConfig.REGION aws in
      let CREDENTIALS := AwsConfig.CREDENTIALS aws in
      let SQS_QUEUE_URL := AwsConfig.SQS_QUEUE_URL aws in
      if falsy REGION then
        throw (configError AWSConfigError.REGION_INVALID "AWS Region is required")
      else if negb (includes VALID_AWS_REGIONS REGION) then
        throw (configError AWSConfigError.REGION_INVALID
                 "Invalid region in config. Please use a valid AWS region (e.g., us-east-1, ap-southeast-1)")
      else
        match CREDENTIALS with
        | None =>
            throw (configError AWSConfigError.CREDENTIALS_MISSING
                     "AWS Credentials (ACCESS_KEY_ID and SECRET_ACCESS_KEY) are required")
        | Some c =>
            if falsy (AwsConfig.ACCESS_KEY_ID c) || falsy (AwsConfig.SECRET_ACCESS_KEY c) then
              throw (configError AWSConfigError.CREDENTIALS_MISSING
                       "AWS Credentials (ACCESS_KEY_ID and SECRET_ACCESS_KEY) are required")
            else if falsy SQS_QUEUE_URL then
              throw (configError AWSConfigError.QUEUE_URL_MISSING "SQS Queue URL is required")
            else
              tryCatch (probeQueue SQS_QUEUE_URL)
                (fun error =>
                   throw (configError
                            (if falsy (exnCode error) then "AWS_SERVICE_ERROR" else exnCode error)
                            (exnMessage error)))
        end
  end.

(** *** The scan loop (first part of [src/main/workerBackupData.ts]) *)

Definition provider_getBlockNumber : M Z :=
  fun st =>
    (getBlockNumber world (nHead st), countedHead (emit EGetBlockNumber st)).

Definition contract_queryFilter (name : string) (fromBlock toBlock : Z) : M (list Event.t) :=
  fun st =>
    (queryFilter world (nQuery st) name fromBlock toBlock,
     countedQuery (emit (EQueryFilter name fromBlock toBlock) st)).

Definition countProcessed (c : ProcessingContext.t) : ProcessingContext.t :=
  ProcessingContext.mk (ProcessingContext.fromBlock c) (ProcessingContext.toBlock c)
    (ProcessingContext.eventCount c) (ProcessingContext.processedCount c + 1)
    (ProcessingContext.failedCount c).

Definition countFailed (c : ProcessingContext.t) : ProcessingContext.t :=
  ProcessingContext.mk (ProcessingContext.fromBlock c) (ProcessingContext.toBlock c)
    (ProcessingContext.eventCount c) (ProcessingContext.processedCount c)
    (ProcessingContext.failedCount c + 1).

(** Lines 64-77: the [try] statement inside the [for] loop. *)
Definition attemptEvent (event : Event.t) (context : ProcessingContext.t)
  : M ProcessingContext.t :=
  tryCatch
    (processEvent event ;;
     ret (countProcessed context))
    (fun eventError =>
       let context := countFailed context in
       Logger_error "Event Processing Failed"
         (JObject [ ("txHash", JString (Event.transactionHash event));
                    ("blockNumber", JInt (Event.blockNumber event));
                    ("error", describeError "type" eventError) ]) ;;
       ret context).

(** Lines 63-78: [for (const event of events) { try .. catch .. }]. *)
Fixpoint forEachEvent (events : list Event.t) (context : ProcessingContext.t)
  : M ProcessingContext.t :=
  match events with
  | [] => ret context
  | event :: rest =>
      context' <- attemptEvent event context ;;
      forEachEvent rest context'
  end.

Definition rangeText (c : ProcessingContext.t) : string :=
  Text.ofZ (ProcessingContext.fromBlock c) ++ "-" ++ Text.ofZ (ProcessingContext.toBlock c).

(** One turn of the [while] loop, lines 40-99.  It yields the context as
    it stands when the turn ends, and the value of [fromBlock] for the next
    turn.  [Math.min] cannot throw, so [context.toBlock] is already set
    whenever the handler of the outer [try] reads it. *)
Definition iteration (currentBlock fromBlock : Z) : M (ProcessingContext.t * Z) :=
  let context :=
    ProcessingContext.mk fromBlock
      (Z.min (fromBlock + Constants.SCAN_WITH_SPACE_BLOCK CONSTANTS) currentBlock) 0 0 0 in
  tryCatch
    (Logger_progress fromBlock currentBlock "Scanning blocks" ;;
     events <- contract_queryFilter "TokenMigrated" (ProcessingContext.fromBlock context)
                                    (ProcessingContext.toBlock context) ;;
     let context :=
       ProcessingContext.mk (ProcessingContext.fromBlock context) (ProcessingContext.toBlock context)
         (Z.of_nat (List.length events)) 0 0 in
     (if (0 <? List.length events)%nat
      then Logger_info ("Found " ++ Text.ofZ (Z.of_nat (List.length events))
                        ++ " events in block range " ++ rangeText context) JUndefined
      else ret tt) ;;
     context <- forEachEvent events context ;;
     let stats := calculateProcessingStats context in
     (if 0 <? ProcessingContext.eventCount context
      then Logger_info "Block Range Summary"
             (JObject [ ("blockRange", JString (rangeText context));
                        ("processed",
                         JString (Text.ofZ (ProcessingStats.successfulEvents stats) ++ "/"
                                  ++ Text.ofZ (ProcessingStats.totalEvents stats)));
                        ("successRate", JString (ProcessingStats.successRate stats));
                        ("failureRate", JString (ProcessingStats.failureRate stats)) ])
      else ret tt) ;;
     let fromBlock' := ProcessingContext.toBlock context + 1 in
     sleep (Constants.RETRY_DELAY CONSTANTS) ;;
     ret (context, fromBlock'))
    (fun rangeError =>
       Logger_error "Block Range Processing Failed"
         (JObject [ ("range", JString (rangeText context));
                    ("error", JString (if isError rangeError then exnMessage rangeError
                                       else "[object Object]")) ]) ;;
       sleep (Constants.RETRY_DELAY CONSTANTS * 2) ;;
       ret (context, fromBlock)).

(** [while (fromBlock < currentBlock) { .. }].  The loop need not end (a
    window that keeps failing is retried for ever), so it runs on fuel:
    [None] says the fuel ran out before the loop condition became false. *)
Fixpoint whileLoop (fuel : nat) (currentBlock fromBlock : Z) (st : State)
  : option (Result unit * State) :=
  if fromBlock <? currentBlock then
    match fuel with
    | O => None
    | S fuel' =>
        match iteration currentBlock fromBlock st with
        | (Ok (_, fromBlock'), st') => whileLoop fuel' currentBlock fromBlock' st'
        | (Throw e, st') => Some (Throw e, st')
        end
    end
  else Some (Ok tt, st).

(** Lines 25-115: the second [try] of [scanTokenMigratedEvents].  The two
    constructors of lines 26-27 build the provider and the contract from
    [CONSTANTS] and the ABI constant; with these defined they make no
    request and do not throw, and they are left out. *)
Definition scanBody (fuel : nat) (st : State) : option (Result unit * State) :=
  match provider_getBlockNumber st with
  | (Throw e, st1) => Some (Throw e, st1)
  | (Ok currentBlock, st1) =>
      let fromBlock := Constants.START_BLOCK CONSTANTS in
      let '(_, st2) :=
        Logger_info "Scanner Configuration"
          (JObject [ ("rpcUrl", JString (Constants.RPC_URL CONSTANTS));
                     ("contractAddress", JString (Constants.MAIN_CONTRACT_ADDRESS CONSTANTS));
                     ("startBlock", JInt fromBlock);
                     ("currentBlock", JInt currentBlock);
                     ("blockRange", JInt (Constants.SCAN_WITH_SPACE_BLOCK CONSTANTS)) ]) st1 in
      match whileLoop fuel currentBlock fromBlock st2 with
      | None => None
      | Some (Throw e, st3) => Some (Throw e, st3)
      | Some (Ok _, st3) =>
          Some (Logger_success "Scanner Completed"
                  (JObject [ ("finalBlock", JInt currentBlock);
                             ("endTime", JString (JsDate.toISOString (now st3))) ]) st3)
      end
  end.

Definition scanTokenMigratedEvents (fuel : nat) (st : State) : option (Result unit * State) :=
  let '(_, st0) :=
    Logger_info "Token Migration Scanner Started"
      (JObject [("startTime", JString (JsDate.toISOString (now st)))]) st in
  match validateAwsConfig st0 with
  | (Throw error, st1) =>
      Some (log "console.error" ("Error [" ++ exnCode error ++ "]:")
                (JString (exnMessage error)) st1)
  | (Ok _, st1) =>
      match scanBody fuel st1 with
      | None => None
      | Some (Ok _, st2) => Some (Ok tt, st2)
      | Some (Throw error, st2) =>
          let '(_, st3) :=
            Logger_error "Scanner Failed"
              (JObject [ ("error", describeError "type" error);
                         ("timestamp", JString (JsDate.toISOString (now st2))) ]) st2 in
          Some (Throw error, st3)
      end
  end.

(** The entry point, lines 122-132, which runs once every module is loaded
    ([sqsConfig] is the value its initialiser gave it): the status the
    process ends with.  A rejected scan reaches [process.exit(1)]; a
    resolved one lets the process end on its own, with status 0. *)
Definition entryPoint (fuel : nat) (st : State) : option (Z * State) :=
  match scanTokenMigratedEvents fuel st with
  | None => None
  | Some (Ok _, st') => Some (0, st')
  | Some (Throw error, st') =>
      let '(_, st'') :=
        Logger_error "Fatal Error" (JObject [("error", describeError "type" error)]) st' in
      Some (1, st'')
  end.

(** ** Facts about the monad and the trace *)

(** [st'] continues [st]: its trace is the trace of [st] followed by
    effects that all satisfy [P]. *)
Definition emitsOnly (P : Effect -> Prop) (st st' : State) : Prop :=
  exists delta, trace st' = (trace st ++ delta)%list /\ Forall P delta.

Definition keeps (P : Effect -> Prop) {A} (c : M A) : Prop :=
  forall st, emitsOnly P st (snd (c st)).

Lemma emitsOnly_refl P st : emitsOnly P st st.
Proof.
  exists []. split; [now rewrite app_nil_r | constructor].
Qed.

Lemma emitsOnly_trans P st1 st2 st3 :
  emitsOnly P st1 st2 -> emitsOnly P st2 st3 -> emitsOnly P st1 st3.
Proof.
  intros (d1 & E1 & F1) (d2 & E2 & F2).
  exists (d1 ++ d2)%list. split.
  - now rewrite E2, E1, app_assoc.
  - now apply Forall_app.
Qed.

Lemma emitsOnly_weaken (P Q : Effect -> Prop) st st' :
  (forall e, P e -> Q e) -> emitsOnly P st st' -> emitsOnly Q st st'.
Proof.
  intros H (d & E & F). exists d. split; [exact E|].
  eapply Forall_impl; [exact H | exact F].
Qed.

Lemma emitsOnly_emit (P : Effect -> Prop) e st : P e -> emitsOnly P st (emit e st).
Proof.
  intros H. exists [e]. split; [reflexivity | now constructor].
Qed.

Lemma keeps_ret P {A} (a : A) : keeps P (ret a).
Proof. intros st. apply emitsOnly_refl. Qed.

Lemma keeps_throw P {A} e : keeps P (@throw A e).
Proof. intros st. apply emitsOnly_refl. Qed.

Lemma keeps_lift P {A} (r : Result A) : keeps P (lift r).
Proof. intros st. apply emitsOnly_refl. Qed.

Lemma keeps_newDate P : keeps P newDate.
Proof. intros st. apply emitsOnly_refl. Qed.

Lemma keeps_bind P {A B} (c : M A) (k : A -> M B) :
  keeps P c -> (forall a, keeps P (k a)) -> keeps P (bind c k).
Proof.
  intros Hc Hk st. unfold bind. specialize (Hc st).
  destruct (c st) as [[a|e] st1]; simpl in *; [|exact Hc].
  eapply emitsOnly_trans; [exact Hc | apply Hk].
Qed.

Lemma keeps_tryCatch P {A} (body : M A) (handler : Exn -> M A) :
  keeps P body -> (forall e, keeps P (handler e)) -> keeps P (tryCatch body handler).
Proof.
  intros Hb Hh st. unfold tryCatch. specialize (Hb st).
  destruct (body st) as [[a|e] st1]; simpl in *; [exact Hb|].
  eapply emitsOnly_trans; [exact Hb | apply Hh].
Qed.

Lemma keeps_log (P : Effect -> Prop) level message data :
  P (ELog level message data) -> keeps P (log level message data).
Proof. intros H st. now apply emitsOnly_emit. Qed.

Lemma keeps_sleep (P : Effect -> Prop) ms : P (ESleep ms) -> keeps P (sleep ms).
Proof.
  intros H st. exists [ESleep ms]. split; [reflexivity | now constructor].
Qed.

Lemma keeps_doFetch (P : Effect -> Prop) req :
  (forall t, P (EFetch t req)) -> keeps P (doFetch req).
Proof.
  intros H st. unfold doFetch.
  destruct (fetch world (nFetch st) req) as [elapsed answer]. simpl.
  exists [EFetch (now st) req]. split; [reflexivity | constructor; [apply H | constructor]].
Qed.

Lemma keeps_weaken (P Q : Effect -> Prop) {A} (c : M A) :
  (forall e, P e -> Q e) -> keeps P c -> keeps Q c.
Proof.
  intros H Hc st. eapply emitsOnly_weaken; [exact H | apply Hc].
Qed.

(** ** Facts about the delivery client *)

(** The effects one call of the delivery loop can have. *)
Definition deliveryEffect (payload : value) (amzDate authorizationHeader : string)
                          (e : Effect) : Prop :=
  match e with
  | ELog level message _ =>
      level = "console.error" /\ message = "Error sending message to SQS"
  | ESleep ms => ms = Constants.AWAIT_TIME_BEFORE_RETRY CONSTANTS
  | EFetch _ req =>
      exists body, JSON_stringify payload = Ok body
                   /\ req = requestOf amzDate authorizationHeader body
  | _ => False
  end.

(** Every attempt fails: [fetch] throws, or the response does not decode. *)
Definition deliveryAlwaysFails : Prop :=
  forall k req, exists t e,
    fetch world k req = (t, Throw e) \/ fetch world k req = (t, Ok (Throw e)).

Ltac step := cbn [bind res_json lift ret log sleep fst snd].

Ltac traces :=
  cbn [trace now nHead nQuery nBlock nFetch emit elapse
       countedHead countedQuery countedBlock countedFetch].

Lemma keeps_deliveryLoop fuel MAX idx payload amzDate authorizationHeader :
  keeps (deliveryEffect payload amzDate authorizationHeader)
        (deliveryLoop fuel MAX idx payload amzDate authorizationHeader).
Proof.
  revert idx. induction fuel as [|fuel IH]; intros idx; simpl.
  - apply keeps_ret.
  - destruct (idx <? MAX); [|apply keeps_ret].
    apply keeps_bind.
    + apply keeps_tryCatch.
      * intros st. unfold bind at 1. unfold lift at 1.
        destruct (JSON_stringify payload) as [body|e0] eqn:Ebody; [|apply emitsOnly_refl].
        revert st.
        apply keeps_bind; [apply keeps_doFetch; intros t; now exists body|]. intros res.
        apply keeps_bind; [apply keeps_lift|]. intros v. apply keeps_ret.
      * intros error.
        apply keeps_bind; [apply keeps_log; now split|]. intros _.
        apply keeps_bind; [|intros _; apply keeps_ret].
        destruct (idx <? MAX - 1); [apply keeps_sleep; reflexivity | apply keeps_ret].
    + intros [v|]; [apply keeps_ret | apply IH].
Qed.


Lemma deliveryLoop_exhausted MAX payload body amzDate authorizationHeader :
  deliveryAlwaysFails ->
  JSON_stringify payload = Ok body ->
  forall fuel idx st,
    fuel = Z.to_nat (MAX - idx) ->
    exists st',
      deliveryLoop fuel MAX idx payload amzDate authorizationHeader st = (Ok JUndefined, st')
      /\ nFetch st' = (nFetch st + fuel)%nat.
Proof.
  intros Hfail Hbody. induction fuel as [|fuel IH]; intros idx st Hfuel; simpl.
  - exists st. split; [reflexivity | lia].
  - assert (Hlt : (idx <? MAX) = true) by (apply Z.ltb_lt; lia).
    rewrite Hlt.
    unfold bind at 1. unfold tryCatch.
    unfold bind at 1. unfold lift at 1. rewrite Hbody.
    unfold bind at 1. unfold doFetch.
    destruct (Hfail (nFetch st) (requestOf amzDate authorizationHeader body))
      as (t & e & [Hf|Hf]); rewrite Hf; step;
      destruct (idx <? MAX - 1); step;
      (edestruct (IH (idx + 1)) as (st' & Hrun & Hcount); [lia|];
       rewrite Hrun; exists st'; split; [reflexivity|];
       rewrite Hcount; traces; lia).
Qed.

Lemma createCanonicalRequest_ok method host payload amzDate text :
  JSON_stringify payload = Ok (JString text) ->
  exists canonicalRequest,
    createCanonicalRequest method host payload amzDate = Ok canonicalRequest.
Proof.
  intros H. unfold createCanonicalRequest. rewrite H. cbn [updateArg]. eauto.
Qed.

(** The call as a whole: the stamp and the header are computed from the
    time at entry, then the loop runs. *)
Lemma sendMessageToSQS_unfold payload st :
  sendMessageToSQS payload st =
  match authorizationHeaderAt (now st) payload with
  | Throw e => (Throw e, st)
  | Ok authorizationHeader =>
      deliveryLoop (Z.to_nat (Constants.MAX_TRIES_BEFORE_RETRY CONSTANTS))
                   (Constants.MAX_TRIES_BEFORE_RETRY CONSTANTS) 0 payload
                   (amzDateOf (now st)) authorizationHeader st
  end.
Proof.
  unfold sendMessageToSQS, authorizationHeaderAt, bind, newDate, lift.
  destruct (createCanonicalRequest _ _ payload _); reflexivity.
Qed.

Lemma authorizationHeaderAt_ok now payload text :
  JSON_stringify payload = Ok (JString text) ->
  exists authorizationHeader, authorizationHeaderAt now payload = Ok authorizationHeader.
Proof.
  intros H. unfold authorizationHeaderAt.
  destruct (createCanonicalRequest_ok (SQSConfig.method sqsConfig) (SQSConfig.host sqsConfig)
              payload (amzDateOf now) text H) as (cr & Hcr).
  rewrite Hcr. eauto.
Qed.

(** ** Observing a run *)

(** [headers[name]] of a request. *)
Definition header (name : string) (req : Request) : option string :=
  option_map snd (find (fun h => String.eqb (fst h) name) (req_headers req)).

(** The requests sent, each with the time it was sent at. *)
Definition fetches (l : list Effect) : list (Z * Request) :=
  flat_map (fun e => match e with EFetch t req => [(t, req)] | _ => [] end) l.

(** The log queries made, as pairs of bounds. *)
Definition queries (l : list Effect) : list (Z * Z) :=
  flat_map (fun e => match e with EQueryFilter _ f t => [(f, t)] | _ => [] end) l.

(** The pauses taken. *)
Definition sleeps (l : list Effect) : list Z :=
  flat_map (fun e => match e with ESleep ms => [ms] | _ => [] end) l.


Definition txHashOf (data : value) : string :=
  match get "txHash" data with
  | JString s => s
  | _ => EmptyString
  end.

(** The two log lines that close the fate of one event: the publisher
    taking it up ([true]), or the scan loop recording its failure ([false]). *)
Definition outcomeOf (e : Effect) : option (string * bool) :=
  match e with
  | ELog level message data =>
      if String.eqb level "console.info"
         && String.eqb message "[INFO] Preparing to send message:"
      then Some (txHashOf data, true)
      else if String.eqb level "error" && String.eqb message "Event Processing Failed"
      then Some (txHashOf data, false)
      else None
  | _ => None
  end.

Definition outcomes (l : list Effect) : list (string * bool) :=
  flat_map (fun e => match outcomeOf e with Some m => [m] | None => [] end) l.

Definition quiet (e : Effect) : Prop := outcomeOf e = None.

(** ** Facts about the message service *)

Lemma outcomes_app l1 l2 : outcomes (l1 ++ l2) = (outcomes l1 ++ outcomes l2)%list.
Proof. unfold outcomes. apply flat_map_app. Qed.

Lemma outcomes_cons e l :
  outcomes (e :: l)
  = (match outcomeOf e with Some m => [m] | None => [] end ++ outcomes l)%list.
Proof. reflexivity. Qed.

Lemma outcomes_quiet l : Forall quiet l -> outcomes l = [].
Proof.
  induction 1 as [|e l He _ IH]; [reflexivity|].
  unfold outcomes in *. simpl. unfold quiet in He. now rewrite He.
Qed.

Lemma deliveryEffect_quiet payload amzDate authorizationHeader e :
  deliveryEffect payload amzDate authorizationHeader e -> quiet e.
Proof.
  destruct e; simpl; try contradiction; try reflexivity.
  intros [-> ->]. reflexivity.
Qed.

Lemma keeps_sendMessageToSQS (P : Effect -> Prop) payload :
  (forall amzDate authorizationHeader e,
     deliveryEffect payload amzDate authorizationHeader e -> P e) ->
  keeps P (sendMessageToSQS payload).
Proof.
  intros H st. rewrite sendMessageToSQS_unfold.
  destruct (authorizationHeaderAt (now st) payload) as [a|e]; [|apply emitsOnly_refl].
  eapply emitsOnly_weaken; [apply H | apply keeps_deliveryLoop].
Qed.

Lemma keeps_sendMessageToSQS_quiet payload : keeps quiet (sendMessageToSQS payload).
Proof.
  apply keeps_sendMessageToSQS. intros amzDate authorizationHeader e.
  apply deliveryEffect_quiet.
Qed.

Lemma keeps_readQueueUrl P : keeps P readQueueUrl.
Proof.
  unfold readQueueUrl. destruct (AwsConfig.AWS awsConfig); [apply keeps_ret | apply keeps_throw].
Qed.

Lemma sendMessage_throws ty data tx ti li bn e st :
  JSON_stringify (messageObject ty data tx ti li bn) = Throw e ->
  sendMessage ty data tx ti li bn st = (Throw e, st).
Proof.
  intros H. unfold sendMessage. unfold bind at 1. unfold lift at 1. now rewrite H.
Qed.

Ltac keeps_quiet :=
  repeat first
    [ apply keeps_ret | apply keeps_throw | apply keeps_lift | apply keeps_newDate
    | apply keeps_readQueueUrl | apply keeps_sendMessageToSQS_quiet
    | apply keeps_log; reflexivity
    | apply keeps_bind; [|intros ?] ].

(** Once the message text exists, the publisher returns normally whatever
    happens next; it leaves exactly one "taken up" line for the event. *)
Lemma sendMessage_returns ty data tx ti li bn m st :
  JSON_stringify (messageObject ty data tx ti li bn) = Ok m ->
  exists st' delta,
    sendMessage ty data tx ti li bn st = (Ok tt, st')
    /\ trace st' = (trace st ++ delta)%list
    /\ outcomes delta = [(tx, true)].
Proof.
  intros H. unfold sendMessage. unfold bind at 1. unfold lift at 1. rewrite H.
  unfold tryCatch.
  unfold bind at 1. unfold log at 1.
  unfold bind at 1. unfold newDate at 1.
  unfold bind at 1. unfold log at 1.
  match goal with
  | |- context [let (_, _) := ?rest ?s in _] =>
      assert (K : keeps quiet rest) by keeps_quiet;
      specialize (K s); destruct (rest s) as [[[]|e] st3]
  end; destruct K as (d & E & F); cbn [snd] in E.
  - eexists st3, _. split; [reflexivity|]. split.
    + rewrite E. traces. rewrite <- !app_assoc. reflexivity.
    + cbn [app]. rewrite !outcomes_cons, (outcomes_quiet d F). reflexivity.
  - cbn [bind log newDate fst snd]. eexists _, _. split; [reflexivity|]. split.
    + traces. rewrite E. traces. rewrite <- !app_assoc. reflexivity.
    + cbn [app]. rewrite !outcomes_cons, outcomes_app, (outcomes_quiet d F). reflexivity.
Qed.

Lemma stringify_object fields v :
  JSON_stringify (JObject fields) = Ok v -> exists text, v = JString text.
Proof.
  unfold JSON_stringify. cbn [serialize].
  match goal with |- context [match ?m with Ok _ => _ | Throw _ => _ end] => destruct m end;
    intros H; inversion H; eauto.
Qed.

(** The message built by [processEvent] always has a JSON text. *)
Lemma message_serialises d ty tx ti li bn :
  exists text,
    JSON_stringify (messageObject ty (TokenMigratedDataType.toValue d) tx ti li bn)
    = Ok (JString text).
Proof.
  destruct d as [ta pid [qa| |na] [qe| |ne] [qt| |nt] th]; eexists; reflexivity.
Qed.


(** ** Facts about the scan loop *)

(** One event, one line: the turn of the [for] loop never throws, and it
    counts the event on the side its line says. *)
Lemma attemptEvent_spec event context st :
  exists context' st' delta b,
    attemptEvent event context st = (Ok context', st')
    /\ trace st' = (trace st ++ delta)%list
    /\ outcomes delta = [(Event.transactionHash event, b)]
    /\ context' = (if b then countProcessed context else countFailed context).
Proof.
  unfold attemptEvent, tryCatch, processEvent.
  unfold bind at 1. unfold bind at 1. unfold lift at 1.
  destruct (Event.args event) as [a|].
  - unfold bind at 1. unfold provider_getBlock at 1.
    destruct (getBlock world (nBlock st) (Event.blockNumber event)) as [blockData|e].
    + unfold bind at 1. unfold lift at 1.
      destruct (migrationDataOf event a blockData) as [d|e].
      * destruct (message_serialises d MessageEventType.TOKEN_MIGRATED
                    (Event.transactionHash event) (Event.transactionIndex event)
                    (Event.logIndex event) (Event.blockNumber event)) as (text & Htext).
        match goal with
        | |- context [sendMessage ?t ?d ?x ?i ?l ?n ?s] =>
            destruct (sendMessage_returns t d x i l n _ s Htext) as (st' & delta & Hrun & Htr & Hout)
        end.
        rewrite Hrun. cbn [ret]. eexists _, st', _, true. split; [reflexivity|].
        split; [rewrite Htr; traces; rewrite <- app_assoc; reflexivity|].
        split; [|reflexivity]. cbn [app]. rewrite outcomes_cons. exact Hout.
      * cbn [bind Logger_error log ret]. eexists _, _, _, false.
        split; [reflexivity|]. split; [traces; rewrite <- app_assoc; reflexivity|].
        split; reflexivity.
    + cbn [bind Logger_error log ret]. eexists _, _, _, false.
      split; [reflexivity|]. split; [traces; rewrite <- app_assoc; reflexivity|].
      split; reflexivity.
  - cbn [bind Logger_error log ret]. eexists _, _, _, false.
    split; [reflexivity|]. split; [reflexivity|]. split; reflexivity.
Qed.

Definition countOutcome (b : bool) (l : list (string * bool)) : Z :=
  Z.of_nat (List.length (filter (fun m => Bool.eqb (snd m) b) l)).

Lemma countOutcome_total l :
  countOutcome true l + countOutcome false l = Z.of_nat (List.length l).
Proof.
  unfold countOutcome. rewrite <- Nat2Z.inj_add. f_equal.
  induction l as [|[tx [|]] l IH]; cbn [filter snd Bool.eqb List.length] in *; lia.
Qed.

Lemma forEachEvent_spec events :
  forall context st,
  exists context' st' delta,
    forEachEvent events context st = (Ok context', st')
    /\ trace st' = (trace st ++ delta)%list
    /\ map fst (outcomes delta) = map Event.transactionHash events
    /\ ProcessingContext.processedCount context'
       = ProcessingContext.processedCount context + countOutcome true (outcomes delta)
    /\ ProcessingContext.failedCount context'
       = ProcessingContext.failedCount context + countOutcome false (outcomes delta)
    /\ ProcessingContext.eventCount context' = ProcessingContext.eventCount context
    /\ ProcessingContext.fromBlock context' = ProcessingContext.fromBlock context
    /\ ProcessingContext.toBlock context' = ProcessingContext.toBlock context.
Proof.
  induction events as [|event rest IH]; intros context st.
  - exists context, st, []. cbn [forEachEvent ret].
    rewrite app_nil_r. unfold countOutcome. cbn. repeat split; lia.
  - cbn [forEachEvent]. unfold bind.
    destruct (attemptEvent_spec event context st) as (c1 & st1 & d1 & b & Hrun & Htr & Hout & Hc).
    rewrite Hrun.
    destruct (IH c1 st1) as (c2 & st2 & d2 & Hrun2 & Htr2 & Hout2 & Hp & Hf & He & Hfb & Htb).
    rewrite Hrun2. exists c2, st2, (d1 ++ d2)%list.
    split; [reflexivity|]. split; [rewrite Htr2, Htr, app_assoc; reflexivity|].
    rewrite outcomes_app, Hout. cbn [app map fst].
    split; [now rewrite Hout2|].
    rewrite Hp, Hf, He, Hfb, Htb, Hc. unfold countOutcome.
    destruct b; cbn [filter snd Bool.eqb List.length countProcessed countFailed
                     ProcessingContext.processedCount ProcessingContext.failedCount
                     ProcessingContext.eventCount ProcessingContext.fromBlock
                     ProcessingContext.toBlock];
      rewrite ?Nat2Z.inj_succ; repeat split; lia.
Qed.

Lemma bind_optional_log (b : bool) level message data {A} (k : M A) st :
  ((if b then log level message data else ret tt) ;; k) st
  = k (if b then emit (ELog level message data) st else st).
Proof. destruct b; reflexivity. Qed.

Lemma optional_log_quiet (b : bool) level message data st :
  quiet (ELog level message data) ->
  exists l, trace (if b then emit (ELog level message data) st else st) = (trace st ++ l)%list
            /\ Forall quiet l.
Proof.
  intros H. destruct b.
  - exists [ELog level message data]. split; [reflexivity | now constructor].
  - exists []. split; [now rewrite app_nil_r | constructor].
Qed.

(** A turn of the [while] loop whose log query answers: every event is
    attempted, the window is left behind, the pause is the normal one. *)
Lemma iteration_advances currentBlock fromBlock st events :
  queryFilter world (nQuery st) "TokenMigrated" fromBlock
    (Z.min (fromBlock + Constants.SCAN_WITH_SPACE_BLOCK CONSTANTS) currentBlock) = Ok events ->
  exists context st' delta,
    iteration currentBlock fromBlock st
    = (Ok (context,
           Z.min (fromBlock + Constants.SCAN_WITH_SPACE_BLOCK CONSTANTS) currentBlock + 1), st')
    /\ ProcessingContext.fromBlock context = fromBlock
    /\ ProcessingContext.toBlock context
       = Z.min (fromBlock + Constants.SCAN_WITH_SPACE_BLOCK CONSTANTS) currentBlock
    /\ ProcessingContext.eventCount context = Z.of_nat (List.length events)
    /\ ProcessingContext.processedCount context = countOutcome true (outcomes delta)
    /\ ProcessingContext.failedCount context = countOutcome false (outcomes delta)
    /\ map fst (outcomes delta) = map Event.transactionHash events
    /\ trace st' = (trace st ++ delta ++ [ESleep (Constants.RETRY_DELAY CONSTANTS)])%list.
Proof.
  intros Hq. unfold iteration, tryCatch.
  unfold bind at 1. unfold Logger_progress at 1. unfold log at 1.
  unfold bind at 1. unfold contract_queryFilter at 1.
  cbn [ProcessingContext.fromBlock ProcessingContext.toBlock].
  traces. rewrite Hq. unfold Logger_info.
  rewrite bind_optional_log.
  unfold bind at 1.
  match goal with
  | |- context [forEachEvent events ?c ?s] =>
      match s with
      | (if ?b then emit (ELog ?l ?m ?d) ?s0 else _) =>
          destruct (optional_log_quiet b l m d s0 eq_refl) as (l1 & Hl1 & Fl1)
      end;
      set (sA := s) in *; clearbody sA;
      destruct (forEachEvent_spec events c sA)
        as (c2 & st2 & d2 & Hrun & Htr & Hout & Hp & Hf & He & Hfb & Htb)
  end.
  rewrite Hrun. rewrite bind_optional_log.
  match goal with
  | |- context [if ?b then emit (ELog ?l ?m ?d) st2 else st2] =>
      destruct (optional_log_quiet b l m d st2 eq_refl) as (l3 & Hl3 & Fl3);
      set (sB := if b then emit (ELog l m d) st2 else st2) in *; clearbody sB
  end.
  unfold bind at 1. unfold sleep at 1. cbn [ret].
  cbn [ProcessingContext.fromBlock ProcessingContext.toBlock ProcessingContext.eventCount
       ProcessingContext.processedCount ProcessingContext.failedCount] in *.
  eexists c2, _, ([_; _] ++ l1 ++ d2 ++ l3)%list.
  split; [rewrite Htb; reflexivity|].
  repeat split.
  7: { traces. rewrite Hl3, Htr, Hl1. traces. rewrite <- !app_assoc. cbn [app]. reflexivity. }
  all: cbn [app];
    rewrite ?outcomes_cons, ?outcomes_app, ?(outcomes_quiet l1 Fl1), ?(outcomes_quiet l3 Fl3),
            ?app_nil_r;
    cbn [outcomeOf String.eqb Ascii.eqb Bool.eqb andb app];
    try assumption; lia.
Qed.

(** A turn of the [while] loop whose log query throws: the handler of the
    outer [try] runs, [fromBlock] comes back unchanged, the pause is twice
    [RETRY_DELAY]. *)
Lemma iteration_retries currentBlock fromBlock st e :
  queryFilter world (nQuery st) "TokenMigrated" fromBlock
    (Z.min (fromBlock + Constants.SCAN_WITH_SPACE_BLOCK CONSTANTS) currentBlock) = Throw e ->
  exists st' m1 d1 m2 d2,
    iteration currentBlock fromBlock st
    = (Ok (ProcessingContext.mk fromBlock
             (Z.min (fromBlock + Constants.SCAN_WITH_SPACE_BLOCK CONSTANTS) currentBlock) 0 0 0,
           fromBlock), st')
    /\ trace st'
       = (trace st
          ++ [ ELog "progress" m1 d1;
               EQueryFilter "TokenMigrated" fromBlock
                 (Z.min (fromBlock + Constants.SCAN_WITH_SPACE_BLOCK CONSTANTS) currentBlock);
               ELog "error" m2 d2;
               ESleep (Constants.RETRY_DELAY CONSTANTS * 2) ])%list
    /\ nQuery st' = S (nQuery st).
Proof.
  intros Hq. unfold iteration, tryCatch.
  unfold bind at 1. unfold Logger_progress at 1. unfold log at 1.
  unfold bind at 1. unfold contract_queryFilter at 1.
  cbn [ProcessingContext.fromBlock ProcessingContext.toBlock].
  traces. rewrite Hq.
  cbn [bind Logger_error log sleep ret].
  eexists _, _, _, _, _. split; [reflexivity|]. split; [|reflexivity].
  traces. rewrite <- !app_assoc. reflexivity.
Qed.

(** The turn never throws, and its counters always add up. *)
Lemma iteration_total currentBlock fromBlock st :
  exists context next st',
    iteration currentBlock fromBlock st = (Ok (context, next), st')
    /\ ProcessingContext.processedCount context + ProcessingContext.failedCount context
       = ProcessingContext.eventCount context.
Proof.
  destruct (queryFilter world (nQuery st) "TokenMigrated" fromBlock
              (Z.min (fromBlock + Constants.SCAN_WITH_SPACE_BLOCK CONSTANTS) currentBlock))
    as [events|e] eqn:Hq.
  - destruct (iteration_advances currentBlock fromBlock st events Hq)
      as (c & st' & delta & Hrun & _ & _ & He & Hp & Hf & Hout & _).
    eexists c, _, st'. split; [exact Hrun|].
    rewrite Hp, Hf, He, countOutcome_total.
    rewrite <- (length_map fst), Hout, length_map. reflexivity.
  - destruct (iteration_retries currentBlock fromBlock st e Hq)
      as (st' & m1 & d1 & m2 & d2 & Hrun & _).
    eexists _, _, st'. split; [exact Hrun | reflexivity].
Qed.

(** ** The chain head is read outside the loop only *)


Lemma keeps_getBlock (P : Effect -> Prop) blockNumber :
  P (EGetBlock blockNumber) -> keeps P (provider_getBlock blockNumber).
Proof.
  intros H st. exists [EGetBlock blockNumber]. split; [reflexivity | now constructor].
Qed.










(** ** Facts about configuration validation *)

(** The effects that belong to scanning and delivery. *)
Definition scanningEffect (e : Effect) : bool :=
  match e with
  | EGetBlockNumber | EQueryFilter _ _ _ | EGetBlock _ | EFetch _ _ => true
  | _ => false
  end.

(** The ways a configuration can be unusable. *)
Inductive ConfigurationFailure : Prop :=
| SectionMissing :
    AwsConfig.AWS awsConfig = None -> ConfigurationFailure
| RegionMissing aws :
    AwsConfig.AWS awsConfig = Some aws ->
    AwsConfig.REGION aws = EmptyString -> ConfigurationFailure
| RegionInvalid aws :
    AwsConfig.AWS awsConfig = Some aws ->
    includes VALID_AWS_REGIONS (AwsConfig.REGION aws) = false -> ConfigurationFailure
| CredentialsMissing aws :
    AwsConfig.AWS awsConfig = Some aws ->
    AwsConfig.CREDENTIALS aws = None -> ConfigurationFailure
| CredentialsEmpty aws c :
    AwsConfig.AWS awsConfig = Some aws ->
    AwsConfig.CREDENTIALS aws = Some c ->
    AwsConfig.ACCESS_KEY_ID c = EmptyString \/ AwsConfig.SECRET_ACCESS_KEY c = EmptyString ->
    ConfigurationFailure
| QueueUrlMissing aws :
    AwsConfig.AWS awsConfig = Some aws ->
    AwsConfig.SQS_QUEUE_URL aws = EmptyString -> ConfigurationFailure
| QueueUnreachable e :
    getQueueAttributes world = Some e -> ConfigurationFailure.

Lemma validateAwsConfig_effects st :
  exists delta,
    trace (snd (validateAwsConfig st)) = (trace st ++ delta)%list
    /\ Forall (fun e => scanningEffect e = false) delta
    /\ outcomes delta = [].
Proof.
  assert (Hnone : exists delta, trace st = (trace st ++ delta)%list
                    /\ Forall (fun e => scanningEffect e = false) delta
                    /\ outcomes delta = [])
    by (exists []; split; [now rewrite app_nil_r | split; [constructor | reflexivity]]).
  unfold validateAwsConfig.
  destruct (AwsConfig.AWS awsConfig) as [aws|]; [|exact Hnone].
  destruct (falsy (AwsConfig.REGION aws)); [exact Hnone|].
  destruct (negb (includes VALID_AWS_REGIONS (AwsConfig.REGION aws))); [exact Hnone|].
  destruct (AwsConfig.CREDENTIALS aws) as [c|]; [|exact Hnone].
  destruct (falsy (AwsConfig.ACCESS_KEY_ID c) || falsy (AwsConfig.SECRET_ACCESS_KEY c));
    [exact Hnone|].
  destruct (falsy (AwsConfig.SQS_QUEUE_URL aws)); [exact Hnone|].
  unfold tryCatch, probeQueue.
  exists [EProbe (AwsConfig.SQS_QUEUE_URL aws)].
  destruct (getQueueAttributes world);
    (split; [reflexivity | split; [repeat constructor | reflexivity]]).
Qed.

Lemma validateAwsConfig_rejects :
  ConfigurationFailure -> forall st, exists error, fst (validateAwsConfig st) = Throw error.
Proof.
  intros Hbad st. unfold validateAwsConfig.
  destruct (AwsConfig.AWS awsConfig) as [aws|] eqn:Haws; [|cbn; eauto].
  destruct (falsy (AwsConfig.REGION aws)) eqn:Hregion; [cbn; eauto|].
  destruct (includes VALID_AWS_REGIONS (AwsConfig.REGION aws)) eqn:Hvalid; [|cbn; eauto].
  cbn [negb].
  destruct (AwsConfig.CREDENTIALS aws) as [c|] eqn:Hcred; [|cbn; eauto].
  destruct (falsy (AwsConfig.ACCESS_KEY_ID c)) eqn:Hkey; [cbn; eauto|].
  destruct (falsy (AwsConfig.SECRET_ACCESS_KEY c)) eqn:Hsecret; [cbn; eauto|].
  cbn [orb].
  destruct (falsy (AwsConfig.SQS_QUEUE_URL aws)) eqn:Hurl; [cbn; eauto|].
  unfold tryCatch, probeQueue.
  destruct (getQueueAttributes world) as [e|] eqn:Hprobe; [cbn; eauto|].
  exfalso.
  destruct Hbad as [H|a H H'|a H H'|a H H'|a c' H H' H''|a H H'|e H];
    try (rewrite Haws in H; injection H as <-);
    first
      [ congruence
      | rewrite H' in *; discriminate
      | rewrite Hcred in H'; injection H' as <-;
        destruct H'' as [E|E]; rewrite E in *; discriminate ].
Qed.

Lemma validateAwsConfig_accepts st :
  ~ ConfigurationFailure -> fst (validateAwsConfig st) = Ok tt.
Proof.
  intros Hgood. unfold validateAwsConfig.
  destruct (AwsConfig.AWS awsConfig) as [aws|] eqn:Haws;
    [|exfalso; apply Hgood; now apply SectionMissing].
  destruct (falsy (AwsConfig.REGION aws)) eqn:Hregion.
  { exfalso. apply Hgood. apply (RegionMissing aws Haws). now apply String.eqb_eq. }
  destruct (includes VALID_AWS_REGIONS (AwsConfig.REGION aws)) eqn:Hvalid;
    [|exfalso; apply Hgood; now apply (RegionInvalid aws)].
  cbn [negb].
  destruct (AwsConfig.CREDENTIALS aws) as [c|] eqn:Hcred;
    [|exfalso; apply Hgood; now apply (CredentialsMissing aws)].
  destruct (falsy (AwsConfig.ACCESS_KEY_ID c)) eqn:Hkey.
  { exfalso. apply Hgood. apply (CredentialsEmpty aws c Haws Hcred). left. now apply String.eqb_eq. }
  destruct (falsy (AwsConfig.SECRET_ACCESS_KEY c)) eqn:Hsecret.
  { exfalso. apply Hgood. apply (CredentialsEmpty aws c Haws Hcred). right. now apply String.eqb_eq. }
  cbn [orb].
  destruct (falsy (AwsConfig.SQS_QUEUE_URL aws)) eqn:Hurl.
  { exfalso. apply Hgood. apply (QueueUrlMissing aws Haws). now apply String.eqb_eq. }
  unfold tryCatch, probeQueue.
  destruct (getQueueAttributes world) as [e|] eqn:Hprobe; [|reflexivity].
  exfalso. apply Hgood. now apply (QueueUnreachable e).
Qed.

(** ** The envelope on the wire *)

(** Every request sent carries the serialised [payload] as its body. *)
Definition carriesEnvelope (payload : value) (e : Effect) : Prop :=
  match e with
  | EFetch _ req => JSON_stringify payload = Ok (req_body req)
  | _ => True
  end.

Lemma deliveryEffect_carriesEnvelope payload amzDate authorizationHeader e :
  deliveryEffect payload amzDate authorizationHeader e -> carriesEnvelope payload e.
Proof.
  destruct e; simpl; try tauto. intros (body & Hbody & ->). exact Hbody.
Qed.

Ltac keeps_envelope :=
  repeat first
    [ apply keeps_ret | apply keeps_throw | apply keeps_lift | apply keeps_newDate
    | apply keeps_readQueueUrl
    | apply keeps_sendMessageToSQS; intros ? ? ?; apply deliveryEffect_carriesEnvelope
    | apply keeps_log; exact I
    | apply keeps_bind; [|intros ?] ].

(** With a queue configured, the publisher logs the envelope it built and
    hands that very envelope to the delivery client. *)
Lemma sendMessage_publishes ty data tx ti li bn m aws st :
  AwsConfig.AWS awsConfig = Some aws ->
  JSON_stringify (messageObject ty data tx ti li bn) = Ok m ->
  exists st' info rest,
    sendMessage ty data tx ti li bn st = (Ok tt, st')
    /\ trace st'
       = (trace st
          ++ [ ELog "console.log" "Message Service" JUndefined;
               ELog "console.info" "[INFO] Preparing to send message:" info;
               ELog "console.log" "payload"
                    (payloadObject (AwsConfig.SQS_QUEUE_URL aws) m tx ti li) ]
          ++ rest)%list
    /\ Forall (carriesEnvelope (payloadObject (AwsConfig.SQS_QUEUE_URL aws) m tx ti li)) rest.
Proof.
  intros Haws H. unfold sendMessage. unfold bind at 1. unfold lift at 1. rewrite H.
  unfold tryCatch.
  unfold bind at 1. unfold log at 1.
  unfold bind at 1. unfold newDate at 1.
  unfold bind at 1. unfold log at 1.
  unfold bind at 1. unfold readQueueUrl at 1. rewrite Haws. cbn [ret].
  unfold bind at 1. unfold log at 1.
  match goal with
  | |- context [let (_, _) := ?rest ?s in _] =>
      assert (K : keeps (carriesEnvelope (payloadObject (AwsConfig.SQS_QUEUE_URL aws) m tx ti li))
                        rest) by keeps_envelope;
      specialize (K s); destruct (rest s) as [[[]|e] st3]
  end; destruct K as (d & E & F); cbn [snd] in E.
  - eexists st3, _, d. split; [reflexivity|]. split; [|exact F].
    rewrite E. traces. rewrite <- !app_assoc. reflexivity.
  - cbn [bind log newDate fst snd]. eexists _, _, (d ++ [_; _; _])%list.
    split; [reflexivity|]. split.
    + traces. rewrite E. traces. rewrite <- !app_assoc. reflexivity.
    + apply Forall_app. split; [exact F | repeat constructor].
Qed.

(** ** The claims *)

Lemma append_assoc (a b c : string) : (a ++ b) ++ c = a ++ (b ++ c).
Proof.
  induction a as [|ch a IH]; cbn [append]; [reflexivity | now rewrite IH].
Qed.

Lemma append_nil_r (a : string) : a ++ EmptyString = a.
Proof.
  induction a as [|ch a IH]; cbn [append]; [reflexivity | now rewrite IH].
Qed.

Lemma getSignatureKey_chain key stamp regionName serviceName :
  getSignatureKey key stamp regionName serviceName
  = SignerSpec.signingKey key stamp regionName serviceName.
Proof.
  unfold getSignatureKey, SignerSpec.signingKey, SignerSpec.HMAC. reflexivity.
Qed.

(** C8. For every configuration, payload and time stamp, the signer of
    [sqs.service.ts] computes the Authorization header of the reference
    algorithm: the signing key is the chain of four HMAC-SHA256 operations
    kDate, kRegion, kService, kSigning; the signature is the hexadecimal
    HMAC of the string to sign over the canonical request; and the header
    has the fixed "<ALGO> Credential=..., SignedHeaders=..., Signature=..."
    layout.  The signer is a function of its inputs alone. *)
Theorem signer_follows_reference_algorithm :
  forall (now : JsDate.Date) (payload : value) (json : string),
    JSON_stringify payload = Ok (JString json) ->
    (forall key stamp regionName serviceName,
       getSignatureKey key stamp regionName serviceName
       = SignerSpec.signingKey key stamp regionName serviceName)
    /\ authorizationHeaderAt now payload
       = Ok (SignerSpec.authorization
               (SQSConfig.algorithm sqsConfig)
               (SQSConfig.method sqsConfig)
               (SQSConfig.host sqsConfig)
               (SQSConfig.contentType (SQSConfig.headers sqsConfig))
               (SQSConfig.target (SQSConfig.headers sqsConfig))
               json
               (amzDateOf now)
               (SQSConfig.secretKey (SQSConfig.credentials sqsConfig))
               (SQSConfig.accessKey (SQSConfig.credentials sqsConfig))
               (SQSConfig.region (SQSConfig.credentials sqsConfig))
               (SQSConfig.service sqsConfig)).
Proof.
  intros now payload json Hjson. split; [apply getSignatureKey_chain|].
  unfold authorizationHeaderAt, createCanonicalRequest. rewrite Hjson. cbn [updateArg].
  f_equal.
  unfold calculateAuthParam, createStringToSign, SignerSpec.authorization,
    SignerSpec.header, SignerSpec.signature, SignerSpec.stringToSign,
    SignerSpec.canonicalRequest, SignerSpec.dateStamp, SignerSpec.HMAC, Text.slice0.
  rewrite getSignatureKey_chain.
  cbn [Text.concat].
  rewrite !append_assoc, !append_nil_r.
  cbn [append].
  reflexivity.
Qed.


(** C2, as the code has it.  One call of [sendMessageToSQS] reads the clock
    once, on entry; every request it sends, on whichever attempt and at
    whatever time, carries the X-Amz-Date stamp and the Authorization header
    computed from that one reading. *)
Theorem attempts_reuse_the_signature_of_entry :
  forall (payload : value) (st : State),
  exists delta,
    trace (snd (sendMessageToSQS payload st)) = (trace st ++ delta)%list
    /\ forall t req,
         In (t, req) (fetches delta) ->
         header "X-Amz-Date" req = Some (amzDateOf (now st))
         /\ exists authorizationHeader,
              authorizationHeaderAt (now st) payload = Ok authorizationHeader
              /\ header "Authorization" req = Some authorizationHeader.
Proof.
  intros payload st. rewrite sendMessageToSQS_unfold.
  destruct (authorizationHeaderAt (now st) payload) as [auth|e] eqn:Hauth.
  - destruct (keeps_deliveryLoop
                (Z.to_nat (Constants.MAX_TRIES_BEFORE_RETRY CONSTANTS))
                (Constants.MAX_TRIES_BEFORE_RETRY CONSTANTS) 0 payload
                (amzDateOf (now st)) auth st) as (delta & Htr & Hall).
    exists delta. split; [exact Htr|].
    intros t req Hin. unfold fetches in Hin. apply in_flat_map in Hin.
    destruct Hin as (e & He & Hin).
    rewrite Forall_forall in Hall. specialize (Hall e He).
    destruct e; cbn in Hin; try contradiction.
    destruct Hin as [Hin|[]]. inversion Hin; subst.
    destruct Hall as (body & _ & ->).
    split; [reflexivity|]. exists auth. split; reflexivity.
  - exists []. split; [cbn; now rewrite app_nil_r | intros t req []].
Qed.

(** C3, at the input where the code departs from it.  The message body is
    serialised before the [try] of [sendMessage] is entered: with a data
    object that holds a BigInt, [JSON.stringify] throws a TypeError, nothing
    catches it and nothing is logged; the exception reaches the caller. *)
Theorem sendMessage_lets_serialisation_error_escape :
  forall (st : State),
    sendMessage MessageEventType.TOKEN_MIGRATED (JObject [("amount", JBigInt 1)])
                "0x1" 0 0 42 st
    = (Throw (TypeError "Do not know how to serialize a BigInt"), st).
Proof.
  intros st. apply sendMessage_throws. reflexivity.
Qed.

Lemma attemptEvent_published event a blockData d context st :
  Event.args event = Some a ->
  getBlock world (nBlock st) (Event.blockNumber event) = Ok blockData ->
  migrationDataOf event a blockData = Ok d ->
  exists st',
    attemptEvent event context st = (Ok (countProcessed context), st').
Proof.
  intros Hargs Hblock Hdata.
  unfold attemptEvent, tryCatch, processEvent.
  unfold bind at 1. unfold bind at 1. unfold lift at 1. rewrite Hargs.
  unfold bind at 1. unfold provider_getBlock at 1. rewrite Hblock.
  unfold bind at 1. unfold lift at 1. rewrite Hdata.
  destruct (message_serialises d MessageEventType.TOKEN_MIGRATED
              (Event.transactionHash event) (Event.transactionIndex event)
              (Event.logIndex event) (Event.blockNumber event)) as (text & Htext).
  match goal with
  | |- context [sendMessage ?t ?x ?h ?i ?l ?n ?s] =>
      destruct (sendMessage_returns t x h i l n _ s Htext) as (st' & delta & Hrun & _)
  end.
  rewrite Hrun. cbn [ret]. now exists st'.
Qed.

(** C1, as the code has it.  When every delivery attempt fails, the delivery
    client uses up its attempts and returns [undefined] without throwing;
    the publisher returns normally; the scan loop therefore counts the event
    in [processedCount], leaves [failedCount] alone and goes on with the
    next event.  The window is not failed either: the turn of the loop ends
    by advancing to the next window. *)
Theorem exhausted_delivery_is_counted_as_processed :
  deliveryAlwaysFails ->
  (forall payload json st,
     JSON_stringify payload = Ok (JString json) ->
     exists st',
       sendMessageToSQS payload st = (Ok JUndefined, st')
       /\ nFetch st'
          = (nFetch st + Z.to_nat (Constants.MAX_TRIES_BEFORE_RETRY CONSTANTS))%nat)
  /\ (forall event a blockData d context rest st,
        Event.args event = Some a ->
        getBlock world (nBlock st) (Event.blockNumber event) = Ok blockData ->
        migrationDataOf event a blockData = Ok d ->
        exists st',
          attemptEvent event context st = (Ok (countProcessed context), st')
          /\ ProcessingContext.processedCount (countProcessed context)
             = ProcessingContext.processedCount context + 1
          /\ ProcessingContext.failedCount (countProcessed context)
             = ProcessingContext.failedCount context
          /\ forEachEvent (event :: rest) context st
             = forEachEvent rest (countProcessed context) st')
  /\ (forall currentBlock fromBlock st events,
        queryFilter world (nQuery st) "TokenMigrated" fromBlock
          (Z.min (fromBlock + Constants.SCAN_WITH_SPACE_BLOCK CONSTANTS) currentBlock)
        = Ok events ->
        exists context st',
          iteration currentBlock fromBlock st
          = (Ok (context,
                 Z.min (fromBlock + Constants.SCAN_WITH_SPACE_BLOCK CONSTANTS) currentBlock + 1),
             st')).
Proof.
  intros Hfail. split; [|split].
  - intros payload json st Hjson. rewrite sendMessageToSQS_unfold.
    destruct (authorizationHeaderAt_ok (now st) payload json Hjson) as (auth & Hauth).
    rewrite Hauth.
    apply (deliveryLoop_exhausted _ payload (JString json) _ _ Hfail Hjson).
    now rewrite Z.sub_0_r.
  - intros event a blockData d context rest st Hargs Hblock Hdata.
    destruct (attemptEvent_published event a blockData d context st Hargs Hblock Hdata)
      as (st' & Hrun).
    exists st'. split; [exact Hrun|]. split; [reflexivity|]. split; [reflexivity|].
    cbn [forEachEvent]. unfold bind. now rewrite Hrun.
  - intros currentBlock fromBlock st events Hq.
    destruct (iteration_advances currentBlock fromBlock st events Hq)
      as (c & st' & delta & Hrun & _).
    now exists c, st'.
Qed.

(** With the modules loaded: when the configuration is unusable, the scan
    function logs the error and returns normally before any scanning, and
    the entry point ends with status zero; its status is one exactly when
    an exception escapes the scan function. *)
Lemma entryPoint_status :
  (ConfigurationFailure ->
   forall fuel st,
   exists st' delta,
     scanTokenMigratedEvents fuel st = Some (Ok tt, st')
     /\ entryPoint fuel st = Some (0, st')
     /\ trace st' = (trace st ++ delta)%list
     /\ Forall (fun e => scanningEffect e = false) delta
     /\ outcomes delta = []
     /\ exists started error before,
          fst (validateAwsConfig
                 (emit (ELog "info" "Token Migration Scanner Started" started) st))
          = Throw error
          /\ delta
             = (ELog "info" "Token Migration Scanner Started" started
                :: before
                ++ [ELog "console.error" ("Error [" ++ exnCode error ++ "]:")
                         (JString (exnMessage error))])%list)
  /\ (forall fuel st,
        match entryPoint fuel st with
        | None => scanTokenMigratedEvents fuel st = None
        | Some (code, st') =>
            (code = 0 /\ scanTokenMigratedEvents fuel st = Some (Ok tt, st'))
            \/ (code = 1
                /\ exists e st1, scanTokenMigratedEvents fuel st = Some (Throw e, st1))
        end).
Proof.
  split.
  - intros Hbad fuel st. unfold entryPoint, scanTokenMigratedEvents.
    cbn [Logger_info log].
    match goal with
    | |- context [validateAwsConfig ?s] =>
        destruct (validateAwsConfig_rejects Hbad s) as (error & Herr);
        destruct (validateAwsConfig_effects s) as (d & Htr & Hscan & Hout);
        assert (Hv : forall s', s' = s -> fst (validateAwsConfig s') = Throw error)
          by (intros s' ->; exact Herr);
        destruct (validateAwsConfig s) as [r st1]
    end.
    cbn [fst snd] in Herr, Htr. subst r. cbn [log].
    eexists _, ([_] ++ d ++ [_])%list. split; [reflexivity|]. split; [reflexivity|].
    split; [|split; [|split]].
    + traces. rewrite Htr. traces. rewrite <- !app_assoc. reflexivity.
    + apply Forall_app. split; [repeat constructor|].
      apply Forall_app. split; [exact Hscan | repeat constructor].
    + rewrite !outcomes_app, Hout. reflexivity.
    + eexists _, error, d. split; [exact (Hv _ eq_refl) | reflexivity].
  - intros fuel st. unfold entryPoint.
    destruct (scanTokenMigratedEvents fuel st) as [[[[]|e] st1]|]; [| |reflexivity].
    + now left.
    + cbn [Logger_error log]. right. split; [reflexivity|]. eauto.
Qed.


(** One turn of the [for] loop, read off [processEvent]. *)
Lemma attemptEvent_by_cases event context st :
  attemptEvent event context st
  = match processEvent event st with
    | (Ok _, st1) => (Ok (countProcessed context), st1)
    | (Throw eventError, st1) =>
        (Ok (countFailed context),
         emit (ELog "error" "Event Processing Failed"
                 (JObject [ ("txHash", JString (Event.transactionHash event));
                            ("blockNumber", JInt (Event.blockNumber event));
                            ("error", describeError "type" eventError) ])) st1)
    end.
Proof.
  unfold attemptEvent, tryCatch. unfold bind at 1.
  destruct (processEvent event st) as [[[]|e] st1]; reflexivity.
Qed.

Lemma counted_once (context : ProcessingContext.t) :
  countProcessed context <> countFailed context.
Proof.
  intros H. apply (f_equal ProcessingContext.processedCount) in H.
  cbn [countProcessed countFailed ProcessingContext.processedCount] in H. lia.
Qed.

(** The [for] loop runs through its list: whatever became of the events
    before it, each event is attempted in the state they have left. *)
Lemma forEachEvent_reaches events1 :
  forall event events2 context st,
  exists context1 st1 context2 st2,
    forEachEvent events1 context st = (Ok context1, st1)
    /\ attemptEvent event context1 st1 = (Ok context2, st2)
    /\ forEachEvent (events1 ++ event :: events2) context st
       = forEachEvent events2 context2 st2.
Proof.
  induction events1 as [|e0 rest IH]; intros event events2 context st.
  - destruct (attemptEvent_spec event context st) as (c2 & st2 & d & b & Hrun & _).
    exists context, st, c2, st2. split; [reflexivity|]. split; [exact Hrun|].
    cbn [app forEachEvent]. unfold bind. now rewrite Hrun.
  - destruct (attemptEvent_spec e0 context st) as (c0 & st0 & d & b & Hrun0 & _).
    destruct (IH event events2 c0 st0) as (c1 & st1 & c2 & st2 & Hrest & Hone & Hall).
    exists c1, st1, c2, st2.
    cbn [app forEachEvent]. unfold bind. rewrite Hrun0.
    split; [exact Hrest|]. split; [exact Hone | exact Hall].
Qed.

(** A turn of the [while] loop whose query answers hands exactly the
    events of the answer to the [for] loop, with counters at zero. *)
Lemma iteration_runs_events currentBlock fromBlock st events :
  queryFilter world (nQuery st) "TokenMigrated" fromBlock
    (Z.min (fromBlock + Constants.SCAN_WITH_SPACE_BLOCK CONSTANTS) currentBlock) = Ok events ->
  exists context st' s0 s1 pre post,
    iteration currentBlock fromBlock st
    = (Ok (context,
           Z.min (fromBlock + Constants.SCAN_WITH_SPACE_BLOCK CONSTANTS) currentBlock + 1), st')
    /\ trace s0 = (trace st ++ pre)%list
    /\ outcomes pre = []
    /\ forEachEvent events
         (ProcessingContext.mk fromBlock
            (Z.min (fromBlock + Constants.SCAN_WITH_SPACE_BLOCK CONSTANTS) currentBlock)
            (Z.of_nat (List.length events)) 0 0) s0
       = (Ok context, s1)
    /\ trace st' = (trace s1 ++ post ++ [ESleep (Constants.RETRY_DELAY CONSTANTS)])%list
    /\ outcomes post = [].
Proof.
  intros Hq. unfold iteration, tryCatch.
  unfold bind at 1. unfold Logger_progress at 1. unfold log at 1.
  unfold bind at 1. unfold contract_queryFilter at 1.
  cbn [ProcessingContext.fromBlock ProcessingContext.toBlock].
  traces. rewrite Hq. unfold Logger_info.
  rewrite bind_optional_log.
  unfold bind at 1.
  match goal with
  | |- context [forEachEvent events ?c ?s] =>
      match s with
      | (if ?b then emit (ELog ?l ?m ?d) ?s0 else _) =>
          destruct (optional_log_quiet b l m d s0 eq_refl) as (l1 & Hl1 & Fl1)
      end;
      set (sA := s) in *; clearbody sA;
      destruct (forEachEvent_spec events c sA)
        as (c2 & st2 & d2 & Hrun & Htr & Hout & Hp & Hf & He & Hfb & Htb)
  end.
  rewrite Hrun. rewrite bind_optional_log.
  match goal with
  | |- context [if ?b then emit (ELog ?l ?m ?d) st2 else st2] =>
      destruct (optional_log_quiet b l m d st2 eq_refl) as (l3 & Hl3 & Fl3);
      set (sB := if b then emit (ELog l m d) st2 else st2) in *; clearbody sB
  end.
  unfold bind at 1. unfold sleep at 1. cbn [ret].
  cbn [ProcessingContext.toBlock] in Htb.
  eexists c2, _, sA, st2, ([_; _] ++ l1)%list, l3.
  split; [rewrite Htb; reflexivity|].
  split; [rewrite Hl1; traces; rewrite <- !app_assoc; reflexivity|].
  split; [cbn [app]; rewrite !outcomes_cons, (outcomes_quiet l1 Fl1); reflexivity|].
  split; [exact Hrun|].
  split; [traces; rewrite Hl3, <- !app_assoc; reflexivity|].
  exact (outcomes_quiet l3 Fl3).
Qed.

(** C7. Each event is attempted once and counted once: a turn of the [for]
    loop never throws, counts the event as processed exactly when
    [processEvent] returned and as failed exactly when it threw, and leaves
    one line for it.  The [for] loop goes through its whole list in order,
    whatever became of the events before.  A turn of the [while] loop
    whose query answers hands exactly the answered events to the [for]
    loop, with the counters at zero; so when it ends (and also when its
    query failed) [processedCount + failedCount = eventCount]. *)
Theorem counters_add_up :
  (forall (event : Event.t) (context : ProcessingContext.t) (st : State),
   exists context' st' delta b,
     attemptEvent event context st = (Ok context', st')
     /\ trace st' = (trace st ++ delta)%list
     /\ outcomes delta = [(Event.transactionHash event, b)]
     /\ context' = (if b then countProcessed context else countFailed context)
     /\ (b = true <-> fst (processEvent event st) = Ok tt)
     /\ (b = false <-> exists e, fst (processEvent event st) = Throw e))
  /\ (forall (events1 : list Event.t) (event : Event.t) (events2 : list Event.t)
             (context : ProcessingContext.t) (st : State),
      exists context1 st1 context2 st2,
        forEachEvent events1 context st = (Ok context1, st1)
        /\ attemptEvent event context1 st1 = (Ok context2, st2)
        /\ forEachEvent (events1 ++ event :: events2) context st
           = forEachEvent events2 context2 st2)
  /\ (forall (events : list Event.t) (context : ProcessingContext.t) (st : State),
      exists context' st' delta,
        forEachEvent events context st = (Ok context', st')
        /\ trace st' = (trace st ++ delta)%list
        /\ map fst (outcomes delta) = map Event.transactionHash events
        /\ ProcessingContext.processedCount context'
           = ProcessingContext.processedCount context + countOutcome true (outcomes delta)
        /\ ProcessingContext.failedCount context'
           = ProcessingContext.failedCount context + countOutcome false (outcomes delta)
        /\ ProcessingContext.processedCount context' + ProcessingContext.failedCount context'
           = ProcessingContext.processedCount context + ProcessingContext.failedCount context
             + Z.of_nat (List.length events))
  /\ (forall (currentBlock fromBlock : Z) (st : State),
      exists context next st',
        iteration currentBlock fromBlock st = (Ok (context, next), st')
        /\ ProcessingContext.processedCount context + ProcessingContext.failedCount context
           = ProcessingContext.eventCount context
        /\ forall events,
             queryFilter world (nQuery st) "TokenMigrated" fromBlock
               (Z.min (fromBlock + Constants.SCAN_WITH_SPACE_BLOCK CONSTANTS) currentBlock)
             = Ok events ->
             ProcessingContext.eventCount context = Z.of_nat (List.length events)
             /\ exists s0 s1 pre post,
                  trace s0 = (trace st ++ pre)%list
                  /\ outcomes pre = []
                  /\ forEachEvent events
                       (ProcessingContext.mk fromBlock
                          (Z.min (fromBlock + Constants.SCAN_WITH_SPACE_BLOCK CONSTANTS)
                                 currentBlock)
                          (Z.of_nat (List.length events)) 0 0) s0
                     = (Ok context, s1)
                  /\ trace st'
                     = (trace s1 ++ post ++ [ESleep (Constants.RETRY_DELAY CONSTANTS)])%list
                  /\ outcomes post = []).
Proof.
  split; [|split; [|split]].
  - intros event context st.
    destruct (attemptEvent_spec event context st)
      as (c & st' & delta & b & Hrun & Htr & Hout & Hc).
    exists c, st', delta, b.
    split; [exact Hrun|]. split; [exact Htr|]. split; [exact Hout|]. split; [exact Hc|].
    rewrite attemptEvent_by_cases in Hrun.
    destruct (processEvent event st) as [[[]|e] st1]; cbn [fst];
      inversion Hrun as [[Hcount Hstate]]; rewrite Hc in Hcount;
      destruct b;
      try (exfalso; apply (counted_once context); congruence).
    + split; split; try reflexivity; try discriminate.
      intros (e & He). discriminate.
    + split; split; try reflexivity; try discriminate.
      intros _. now exists e.
  - intros events1 event events2 context st. apply forEachEvent_reaches.
  - intros events context st.
    destruct (forEachEvent_spec events context st)
      as (c & st' & delta & Hrun & Htr & Hout & Hp & Hf & _).
    exists c, st', delta. repeat split; try assumption.
    rewrite Hp, Hf.
    pose proof (countOutcome_total (outcomes delta)) as Htotal.
    rewrite <- (length_map fst), Hout, length_map in Htotal. lia.
  - intros currentBlock fromBlock st.
    destruct (iteration_total currentBlock fromBlock st) as (c & next & st' & Hrun & Hsum).
    exists c, next, st'. split; [exact Hrun|]. split; [exact Hsum|].
    intros events Hq.
    destruct (iteration_runs_events currentBlock fromBlock st events Hq)
      as (c' & s' & s0 & s1 & pre & post & Hrun' & Hpre & Hopre & Hfor & Hpost & Hopost).
    rewrite Hrun in Hrun'. inversion Hrun'; subst.
    split.
    + destruct (forEachEvent_spec events
                  (ProcessingContext.mk fromBlock
                     (Z.min (fromBlock + Constants.SCAN_WITH_SPACE_BLOCK CONSTANTS) currentBlock)
                     (Z.of_nat (List.length events)) 0 0) s0)
        as (c2 & st2 & d2 & Hrun2 & _ & _ & _ & _ & He & _).
      rewrite Hfor in Hrun2. inversion Hrun2; subst. exact He.
    + exists s0, s1, pre, post. repeat split; assumption.
Qed.

(** C9. The raw event of the scenario, in a block stamped 1700000000, is
    turned into the message with upper-case addresses, amounts 2 and 1 and
    the time in milliseconds (the field the specification calls
    timestampMillis is [timestamp] in the code); the publisher builds, logs
    and hands to the delivery client an envelope whose group and
    deduplication identifiers are both "0x1/0/0" and whose body is the JSON
    text of that message. *)
Theorem end_to_end_scenario :
  forall (st : State) (aws : AwsConfig.Section_),
    Constants.AMOUNT_TO_MILLISECONDS CONSTANTS = 1000 ->
    AwsConfig.AWS awsConfig = Some aws ->
    getBlock world (nBlock st) 42 = Ok (Some Sample.block) ->
    migrationDataOf Sample.rawEvent Sample.rawArgs (Some Sample.block)
    = Ok Sample.migrationMessage
    /\ exists st' info rest,
         let envelope :=
           JObject [ ("QueueUrl", JString (AwsConfig.SQS_QUEUE_URL aws));
                     ("MessageBody", JString Sample.messageBody);
                     ("MessageGroupId", JString "0x1/0/0");
                     ("MessageDeduplicationId", JString "0x1/0/0") ] in
         processEvent Sample.rawEvent st = (Ok tt, st')
         /\ trace st'
            = (trace st
               ++ [ EGetBlock 42;
                    ELog "console.log" "Message Service" JUndefined;
                    ELog "console.info" "[INFO] Preparing to send message:" info;
                    ELog "console.log" "payload" envelope ]
               ++ rest)%list
         /\ Forall (carriesEnvelope envelope) rest.
Proof.
  intros st aws Hms Haws Hblock.
  assert (Hdata : migrationDataOf Sample.rawEvent Sample.rawArgs (Some Sample.block)
                  = Ok Sample.migrationMessage).
  { unfold migrationDataOf. cbn [required Sample.rawArgs EventArgs.token EventArgs.pairAddress
                                  EventArgs.amountToken EventArgs.amountETH].
    rewrite Hms. vm_compute. reflexivity. }
  split; [exact Hdata|].
  unfold processEvent.
  unfold bind at 1. unfold lift at 1. cbn [Sample.rawEvent Event.args].
  unfold bind at 1. unfold provider_getBlock at 1.
  cbn [Sample.rawEvent Event.blockNumber]. rewrite Hblock.
  unfold bind at 1. unfold lift at 1.
  change (Event.mk (Some Sample.rawArgs) 42 "0x1" 0 0) with Sample.rawEvent.
  rewrite Hdata.
  cbn [Sample.rawEvent Event.transactionHash Event.transactionIndex Event.logIndex
       Event.blockNumber].
  assert (Hbody : JSON_stringify
                    (messageObject MessageEventType.TOKEN_MIGRATED
                       (TokenMigratedDataType.toValue Sample.migrationMessage) "0x1" 0 0 42)
                  = Ok (JString Sample.messageBody)) by (vm_compute; reflexivity).
  match goal with
  | |- context [sendMessage ?t ?x ?h ?i ?l ?n ?s] =>
      destruct (sendMessage_publishes t x h i l n _ aws s Haws Hbody)
        as (st' & info & rest & Hrun & Htr & Hall)
  end.
  exists st', info, rest. cbn zeta. split; [exact Hrun|]. split; [|exact Hall].
  rewrite Htr. traces. rewrite <- !app_assoc. reflexivity.
Qed.

(** ** Further properties of the delivery client *)

Lemma fetches_app l1 l2 : fetches (l1 ++ l2) = (fetches l1 ++ fetches l2)%list.
Proof. unfold fetches. apply flat_map_app. Qed.

Lemma sleeps_app l1 l2 : sleeps (l1 ++ l2) = (sleeps l1 ++ sleeps l2)%list.
Proof. unfold sleeps. apply flat_map_app. Qed.

Lemma queries_app l1 l2 : queries (l1 ++ l2) = (queries l1 ++ queries l2)%list.
Proof. unfold queries. apply flat_map_app. Qed.

(** The attempt answered by the [k]-th fetch fails. *)
Definition attemptFails (k : nat) (req : Request) : Prop :=
  exists t e, fetch world k req = (t, Throw e) \/ fetch world k req = (t, Ok (Throw e)).

(** A run of [k] failed attempts that does not use up the attempts: each
    sends the request, logs the error and pauses; the loop then stands at
    attempt [idx + k]. *)
Lemma deliveryLoop_failures MAX payload body amzDate authorizationHeader :
  JSON_stringify payload = Ok body ->
  forall k fuel idx st,
    idx + Z.of_nat k < MAX ->
    fuel = Z.to_nat (MAX - idx) ->
    (forall j, (j < k)%nat ->
       attemptFails (nFetch st + j) (requestOf amzDate authorizationHeader body)) ->
    exists st1 delta,
      deliveryLoop fuel MAX idx payload amzDate authorizationHeader st
      = deliveryLoop (fuel - k) MAX (idx + Z.of_nat k) payload amzDate authorizationHeader st1
      /\ trace st1 = (trace st ++ delta)%list
      /\ map snd (fetches delta) = repeat (requestOf amzDate authorizationHeader body) k
      /\ sleeps delta = repeat (Constants.AWAIT_TIME_BEFORE_RETRY CONSTANTS) k
      /\ nFetch st1 = (nFetch st + k)%nat.
Proof.
  intros Hbody. induction k as [|k IH]; intros fuel idx st Hlt Hfuel Hfail.
  - exists st, []. rewrite Nat.sub_0_r, Z.add_0_r, app_nil_r, Nat.add_0_r.
    repeat split.
  - destruct fuel as [|fuel]; [lia|].
    cbn [deliveryLoop].
    assert (Hin : (idx <? MAX) = true) by (apply Z.ltb_lt; lia).
    assert (Hmore : (idx <? MAX - 1) = true) by (apply Z.ltb_lt; lia).
    rewrite Hin.
    unfold bind at 1. unfold tryCatch.
    unfold bind at 1. unfold lift at 1. rewrite Hbody.
    unfold bind at 1. unfold doFetch.
    destruct (Hfail 0%nat) as (t & e & Hf); [lia|]. rewrite Nat.add_0_r in Hf.
    set (req := requestOf amzDate authorizationHeader body) in *.
    set (line := ELog "console.error" "Error sending message to SQS"
                   (JObject [ ("handler", JString "sendMessageToSQS");
                              ("error", JObject [ ("name", JString (exnName e));
                                                  ("message", JString (exnMessage e)) ]) ])).
    set (pause := Constants.AWAIT_TIME_BEFORE_RETRY CONSTANTS).
    destruct (IH fuel (idx + 1)
                (elapse pause (emit (ESleep pause) (emit line
                   (countedFetch (elapse t (emit (EFetch (now st) req) st)))))))
      as (st1 & delta & Hrun & Htr & Hreq & Hsl & Hn); [lia | lia | |].
    { intros j Hj. traces.
      replace (S (nFetch st) + j)%nat with (nFetch st + S j)%nat by lia.
      apply Hfail. lia. }
    exists st1, ([EFetch (now st) req; line; ESleep pause] ++ delta)%list.
    replace (idx + Z.of_nat (S k)) with (idx + 1 + Z.of_nat k) by lia.
    cbn [Nat.sub]. rewrite <- Hrun.
    split; [destruct Hf as [Hf|Hf]; rewrite Hf; step; rewrite Hmore; step; reflexivity|].
    split; [rewrite Htr; traces; rewrite <- !app_assoc; reflexivity|].
    rewrite fetches_app, sleeps_app, map_app, Hreq, Hsl.
    repeat split. rewrite Hn. traces. lia.
Qed.

Lemma deliveryLoop_answered MAX payload body amzDate authorizationHeader fuel idx st t v :
  JSON_stringify payload = Ok body ->
  idx < MAX ->
  fuel = Z.to_nat (MAX - idx) ->
  fetch world (nFetch st) (requestOf amzDate authorizationHeader body) = (t, Ok (Ok v)) ->
  deliveryLoop fuel MAX idx payload amzDate authorizationHeader st
  = (Ok v, countedFetch (elapse t
             (emit (EFetch (now st) (requestOf amzDate authorizationHeader body)) st))).
Proof.
  intros Hbody Hlt Hfuel Hf. destruct fuel as [|fuel]; [lia|].
  cbn [deliveryLoop]. apply Z.ltb_lt in Hlt. rewrite Hlt.
  unfold bind at 1. unfold tryCatch.
  unfold bind at 1. unfold lift at 1. rewrite Hbody.
  unfold bind at 1. unfold doFetch. rewrite Hf. reflexivity.
Qed.

Lemma deliveryLoop_last_failure MAX payload body amzDate authorizationHeader st :
  JSON_stringify payload = Ok body ->
  attemptFails (nFetch st) (requestOf amzDate authorizationHeader body) ->
  exists st' line,
    deliveryLoop 1 MAX (MAX - 1) payload amzDate authorizationHeader st = (Ok JUndefined, st')
    /\ trace st'
       = (trace st ++ [EFetch (now st) (requestOf amzDate authorizationHeader body);
                       ELog "console.error" "Error sending message to SQS" line])%list
    /\ nFetch st' = S (nFetch st).
Proof.
  intros Hbody (t & e & Hf). cbn [deliveryLoop].
  assert (Hin : (MAX - 1 <? MAX) = true) by (apply Z.ltb_lt; lia).
  assert (Hlast : (MAX - 1 <? MAX - 1) = false) by (apply Z.ltb_ge; lia).
  rewrite Hin.
  unfold bind at 1. unfold tryCatch.
  unfold bind at 1. unfold lift at 1. rewrite Hbody.
  unfold bind at 1. unfold doFetch.
  eexists _, _.
  destruct Hf as [Hf|Hf]; rewrite Hf; step; rewrite Hlast; step;
    (split; [reflexivity|]; split; [traces; rewrite <- !app_assoc; reflexivity | reflexivity]).
Qed.

(** X1. A payload without a JSON text makes [sendMessageToSQS] throw while
    the canonical request is built, before the retry loop: no request is
    sent, nothing is logged, the state is untouched.  A payload that is
    [undefined] fails in the hash update instead. *)
Theorem sendMessageToSQS_throws_before_any_attempt :
  forall (payload : value) (st : State),
    (forall e, JSON_stringify payload = Throw e ->
               sendMessageToSQS payload st = (Throw e, st))
    /\ (JSON_stringify payload = Ok JUndefined ->
        exists e, sendMessageToSQS payload st = (Throw e, st)
                  /\ exnCode e = "ERR_INVALID_ARG_TYPE").
Proof.
  intros payload st. split.
  - intros e H. rewrite sendMessageToSQS_unfold.
    unfold authorizationHeaderAt, createCanonicalRequest. now rewrite H.
  - intros H. rewrite sendMessageToSQS_unfold.
    unfold authorizationHeaderAt, createCanonicalRequest. rewrite H. cbn [updateArg].
    eexists. split; reflexivity.
Qed.

(** X2. When the first [k] attempts fail and the next one is answered (with
    [k] below the maximum), [sendMessageToSQS] returns the decoded answer
    after exactly [k + 1] requests, all of them the same request, and [k]
    pauses of [AWAIT_TIME_BEFORE_RETRY]; later attempts are not made. *)
Theorem delivery_stops_at_first_answer :
  forall (payload : value) (json : string) (st : State) (k : nat) (t : Z) (v : value)
         (authorizationHeader : string),
    JSON_stringify payload = Ok (JString json) ->
    authorizationHeaderAt (now st) payload = Ok authorizationHeader ->
    Z.of_nat k < Constants.MAX_TRIES_BEFORE_RETRY CONSTANTS ->
    (forall j, (j < k)%nat ->
       attemptFails (nFetch st + j)
         (requestOf (amzDateOf (now st)) authorizationHeader (JString json))) ->
    fetch world (nFetch st + k)
      (requestOf (amzDateOf (now st)) authorizationHeader (JString json)) = (t, Ok (Ok v)) ->
    exists st' delta,
      sendMessageToSQS payload st = (Ok v, st')
      /\ trace st' = (trace st ++ delta)%list
      /\ map snd (fetches delta)
         = repeat (requestOf (amzDateOf (now st)) authorizationHeader (JString json)) (k + 1)
      /\ sleeps delta = repeat (Constants.AWAIT_TIME_BEFORE_RETRY CONSTANTS) k
      /\ nFetch st' = (nFetch st + k + 1)%nat.
Proof.
  intros payload json st k t v auth Hjson Hauth Hk Hfail Hok.
  rewrite sendMessageToSQS_unfold, Hauth.
  set (MAX := Constants.MAX_TRIES_BEFORE_RETRY CONSTANTS) in *.
  destruct (deliveryLoop_failures MAX payload (JString json) (amzDateOf (now st)) auth Hjson
              k (Z.to_nat MAX) 0 st) as (st1 & delta & Hrun & Htr & Hreq & Hsl & Hn);
    [lia | now rewrite Z.sub_0_r | exact Hfail |].
  rewrite Hrun.
  rewrite (deliveryLoop_answered MAX payload (JString json) (amzDateOf (now st)) auth
             _ _ st1 t v Hjson); [|lia|lia|now rewrite Hn].
  eexists _, (delta ++ [_])%list. split; [reflexivity|].
  split; [traces; rewrite Htr, <- app_assoc; reflexivity|].
  rewrite fetches_app, sleeps_app, map_app, Hreq, Hsl.
  cbn [fetches sleeps flat_map map snd app]. rewrite app_nil_r.
  split; [now rewrite repeat_app|]. split; [reflexivity|]. traces. lia.
Qed.

(** X3. When every attempt fails and at least one attempt is allowed,
    [sendMessageToSQS] sends exactly [MAX_TRIES] requests, all of them the
    same, pauses between attempts only ([MAX_TRIES - 1] pauses, none after
    the last failure), and then returns [undefined]. *)
Theorem delivery_exhaustion_accounting :
  forall (payload : value) (json : string) (st : State) (authorizationHeader : string),
    JSON_stringify payload = Ok (JString json) ->
    authorizationHeaderAt (now st) payload = Ok authorizationHeader ->
    1 <= Constants.MAX_TRIES_BEFORE_RETRY CONSTANTS ->
    deliveryAlwaysFails ->
    exists st' delta,
      sendMessageToSQS payload st = (Ok JUndefined, st')
      /\ trace st' = (trace st ++ delta)%list
      /\ map snd (fetches delta)
         = repeat (requestOf (amzDateOf (now st)) authorizationHeader (JString json))
                  (Z.to_nat (Constants.MAX_TRIES_BEFORE_RETRY CONSTANTS))
      /\ sleeps delta
         = repeat (Constants.AWAIT_TIME_BEFORE_RETRY CONSTANTS)
                  (Z.to_nat (Constants.MAX_TRIES_BEFORE_RETRY CONSTANTS) - 1).
Proof.
  intros payload json st auth Hjson Hauth Hmax Hdown.
  rewrite sendMessageToSQS_unfold, Hauth.
  set (MAX := Constants.MAX_TRIES_BEFORE_RETRY CONSTANTS) in *.
  assert (Hfails : forall k req, attemptFails k req) by exact Hdown.
  destruct (deliveryLoop_failures MAX payload (JString json) (amzDateOf (now st)) auth Hjson
              (Z.to_nat MAX - 1) (Z.to_nat MAX) 0 st)
    as (st1 & delta & Hrun & Htr & Hreq & Hsl & Hn);
    [lia | now rewrite Z.sub_0_r | intros; apply Hfails |].
  rewrite Hrun.
  replace (Z.to_nat MAX - (Z.to_nat MAX - 1))%nat with 1%nat by lia.
  replace (0 + Z.of_nat (Z.to_nat MAX - 1)) with (MAX - 1) by lia.
  destruct (deliveryLoop_last_failure MAX payload (JString json) (amzDateOf (now st)) auth st1
              Hjson (Hfails _ _)) as (st' & line & Hlast & Htr' & _).
  rewrite Hlast.
  exists st', (delta ++ [EFetch (now st1) (requestOf (amzDateOf (now st)) auth (JString json));
                         ELog "console.error" "Error sending message to SQS" line])%list.
  split; [reflexivity|].
  split; [rewrite Htr', Htr, <- app_assoc; reflexivity|].
  rewrite fetches_app, sleeps_app, map_app, Hreq, Hsl.
  cbn [fetches sleeps flat_map map snd app]. rewrite app_nil_r.
  split; [|reflexivity].
  rewrite <- repeat_cons.
  change (?x :: repeat ?x ?n) with (repeat x (S n)). f_equal. lia.
Qed.

(** ** Further properties of configuration validation *)

(** X4. Validation returns normally exactly for a configuration with none
    of the seven failures: section present, region on the allow-list, both
    credentials and the queue URL non-empty, and the queue answering. *)
Theorem validateAwsConfig_accepts_exactly :
  forall (st : State),
    fst (validateAwsConfig st) = Ok tt <-> ~ ConfigurationFailure.
Proof.
  intros st. split.
  - intros Hok Hbad. destruct (validateAwsConfig_rejects Hbad st) as (e & He).
    rewrite He in Hok. discriminate.
  - apply validateAwsConfig_accepts.
Qed.

Lemma listed_region_is_not_empty region :
  includes VALID_AWS_REGIONS region = true -> falsy region = false.
Proof.
  intros H. unfold falsy. destruct (String.eqb region EmptyString) eqn:E; [|reflexivity].
  apply String.eqb_eq in E. subst region. discriminate.
Qed.

(** X5. The static checks come in a fixed order and each stops validation
    with its own code, as a plain object (not an [Error]), without touching
    the network: a missing section gives CONFIG_NOT_FOUND; a region that is
    empty or off the allow-list gives REGION_INVALID whatever the rest of
    the configuration; then missing or empty credentials give
    CREDENTIALS_MISSING; then an empty queue URL gives QUEUE_URL_MISSING. *)
Theorem static_checks_in_order :
  forall (st : State),
    (AwsConfig.AWS awsConfig = None ->
     exists e, validateAwsConfig st = (Throw e, st)
               /\ exnCode e = "CONFIG_NOT_FOUND" /\ isError e = false)
    /\ (forall aws,
          AwsConfig.AWS awsConfig = Some aws ->
          includes VALID_AWS_REGIONS (AwsConfig.REGION aws) = false ->
          exists e, validateAwsConfig st = (Throw e, st)
                    /\ exnCode e = "REGION_INVALID" /\ isError e = false)
    /\ (forall aws,
          AwsConfig.AWS awsConfig = Some aws ->
          includes VALID_AWS_REGIONS (AwsConfig.REGION aws) = true ->
          (AwsConfig.CREDENTIALS aws = None
           \/ exists c, AwsConfig.CREDENTIALS aws = Some c
                        /\ (AwsConfig.ACCESS_KEY_ID c = EmptyString
                            \/ AwsConfig.SECRET_ACCESS_KEY c = EmptyString)) ->
          exists e, validateAwsConfig st = (Throw e, st)
                    /\ exnCode e = "CREDENTIALS_MISSING" /\ isError e = false)
    /\ (forall aws c,
          AwsConfig.AWS awsConfig = Some aws ->
          includes VALID_AWS_REGIONS (AwsConfig.REGION aws) = true ->
          AwsConfig.CREDENTIALS aws = Some c ->
          AwsConfig.ACCESS_KEY_ID c <> EmptyString ->
          AwsConfig.SECRET_ACCESS_KEY c <> EmptyString ->
          AwsConfig.SQS_QUEUE_URL aws = EmptyString ->
          exists e, validateAwsConfig st = (Throw e, st)
                    /\ exnCode e = "QUEUE_URL_MISSING" /\ isError e = false).
Proof.
  intros st. unfold validateAwsConfig. split; [|split; [|split]].
  - intros H. rewrite H. eexists. repeat split.
  - intros aws H Hregion. rewrite H.
    destruct (falsy (AwsConfig.REGION aws)); [eexists; repeat split|].
    rewrite Hregion. eexists. repeat split.
  - intros aws H Hregion Hcred. rewrite H, (listed_region_is_not_empty _ Hregion), Hregion.
    cbn [negb].
    destruct Hcred as [Hc|(c & Hc & Hempty)]; rewrite Hc; [eexists; repeat split|].
    destruct Hempty as [E|E]; rewrite E; cbn [falsy String.eqb orb].
    + eexists; repeat split.
    + rewrite Bool.orb_true_r. eexists; repeat split.
  - intros aws c H Hregion Hc Hkey Hsecret Hurl.
    rewrite H, (listed_region_is_not_empty _ Hregion), Hregion, Hc. cbn [negb].
    apply String.eqb_neq in Hkey, Hsecret. unfold falsy at 1 2. rewrite Hkey, Hsecret.
    cbn [orb]. rewrite Hurl. eexists; repeat split.
Qed.

(** X6. With the static checks passed, the queue is probed exactly once, at
    the configured URL.  If the probe fails, validation throws a plain
    object carrying the code of the probe's error, or AWS_SERVICE_ERROR
    when that error has no code, and its message; if it succeeds,
    validation returns. *)
Theorem queue_probe_outcome :
  forall (st : State) (aws : AwsConfig.Section_) (c : AwsConfig.Credentials),
    AwsConfig.AWS awsConfig = Some aws ->
    includes VALID_AWS_REGIONS (AwsConfig.REGION aws) = true ->
    AwsConfig.CREDENTIALS aws = Some c ->
    AwsConfig.ACCESS_KEY_ID c <> EmptyString ->
    AwsConfig.SECRET_ACCESS_KEY c <> EmptyString ->
    AwsConfig.SQS_QUEUE_URL aws <> EmptyString ->
    validateAwsConfig st
    = (match getQueueAttributes world with
       | None => Ok tt
       | Some error =>
           Throw {| isError := false;
                    exnName := EmptyString;
                    exnCode := if String.eqb (exnCode error) EmptyString
                               then "AWS_SERVICE_ERROR" else exnCode error;
                    exnMessage := exnMessage error |}
       end,
       emit (EProbe (AwsConfig.SQS_QUEUE_URL aws)) st).
Proof.
  intros st aws c H Hregion Hc Hkey Hsecret Hurl. unfold validateAwsConfig.
  rewrite H, (listed_region_is_not_empty _ Hregion), Hregion, Hc. cbn [negb].
  apply String.eqb_neq in Hkey, Hsecret, Hurl. unfold falsy at 1 2 3.
  rewrite Hkey, Hsecret, Hurl. cbn [orb].
  unfold tryCatch, probeQueue. destruct (getQueueAttributes world); reflexivity.
Qed.

(** ** Further properties of the message service *)

(** The exception that the walk of [JSON.stringify] raises on a value, if
    any: that of the first BigInt or impassable part, in the order of the
    walk. *)
Fixpoint serializationError (v : value) : option Exn :=
  match v with
  | JBigInt _ => Some bigIntError
  | JThrows e => Some e
  | JArray items =>
      (fix first (l : list value) : option Exn :=
         match l with
         | [] => None
         | x :: l' =>
             match serializationError x with
             | Some e => Some e
             | None => first l'
             end
         end) items
  | JObject fields =>
      (fix first (l : list (string * value)) : option Exn :=
         match l with
         | [] => None
         | (_, x) :: l' =>
             match serializationError x with
             | Some e => Some e
             | None => first l'
             end
         end) fields
  | _ => None
  end.

Section ValueInduction.

Variable P : value -> Prop.
Hypothesis P_undefined : P JUndefined.
Hypothesis P_null : P JNull.
Hypothesis P_bool : forall b, P (JBool b).
Hypothesis P_number : forall n, P (JNumber n).
Hypothesis P_bigint : forall z, P (JBigInt z).
Hypothesis P_string : forall s, P (JString s).
Hypothesis P_array : forall items, Forall P items -> P (JArray items).
Hypothesis P_object : forall fields, Forall (fun kv => P (snd kv)) fields -> P (JObject fields).
Hypothesis P_throws : forall e, P (JThrows e).

Fixpoint value_induction (v : value) : P v :=
  match v with
  | JUndefined => P_undefined
  | JNull => P_null
  | JBool b => P_bool b
  | JNumber n => P_number n
  | JBigInt z => P_bigint z
  | JString s => P_string s
  | JArray items =>
      P_array items
        ((fix all (l : list value) : Forall P l :=
            match l with
            | [] => Forall_nil P
            | x :: l' => Forall_cons x (value_induction x) (all l')
            end) items)
  | JObject fields =>
      P_object fields
        ((fix all (l : list (string * value)) : Forall (fun kv => P (snd kv)) l :=
            match l with
            | [] => Forall_nil _
            | (k, x) :: l' =>
                Forall_cons (k, x) (value_induction x : P (snd (k, x))) (all l')
            end) fields)
  | JThrows e => P_throws e
  end.

End ValueInduction.

(** [serialize] fails exactly on the values [serializationError] names,
    and with that exception. *)
Lemma serialize_error v :
  serializationError v = match serialize v with SerFail e => Some e | _ => None end.
Proof.
  induction v as [ | | b | n | z | s | items IH | fields IH | e] using value_induction;
    try reflexivity.
  - destruct n; reflexivity.
  - cbn [serialize serializationError].
    match goal with
    | |- ?first items = match (match ?elements items with Ok _ => _ | Throw _ => _ end) with
                        | SerFail _ => _ | _ => _ end =>
        assert (Hm : first items
                     = match elements items with Ok _ => None | Throw e => Some e end)
    end.
    { induction IH as [|x l Hx _ IHl]; [reflexivity|].
      rewrite Hx. destruct (serialize x); [| |reflexivity];
        rewrite IHl;
        match goal with |- context [match ?t with Ok _ => _ | Throw _ => _ end] =>
          destruct t end; reflexivity. }
    rewrite Hm.
    match goal with |- context [match ?t with Ok _ => _ | Throw _ => _ end] =>
      destruct t end; reflexivity.
  - cbn [serialize serializationError].
    match goal with
    | |- ?first fields = match (match ?members fields with Ok _ => _ | Throw _ => _ end) with
                         | SerFail _ => _ | _ => _ end =>
        assert (Hm : first fields
                     = match members fields with Ok _ => None | Throw e => Some e end)
    end.
    { induction IH as [|[k x] l Hx _ IHl]; [reflexivity|].
      cbn [snd] in Hx. rewrite Hx. destruct (serialize x); [| |reflexivity];
        rewrite IHl; [|reflexivity];
        match goal with |- context [match ?t with Ok _ => _ | Throw _ => _ end] =>
          destruct t end; reflexivity. }
    rewrite Hm.
    match goal with |- context [match ?t with Ok _ => _ | Throw _ => _ end] =>
      destruct t end; reflexivity.
Qed.

(** The message has a JSON text exactly when its data can be walked. *)
Lemma message_text_iff ty data tx ti li bn :
  (serializationError data = None ->
   exists text, JSON_stringify (messageObject ty data tx ti li bn) = Ok (JString text))
  /\ (forall e, serializationError data = Some e ->
                JSON_stringify (messageObject ty data tx ti li bn) = Throw e).
Proof.
  rewrite (serialize_error data).
  unfold JSON_stringify, messageObject. cbn [serialize JInt JsNumber.ofZ].
  destruct (serialize data) eqn:E; split.
  - intros _. eexists. reflexivity.
  - intros e He. discriminate.
  - intros _. eexists. reflexivity.
  - intros e He. discriminate.
  - intros He. discriminate.
  - intros e' He. inversion He. reflexivity.
Qed.

(** X7. [sendMessage] returns normally, whatever the delivery client and the
    configuration do, whenever [JSON.stringify] can walk the data object;
    when it cannot (a BigInt, an object that contains itself, a [toJSON] or
    a getter that throws), the exception of the walk reaches the caller and
    the call leaves no trace: nothing is logged and nothing is sent. *)
Theorem sendMessage_throws_exactly_what_the_walk_throws :
  forall (messageEventType : string) (objectData : value) (transactionHash : string)
         (transactionIndex logIndex blockNumber : Z) (st : State),
    (serializationError objectData = None ->
     exists st',
       sendMessage messageEventType objectData transactionHash transactionIndex
                   logIndex blockNumber st = (Ok tt, st'))
    /\ (forall e,
          serializationError objectData = Some e ->
          sendMessage messageEventType objectData transactionHash transactionIndex
                      logIndex blockNumber st
          = (Throw e, st)).
Proof.
  intros ty data tx ti li bn st.
  destruct (message_text_iff ty data tx ti li bn) as [Hplain Hfail]. split.
  - intros Hb. destruct (Hplain Hb) as (text & Htext).
    destruct (sendMessage_returns ty data tx ti li bn _ st Htext) as (st' & delta & Hrun & _).
    now exists st'.
  - intros e He. apply sendMessage_throws. exact (Hfail e He).
Qed.




(** ** Further properties of event processing *)




(** ** Further properties of the scan loop *)

(** The effects of processing the events of a window. *)
Definition insideWindow (e : Effect) : Prop :=
  match e with
  | EGetBlockNumber | EQueryFilter _ _ _ | EProbe _ => False
  | _ => True
  end.

Lemma deliveryEffect_insideWindow payload amzDate authorizationHeader e :
  deliveryEffect payload amzDate authorizationHeader e -> insideWindow e.
Proof. destruct e; simpl; tauto. Qed.

Ltac keeps_insideWindow :=
  repeat first
    [ apply keeps_ret | apply keeps_throw | apply keeps_lift | apply keeps_newDate
    | apply keeps_readQueueUrl
    | apply keeps_sendMessageToSQS; intros ? ? ?; apply deliveryEffect_insideWindow
    | apply keeps_log; exact I
    | apply keeps_sleep; exact I
    | apply keeps_getBlock; exact I
    | apply keeps_bind; [|intros ?]
    | apply keeps_tryCatch; [|intros ?]
    | match goal with |- keeps _ (if ?b then _ else _) => destruct b end ].

Lemma keeps_forEachEvent_insideWindow events :
  forall context, keeps insideWindow (forEachEvent events context).
Proof.
  induction events as [|event rest IH]; intros context; cbn [forEachEvent].
  - apply keeps_ret.
  - apply keeps_bind; [|intros c; apply IH].
    unfold attemptEvent, processEvent, sendMessage, Logger_error. keeps_insideWindow.
Qed.

Lemma queries_none l : Forall insideWindow l -> queries l = [].
Proof.
  induction 1 as [|e l He _ IH]; [reflexivity|].
  unfold queries in *. destruct e; cbn in *; try exact IH; contradiction.
Qed.

(** Every turn of the loop asks the node exactly once, for its window. *)
Lemma iteration_queries currentBlock fromBlock st :
  exists delta,
    trace (snd (iteration currentBlock fromBlock st)) = (trace st ++ delta)%list
    /\ queries delta
       = [(fromBlock,
           Z.min (fromBlock + Constants.SCAN_WITH_SPACE_BLOCK CONSTANTS) currentBlock)].
Proof.
  unfold iteration, tryCatch.
  unfold bind at 1. unfold Logger_progress at 1. unfold log at 1.
  unfold bind at 1. unfold contract_queryFilter at 1.
  cbn [ProcessingContext.fromBlock ProcessingContext.toBlock].
  traces.
  destruct (queryFilter world (nQuery st) "TokenMigrated" fromBlock
              (Z.min (fromBlock + Constants.SCAN_WITH_SPACE_BLOCK CONSTANTS) currentBlock))
    as [events|e].
  - match goal with
    | |- context [let (_, _) := ?rest ?s in _] =>
        assert (K : keeps insideWindow rest);
        [|specialize (K s); destruct (rest s) as [[res|e] st3]]
    end.
    { unfold Logger_info.
      apply keeps_bind; [keeps_insideWindow|]. intros _.
      apply keeps_bind; [apply keeps_forEachEvent_insideWindow|]. intros c.
      keeps_insideWindow. }
    + destruct K as (d & E & F). cbn [snd] in *.
      eexists ([_; _] ++ d)%list. split.
      * rewrite E. traces. rewrite <- !app_assoc. reflexivity.
      * rewrite queries_app, (queries_none d F). reflexivity.
    + destruct K as (d & E & F). cbn [snd] in E.
      cbn [bind Logger_error log sleep ret snd].
      eexists ([_; _] ++ d ++ [_; _])%list. split.
      * traces. rewrite E. traces. rewrite <- !app_assoc. reflexivity.
      * rewrite !queries_app, (queries_none d F). reflexivity.
  - cbn [bind Logger_error log sleep ret snd].
    eexists [_; _; _; _]. split.
    + traces. rewrite <- !app_assoc. reflexivity.
    + reflexivity.
Qed.

(** ** A window that fails *)

(** The state after [n] turns of the loop on the window that starts at
    [fromBlock]. *)
Fixpoint afterTurns (n : nat) (currentBlock fromBlock : Z) (st : State) : State :=
  match n with
  | O => st
  | S n' => snd (iteration currentBlock fromBlock (afterTurns n' currentBlock fromBlock st))
  end.

Lemma afterTurns_shift n currentBlock fromBlock st :
  afterTurns (S n) currentBlock fromBlock st
  = afterTurns n currentBlock fromBlock (snd (iteration currentBlock fromBlock st)).
Proof.
  induction n as [|n IH]; [reflexivity|].
  change (afterTurns (S (S n)) currentBlock fromBlock st)
    with (snd (iteration currentBlock fromBlock (afterTurns (S n) currentBlock fromBlock st))).
  rewrite IH. reflexivity.
Qed.

(** The failing turn, line by line. *)
Lemma iteration_fails currentBlock fromBlock st e :
  queryFilter world (nQuery st) "TokenMigrated" fromBlock
    (Z.min (fromBlock + Constants.SCAN_WITH_SPACE_BLOCK CONSTANTS) currentBlock) = Throw e ->
  exists progress failure,
    iteration currentBlock fromBlock st
    = (Ok (ProcessingContext.mk fromBlock
             (Z.min (fromBlock + Constants.SCAN_WITH_SPACE_BLOCK CONSTANTS) currentBlock) 0 0 0,
           fromBlock),
       snd (iteration currentBlock fromBlock st))
    /\ trace (snd (iteration currentBlock fromBlock st))
       = (trace st
          ++ [ ELog "progress" progress JUndefined;
               EQueryFilter "TokenMigrated" fromBlock
                 (Z.min (fromBlock + Constants.SCAN_WITH_SPACE_BLOCK CONSTANTS) currentBlock);
               ELog "error" "Block Range Processing Failed" failure;
               ESleep (Constants.RETRY_DELAY CONSTANTS * 2) ])%list
    /\ nQuery (snd (iteration currentBlock fromBlock st)) = S (nQuery st).
Proof.
  intros Hq.
  assert (Hturn : exists progress failure st',
            iteration currentBlock fromBlock st
            = (Ok (ProcessingContext.mk fromBlock
                     (Z.min (fromBlock + Constants.SCAN_WITH_SPACE_BLOCK CONSTANTS)
                            currentBlock) 0 0 0,
                   fromBlock), st')
            /\ trace st'
               = (trace st
                  ++ [ ELog "progress" progress JUndefined;
                       EQueryFilter "TokenMigrated" fromBlock
                         (Z.min (fromBlock + Constants.SCAN_WITH_SPACE_BLOCK CONSTANTS)
                                currentBlock);
                       ELog "error" "Block Range Processing Failed" failure;
                       ESleep (Constants.RETRY_DELAY CONSTANTS * 2) ])%list
            /\ nQuery st' = S (nQuery st)).
  { unfold iteration, tryCatch.
    unfold bind at 1. unfold Logger_progress at 1. unfold log at 1.
    unfold bind at 1. unfold contract_queryFilter at 1.
    cbn [ProcessingContext.fromBlock ProcessingContext.toBlock].
    traces. rewrite Hq.
    cbn [bind Logger_error log sleep ret].
    eexists _, _, _. split; [reflexivity|]. split; [|reflexivity].
    traces. rewrite <- !app_assoc. reflexivity. }
  destruct Hturn as (progress & failure & st' & Hrun & Htr & Hn).
  exists progress, failure. rewrite Hrun. cbn [snd]. repeat split; assumption.
Qed.

Lemma afterTurns_failing currentBlock fromBlock :
  fromBlock < currentBlock ->
  forall n st,
    (forall k, (k < n)%nat ->
       exists e,
         queryFilter world (nQuery st + k) "TokenMigrated" fromBlock
           (Z.min (fromBlock + Constants.SCAN_WITH_SPACE_BLOCK CONSTANTS) currentBlock)
         = Throw e) ->
    nQuery (afterTurns n currentBlock fromBlock st) = (nQuery st + n)%nat
    /\ (forall fuel,
          whileLoop (n + fuel) currentBlock fromBlock st
          = whileLoop fuel currentBlock fromBlock (afterTurns n currentBlock fromBlock st))
    /\ exists delta,
         trace (afterTurns n currentBlock fromBlock st) = (trace st ++ delta)%list
         /\ queries delta
            = repeat (fromBlock,
                      Z.min (fromBlock + Constants.SCAN_WITH_SPACE_BLOCK CONSTANTS) currentBlock) n
         /\ sleeps delta = repeat (Constants.RETRY_DELAY CONSTANTS * 2) n.
Proof.
  intros Hlt. induction n as [|n IH]; intros st Hfail.
  - split; [cbn; lia|]. split; [reflexivity|].
    exists []. cbn. now rewrite app_nil_r.
  - destruct (Hfail 0%nat) as (e & He); [lia|]. rewrite Nat.add_0_r in He.
    destruct (iteration_fails currentBlock fromBlock st e He)
      as (progress & failure & Hrun & Htr & Hn).
    rewrite afterTurns_shift.
    set (st1 := snd (iteration currentBlock fromBlock st)) in *.
    destruct (IH st1) as (Hn' & Hloop & delta & Htr' & Hqs & Hsl).
    { intros k Hk. destruct (Hfail (S k)) as (e' & He'); [lia|].
      exists e'. rewrite Hn. now replace (S (nQuery st) + k)%nat with (nQuery st + S k)%nat by lia. }
    split; [lia|]. split.
    + intros fuel. cbn [Nat.add whileLoop].
      apply Z.ltb_lt in Hlt. rewrite Hlt, Hrun. apply Hloop.
    + eexists (_ ++ delta)%list. split; [rewrite Htr', Htr, <- app_assoc; reflexivity|].
      split.
      * unfold queries in *. rewrite flat_map_app, Hqs. reflexivity.
      * unfold sleeps in *. rewrite flat_map_app, Hsl. reflexivity.
Qed.

(** C5. While the log query of a window throws, the loop stays on that
    window.  Each failing turn asks for the block range, logs "Block Range
    Processing Failed", pauses [RETRY_DELAY * 2] and hands the same
    [fromBlock] to the next turn.  After any number [n] of failing turns
    the loop is not over: it goes on from the same [fromBlock], in the state
    those turns have left, having asked for the same range [n] times; there
    is no bound on [n].  When the query then answers, the turn is for that
    same range, its pause is [RETRY_DELAY], the loop moves on to
    [toBlock + 1], and it ends there if the window reached the head. *)
Theorem failing_window_is_retried_without_bound :
  forall (currentBlock fromBlock : Z) (n : nat) (st : State),
    fromBlock < currentBlock ->
    (forall k, (k < n)%nat ->
       exists e,
         queryFilter world (nQuery st + k) "TokenMigrated" fromBlock
           (Z.min (fromBlock + Constants.SCAN_WITH_SPACE_BLOCK CONSTANTS) currentBlock)
         = Throw e) ->
    let toBlock := Z.min (fromBlock + Constants.SCAN_WITH_SPACE_BLOCK CONSTANTS) currentBlock in
    let turns k := afterTurns k currentBlock fromBlock st in
    (forall k, (k < n)%nat ->
       exists progress failure,
         iteration currentBlock fromBlock (turns k)
         = (Ok (ProcessingContext.mk fromBlock toBlock 0 0 0, fromBlock), turns (S k))
         /\ trace (turns (S k))
            = (trace (turns k)
               ++ [ ELog "progress" progress JUndefined;
                    EQueryFilter "TokenMigrated" fromBlock toBlock;
                    ELog "error" "Block Range Processing Failed" failure;
                    ESleep (Constants.RETRY_DELAY CONSTANTS * 2) ])%list)
    /\ (forall fuel,
          whileLoop (n + fuel) currentBlock fromBlock st
          = whileLoop fuel currentBlock fromBlock (turns n))
    /\ whileLoop n currentBlock fromBlock st = None
    /\ (exists delta,
          trace (turns n) = (trace st ++ delta)%list
          /\ queries delta = repeat (fromBlock, toBlock) n
          /\ sleeps delta = repeat (Constants.RETRY_DELAY CONSTANTS * 2) n)
    /\ (forall events,
          queryFilter world (nQuery st + n) "TokenMigrated" fromBlock toBlock = Ok events ->
          exists context st' delta,
            iteration currentBlock fromBlock (turns n) = (Ok (context, toBlock + 1), st')
            /\ trace st'
               = (trace (turns n) ++ delta ++ [ESleep (Constants.RETRY_DELAY CONSTANTS)])%list
            /\ queries delta = [(fromBlock, toBlock)]
            /\ (forall fuel,
                  whileLoop (n + S fuel) currentBlock fromBlock st
                  = whileLoop fuel currentBlock (toBlock + 1) st')
            /\ (currentBlock <= fromBlock + Constants.SCAN_WITH_SPACE_BLOCK CONSTANTS ->
                forall fuel,
                  whileLoop (n + S fuel) currentBlock fromBlock st = Some (Ok tt, st'))).
Proof.
  intros currentBlock fromBlock n st Hlt Hfail toBlock turns.
  subst turns. cbv beta.
  destruct (afterTurns_failing currentBlock fromBlock Hlt n st Hfail)
    as (Hn & Hloop & Hsummary).
  split; [|split; [exact Hloop|split; [|split; [exact Hsummary|]]]].
  - intros k Hk.
    destruct (afterTurns_failing currentBlock fromBlock Hlt k st) as (Hnk & _).
    { intros j Hj. apply Hfail. lia. }
    destruct (Hfail k Hk) as (e & He). rewrite <- Hnk in He.
    destruct (iteration_fails currentBlock fromBlock
                (afterTurns k currentBlock fromBlock st) e He)
      as (progress & failure & Hrun & Htr & _).
    exists progress, failure. split; [exact Hrun | exact Htr].
  - specialize (Hloop 0%nat). rewrite Nat.add_0_r in Hloop. rewrite Hloop.
    cbn [whileLoop]. apply Z.ltb_lt in Hlt. now rewrite Hlt.
  - intros events Hq. rewrite <- Hn in Hq.
    destruct (iteration_advances currentBlock fromBlock
                (afterTurns n currentBlock fromBlock st) events Hq)
      as (c & st' & delta & Hrun & _ & _ & _ & _ & _ & _ & Htr).
    destruct (iteration_queries currentBlock fromBlock
                (afterTurns n currentBlock fromBlock st)) as (d1 & Htr1 & Hq1).
    rewrite Hrun in Htr1. cbn [snd] in Htr1.
    assert (Hstep : forall fuel,
              whileLoop (n + S fuel) currentBlock fromBlock st
              = whileLoop fuel currentBlock (toBlock + 1) st').
    { intros fuel. rewrite Hloop. cbn [whileLoop].
      apply Z.ltb_lt in Hlt. now rewrite Hlt, Hrun. }
    exists c, st', delta. split; [exact Hrun|]. split; [exact Htr|]. split; [|split].
    + rewrite Htr in Htr1. apply app_inv_head in Htr1. subst d1.
      rewrite queries_app in Hq1. cbn [queries flat_map] in Hq1.
      now rewrite app_nil_r in Hq1.
    + exact Hstep.
    + intros Hlast fuel. rewrite Hstep.
      assert (Hover : (toBlock + 1 <? currentBlock) = false)
        by (apply Z.ltb_ge; unfold toBlock; lia).
      destruct fuel; cbn [whileLoop]; now rewrite Hover.
Qed.

(** Windows that follow one another without gap or overlap, from [f] up
    to (and not including) [n]. *)
Inductive Chained : Z -> list (Z * Z) -> Z -> Prop :=
| Chained_nil f : Chained f [] f
| Chained_cons f t ws n :
    f <= t -> Chained (t + 1) ws n -> Chained f ((f, t) :: ws) n.

Definition covers (b : Z) (w : Z * Z) : bool := (fst w <=? b) && (b <=? snd w).

Lemma Chained_le f ws n : Chained f ws n -> f <= n.
Proof. induction 1; lia. Qed.

Lemma Chained_covers f ws n :
  Chained f ws n ->
  forall b, List.length (filter (covers b) ws)
            = if (f <=? b) && (b <? n) then 1%nat else 0%nat.
Proof.
  induction 1 as [f|f t ws n Hle Hch IH]; intros b.
  - cbn. destruct (f <=? b) eqn:E1, (b <? f) eqn:E2; try reflexivity.
    apply Z.leb_le in E1. apply Z.ltb_lt in E2. lia.
  - cbn [filter]. unfold covers at 1. cbn [fst snd].
    pose proof (Chained_le _ _ _ Hch) as Hn. specialize (IH b).
    destruct (f <=? b) eqn:E1, (b <=? t) eqn:E2, (t + 1 <=? b) eqn:E3, (b <? n) eqn:E4;
      cbn [andb List.length] in *; rewrite ?IH;
      try reflexivity;
      try (apply Z.leb_le in E1); try (apply Z.leb_gt in E1);
      try (apply Z.leb_le in E2); try (apply Z.leb_gt in E2);
      try (apply Z.leb_le in E3); try (apply Z.leb_gt in E3);
      try (apply Z.ltb_lt in E4); try (apply Z.ltb_ge in E4); lia.
Qed.

(** The node answers every log query. *)
Definition nodeAnswers : Prop :=
  forall k name f t, exists events, queryFilter world k name f t = Ok events.

(** Where the loop stops: at the head, when the distance from the start to
    the head is a multiple of the stride of a window; one block past the
    head otherwise. *)
Definition stopBlock (currentBlock fromBlock : Z) : Z :=
  if fromBlock <? currentBlock then
    if (currentBlock - fromBlock) mod (Constants.SCAN_WITH_SPACE_BLOCK CONSTANTS + 1) =? 0
    then currentBlock else currentBlock + 1
  else fromBlock.

Lemma whileLoop_windows :
  nodeAnswers ->
  0 <= Constants.SCAN_WITH_SPACE_BLOCK CONSTANTS ->
  forall fuel currentBlock fromBlock st,
    currentBlock - fromBlock <= Z.of_nat fuel ->
    exists st' delta,
      whileLoop fuel currentBlock fromBlock st = Some (Ok tt, st')
      /\ trace st' = (trace st ++ delta)%list
      /\ Chained fromBlock (queries delta) (stopBlock currentBlock fromBlock)
      /\ Forall (fun w => snd w <= currentBlock) (queries delta).
Proof.
  intros Hnode Hscan. induction fuel as [|fuel IH]; intros currentBlock fromBlock st Hfuel;
    cbn [whileLoop]; unfold stopBlock;
    destruct (fromBlock <? currentBlock) eqn:Hlt.
  - apply Z.ltb_lt in Hlt. lia.
  - exists st, []. rewrite app_nil_r. repeat split; constructor.
  - apply Z.ltb_lt in Hlt.
    set (W := Constants.SCAN_WITH_SPACE_BLOCK CONSTANTS) in *.
    destruct (Hnode (nQuery st) "TokenMigrated" fromBlock (Z.min (fromBlock + W) currentBlock))
      as (events & Hq).
    destruct (iteration_advances currentBlock fromBlock st events Hq)
      as (c & st1 & d0 & Hrun & _).
    destruct (iteration_queries currentBlock fromBlock st) as (d1 & Htr1 & Hq1).
    rewrite Hrun in *. cbn [snd] in Htr1. fold W in Hq1.
    destruct (IH currentBlock (Z.min (fromBlock + W) currentBlock + 1) st1)
      as (st' & d2 & Hloop & Htr2 & Hch & Hall); [lia|].
    exists st', (d1 ++ d2)%list. split; [exact Hloop|].
    split; [rewrite Htr2, Htr1, app_assoc; reflexivity|].
    rewrite queries_app, Hq1. cbn [app]. split.
    + apply Chained_cons; [lia|].
      replace (if (currentBlock - fromBlock) mod (W + 1) =? 0
               then currentBlock else currentBlock + 1)
        with (stopBlock currentBlock (Z.min (fromBlock + W) currentBlock + 1)); [exact Hch|].
      unfold stopBlock. fold W.
      destruct (Z.min (fromBlock + W) currentBlock + 1 <? currentBlock) eqn:Hnext.
      * apply Z.ltb_lt in Hnext.
        replace (currentBlock - (Z.min (fromBlock + W) currentBlock + 1))
          with (currentBlock - fromBlock + (-1) * (W + 1)) by lia.
        now rewrite Z.mod_add by lia.
      * apply Z.ltb_ge in Hnext.
        destruct (Z.le_gt_cases currentBlock (fromBlock + W)) as [Hbig|Hsmall].
        -- rewrite Z.min_r by lia.
           rewrite Z.mod_small by lia.
           destruct (currentBlock - fromBlock =? 0) eqn:E; [apply Z.eqb_eq in E; lia|reflexivity].
        -- rewrite Z.min_l in * by lia.
           replace (currentBlock - fromBlock) with (1 * (W + 1)) by lia.
           rewrite Z.mod_mul by lia. cbn. lia.
    + constructor; [cbn; lia | exact Hall].
  - exists st, []. rewrite app_nil_r. repeat split; constructor.
Qed.

Lemma validateAwsConfig_frame st :
  nHead (snd (validateAwsConfig st)) = nHead st
  /\ exists delta,
       trace (snd (validateAwsConfig st)) = (trace st ++ delta)%list
       /\ queries delta = [].
Proof.
  assert (Hnone : nHead st = nHead st
                  /\ exists delta, trace st = (trace st ++ delta)%list /\ queries delta = [])
    by (split; [reflexivity | exists []; split; [now rewrite app_nil_r | reflexivity]]).
  unfold validateAwsConfig.
  destruct (AwsConfig.AWS awsConfig) as [aws|]; [|exact Hnone].
  destruct (falsy (AwsConfig.REGION aws)); [exact Hnone|].
  destruct (negb (includes VALID_AWS_REGIONS (AwsConfig.REGION aws))); [exact Hnone|].
  destruct (AwsConfig.CREDENTIALS aws) as [c|]; [|exact Hnone].
  destruct (falsy (AwsConfig.ACCESS_KEY_ID c) || falsy (AwsConfig.SECRET_ACCESS_KEY c));
    [exact Hnone|].
  destruct (falsy (AwsConfig.SQS_QUEUE_URL aws)); [exact Hnone|].
  unfold tryCatch, probeQueue.
  destruct (getQueueAttributes world);
    (split; [reflexivity | exists [EProbe (AwsConfig.SQS_QUEUE_URL aws)]; split; reflexivity]).
Qed.

Lemma scan_covers_each_block_once_aux :
  forall (fuel : nat) (st : State) (head : Z),
    ~ ConfigurationFailure ->
    nodeAnswers ->
    getBlockNumber world (nHead st) = Ok head ->
    0 <= Constants.SCAN_WITH_SPACE_BLOCK CONSTANTS ->
    head - Constants.START_BLOCK CONSTANTS <= Z.of_nat fuel ->
    exists st' delta,
      scanTokenMigratedEvents fuel st = Some (Ok tt, st')
      /\ trace st' = (trace st ++ delta)%list
      /\ Chained (Constants.START_BLOCK CONSTANTS) (queries delta)
                 (stopBlock head (Constants.START_BLOCK CONSTANTS))
      /\ Forall (fun w => snd w <= head) (queries delta).
Proof.
  intros fuel st head Hgood Hnode Hhead Hscan Hfuel.
  unfold scanTokenMigratedEvents. cbn [Logger_info log].
  match goal with
  | |- context [validateAwsConfig ?s] =>
      pose proof (validateAwsConfig_accepts s Hgood) as Hok;
      destruct (validateAwsConfig_frame s) as (Hn & dv & Htrv & Hqv);
      destruct (validateAwsConfig s) as [r st1]
  end.
  cbn [fst snd] in *. subst r.
  unfold scanBody, provider_getBlockNumber. cbn [nHead emit] in Hn. rewrite Hn, Hhead.
  cbn [Logger_info log].
  match goal with
  | |- context [whileLoop fuel head ?f ?s] =>
      destruct (whileLoop_windows Hnode Hscan fuel head f s Hfuel)
        as (st2 & dl & Hloop & Htrl & Hch & Hall)
  end.
  rewrite Hloop. cbn [Logger_success log].
  eexists _, ([_] ++ dv ++ [_; _] ++ dl ++ [_])%list. split; [reflexivity|].
  split; [traces; rewrite Htrl; traces; rewrite Htrv; traces;
          rewrite <- !app_assoc; reflexivity|].
  rewrite !queries_app, Hqv. cbn [queries flat_map app]. rewrite app_nil_r.
  split; assumption.
Qed.

(** With the modules loaded, a usable configuration and a node that
    answers, the scan ends and its windows cover each block once. *)
Lemma scan_windows_loaded :
  forall (fuel : nat) (st : State) (head : Z),
    ~ ConfigurationFailure ->
    nodeAnswers ->
    getBlockNumber world (nHead st) = Ok head ->
    0 <= Constants.SCAN_WITH_SPACE_BLOCK CONSTANTS ->
    head - Constants.START_BLOCK CONSTANTS <= Z.of_nat fuel ->
    exists st' delta,
      scanTokenMigratedEvents fuel st = Some (Ok tt, st')
      /\ entryPoint fuel st = Some (0, st')
      /\ trace st' = (trace st ++ delta)%list
      /\ Chained (Constants.START_BLOCK CONSTANTS) (queries delta)
                 (stopBlock head (Constants.START_BLOCK CONSTANTS))
      /\ Forall (fun w => snd w <= head) (queries delta)
      /\ (forall b,
            List.length (filter (covers b) (queries delta))
            = if (Constants.START_BLOCK CONSTANTS <=? b)
                 && (b <? stopBlock head (Constants.START_BLOCK CONSTANTS))
              then 1%nat else 0%nat)
      /\ (head <= Constants.START_BLOCK CONSTANTS -> queries delta = []).
Proof.
  intros fuel st head Hgood Hnode Hhead Hscan Hfuel.
  destruct (scan_covers_each_block_once_aux fuel st head Hgood Hnode Hhead Hscan Hfuel)
    as (st' & delta & Hrun & Htr & Hch & Hall).
  exists st', delta. split; [exact Hrun|]. split; [unfold entryPoint; now rewrite Hrun|].
  split; [exact Htr|]. split; [exact Hch|]. split; [exact Hall|].
  split; [apply Chained_covers; exact Hch|].
  intros Hempty. unfold stopBlock in Hch.
  assert (Hge : (Constants.START_BLOCK CONSTANTS <? head) = false) by (apply Z.ltb_ge; lia).
  rewrite Hge in Hch. inversion Hch as [|f t ws n Hle Hrest]; [reflexivity|].
  subst. apply Chained_le in Hrest. lia.
Qed.

(** X11. The block at the chain head is left out when the distance from
    [START_BLOCK] to the head is a positive multiple of the window stride
    [SCAN_WITH_SPACE_BLOCK + 1]: the loop condition [fromBlock <
    currentBlock] ends the loop with [fromBlock] equal to the head, and no
    window of the finished scan contains the head.  In every other case
    with the head above [START_BLOCK], the last window ends at the head. *)
Theorem head_block_is_scanned_unless_stride_divides :
  forall (fuel : nat) (st : State) (head : Z),
    ~ ConfigurationFailure ->
    nodeAnswers ->
    getBlockNumber world (nHead st) = Ok head ->
    0 <= Constants.SCAN_WITH_SPACE_BLOCK CONSTANTS ->
    Constants.START_BLOCK CONSTANTS < head ->
    head - Constants.START_BLOCK CONSTANTS <= Z.of_nat fuel ->
    exists st' delta,
      scanTokenMigratedEvents fuel st = Some (Ok tt, st')
      /\ trace st' = (trace st ++ delta)%list
      /\ (List.length (filter (covers head) (queries delta)) = 0%nat
          <-> (head - Constants.START_BLOCK CONSTANTS)
                mod (Constants.SCAN_WITH_SPACE_BLOCK CONSTANTS + 1) = 0)
      /\ (List.length (filter (covers head) (queries delta)) = 1%nat
          <-> (head - Constants.START_BLOCK CONSTANTS)
                mod (Constants.SCAN_WITH_SPACE_BLOCK CONSTANTS + 1) <> 0).
Proof.
  intros fuel st head Hgood Hnode Hhead Hscan Habove Hfuel.
  destruct (scan_covers_each_block_once_aux fuel st head Hgood Hnode Hhead Hscan Hfuel)
    as (st' & delta & Hrun & Htr & Hch & _).
  exists st', delta. split; [exact Hrun|]. split; [exact Htr|].
  rewrite (Chained_covers _ _ _ Hch head). unfold stopBlock.
  apply Z.ltb_lt in Habove. rewrite Habove. apply Z.ltb_lt in Habove.
  assert (Hle : (Constants.START_BLOCK CONSTANTS <=? head) = true) by (apply Z.leb_le; lia).
  rewrite Hle. cbn [andb].
  destruct ((head - Constants.START_BLOCK CONSTANTS)
              mod (Constants.SCAN_WITH_SPACE_BLOCK CONSTANTS + 1) =? 0) eqn:E.
  - apply Z.eqb_eq in E. rewrite Z.ltb_irrefl. split; split; intros H; congruence.
  - apply Z.eqb_neq in E.
    assert (Hin : (head <? head + 1) = true) by (apply Z.ltb_lt; lia).
    rewrite Hin. split; split; intros H; congruence.
Qed.

(** The loop itself never lets an exception out. *)
Lemma whileLoop_never_throws fuel currentBlock :
  forall fromBlock st r st',
    whileLoop fuel currentBlock fromBlock st = Some (r, st') -> r = Ok tt.
Proof.
  induction fuel as [|fuel IH]; intros fromBlock st r st'; cbn [whileLoop];
    destruct (fromBlock <? currentBlock); try discriminate;
    try (intros H; inversion H; reflexivity).
  destruct (iteration_total currentBlock fromBlock st) as (c & next & st1 & Hrun & _).
  rewrite Hrun. apply IH.
Qed.

(** With the modules loaded, the entry point ends with status one exactly
    when the configuration is usable and the request for the chain head
    throws. *)
Lemma entryPoint_status_one :
  forall (fuel : nat) (st : State),
    ((exists st', entryPoint fuel st = Some (1, st'))
     <-> (~ ConfigurationFailure /\ exists e, getBlockNumber world (nHead st) = Throw e))
    /\ (forall st' , entryPoint fuel st = Some (1, st') ->
        exists delta scannerFailed fatalError,
          trace st'
          = (trace st ++ delta
             ++ [ EGetBlockNumber;
                  ELog "error" "Scanner Failed" scannerFailed;
                  ELog "error" "Fatal Error" fatalError ])%list
          /\ queries delta = []).
Proof.
  intros fuel st.
  assert (Hshape :
    forall st', entryPoint fuel st = Some (1, st') ->
      ~ ConfigurationFailure
      /\ (exists e, getBlockNumber world (nHead st) = Throw e)
      /\ exists delta scannerFailed fatalError,
           trace st'
           = (trace st ++ delta
              ++ [ EGetBlockNumber;
                   ELog "error" "Scanner Failed" scannerFailed;
                   ELog "error" "Fatal Error" fatalError ])%list
           /\ queries delta = []).
  { intros st'. unfold entryPoint, scanTokenMigratedEvents. cbn [Logger_info log].
    match goal with
    | |- context [validateAwsConfig ?s] =>
        pose proof (validateAwsConfig_rejects) as Hrej;
        specialize (fun H => Hrej H s);
        destruct (validateAwsConfig_frame s) as (Hn & dv & Htrv & Hqv);
        destruct (validateAwsConfig s) as [[[]|error] st1]
    end; cbn [fst snd log] in *; [|discriminate].
    assert (Hgood : ~ ConfigurationFailure)
      by (intros Hbad; destruct (Hrej Hbad) as (e & He); discriminate).
    unfold scanBody, provider_getBlockNumber. cbn [nHead emit] in Hn. rewrite Hn.
    destruct (getBlockNumber world (nHead st)) as [head|e].
    - cbn [Logger_info log].
      match goal with
      | |- context [whileLoop fuel head ?f ?s] =>
          pose proof (whileLoop_never_throws fuel head f s) as Hnever;
          destruct (whileLoop fuel head f s) as [[r st2]|]; [|discriminate]
      end.
      rewrite (Hnever r st2 eq_refl). cbn [Logger_success log]. discriminate.
    - cbn [Logger_error log]. intros H. inversion H; subst.
      split; [exact Hgood|]. split; [now exists e|].
      eexists ([_] ++ dv)%list, _, _.
      split; [traces; rewrite Htrv; traces; rewrite <- !app_assoc; reflexivity|].
      rewrite queries_app, Hqv. reflexivity. }
  split; [split|].
  - intros (st' & Hmain). destruct (Hshape st' Hmain) as (Hgood & Hhead & _). now split.
  - intros (Hgood & e & Hhead).
    unfold entryPoint, scanTokenMigratedEvents. cbn [Logger_info log].
    match goal with
    | |- context [validateAwsConfig ?s] =>
        pose proof (validateAwsConfig_accepts s Hgood) as Hok;
        destruct (validateAwsConfig_frame s) as (Hn & _);
        destruct (validateAwsConfig s) as [r st1]
    end.
    cbn [fst snd] in *. subst r.
    unfold scanBody, provider_getBlockNumber. cbn [nHead emit] in Hn. rewrite Hn, Hhead.
    cbn [Logger_error log]. eexists. reflexivity.
  - intros st' Hmain. destruct (Hshape st' Hmain) as (_ & _ & Htrace). exact Htrace.
Qed.

(** ** Further properties of the statistics *)

Lemma roundDouble_ratio_one (p : positive) :
  JsNumber.roundDouble (Zpos p # p) = JsNumber.Num 1.
Proof.
  unfold JsNumber.roundDouble. cbn [Qnum Qden Z.eqb Z.abs Z.sgn Z.ltb Z.compare].
  assert (Hlog : JsNumber.ilog2 (Zpos p) (Zpos p) = 0).
  { unfold JsNumber.ilog2. rewrite Z.sub_diag. unfold JsNumber.gePow.
    cbn [Z.leb Z.compare Z.pow]. rewrite Z.mul_1_r, Z.leb_refl. reflexivity. }
  rewrite Hlog.
  change (Z.max (0 - 52) (-1074)) with (-52).
  change (0 <=? -52) with false. cbv iota. cbn [andb].
  change (- -52) with 52.
  assert (Hm : JsNumber.roundHalfEven (Zpos p * 2 ^ 52) (Zpos p) = 2 ^ 52).
  { unfold JsNumber.roundHalfEven.
    rewrite (Z.mul_comm (Zpos p)), Z.div_mul, Z.mod_mul by discriminate.
    change (2 * 0) with 0.
    replace (Zpos p <? 0) with false by (symmetry; apply Z.ltb_ge; lia).
    replace (Zpos p =? 0) with false by (symmetry; apply Z.eqb_neq; discriminate).
    reflexivity. }
  rewrite Hm. vm_compute. reflexivity.
Qed.

Lemma rate_full n : 0 < n -> rate n n = "100.00".
Proof.
  intros Hn. unfold rate.
  replace (n =? 0) with false by (symmetry; apply Z.eqb_neq; lia).
  destruct n as [|p|p]; try lia.
  unfold JsNumber.div, JsNumber.ofZ at 1 2.
  cbn [inject_Z Qnum Z.eqb Qdiv Qinv Qmult Qden].
  replace (inject_Z (Z.pos p) / inject_Z (Z.pos p))%Q with (Z.pos p # p)
    by (unfold Qdiv, Qmult, Qinv, inject_Z; cbn [Qnum Qden]; now rewrite Z.mul_1_r).
  rewrite roundDouble_ratio_one. vm_compute. reflexivity.
Qed.

Lemma rate_none n : n <> 0 -> rate 0 n = "0.00".
Proof.
  intros Hn. unfold rate.
  replace (n =? 0) with false by (symmetry; apply Z.eqb_neq; lia).
  unfold JsNumber.div, JsNumber.ofZ at 1 2. cbn [inject_Z Qnum].
  replace (n =? 0) with false by (symmetry; apply Z.eqb_neq; lia).
  assert (H0 : JsNumber.roundDouble (inject_Z 0 / inject_Z n)%Q = JsNumber.Num 0).
  { unfold JsNumber.roundDouble.
    replace (Qnum (inject_Z 0 / inject_Z n)%Q) with 0; [reflexivity|].
    unfold Qdiv, Qmult. cbn [Qnum]. reflexivity. }
  rewrite H0. vm_compute. reflexivity.
Qed.

(** X13. The statistics of a window copy its three counters; for a window
    without events both rates read "0.00%" (no division is made); for a
    window whose events were all processed the rates read "100.00%" and
    "0.00%", and the other way round when all failed, whatever the number
    of events: the rounding of the quotient and of its product with 100 is
    exact there. *)
Theorem processing_stats_at_the_ends :
  forall (context : ProcessingContext.t),
    ProcessingStats.totalEvents (calculateProcessingStats context)
    = ProcessingContext.eventCount context
    /\ ProcessingStats.successfulEvents (calculateProcessingStats context)
       = ProcessingContext.processedCount context
    /\ ProcessingStats.failedEvents (calculateProcessingStats context)
       = ProcessingContext.failedCount context
    /\ (ProcessingContext.eventCount context = 0 ->
        ProcessingStats.successRate (calculateProcessingStats context) = "0.00%"
        /\ ProcessingStats.failureRate (calculateProcessingStats context) = "0.00%")
    /\ (0 < ProcessingContext.eventCount context ->
        ProcessingContext.processedCount context = ProcessingContext.eventCount context ->
        ProcessingContext.failedCount context = 0 ->
        ProcessingStats.successRate (calculateProcessingStats context) = "100.00%"
        /\ ProcessingStats.failureRate (calculateProcessingStats context) = "0.00%")
    /\ (0 < ProcessingContext.eventCount context ->
        ProcessingContext.processedCount context = 0 ->
        ProcessingContext.failedCount context = ProcessingContext.eventCount context ->
        ProcessingStats.successRate (calculateProcessingStats context) = "0.00%"
        /\ ProcessingStats.failureRate (calculateProcessingStats context) = "100.00%").
Proof.
  intros [fb tb n p f].
  cbn [calculateProcessingStats ProcessingStats.totalEvents ProcessingStats.successfulEvents
       ProcessingStats.failedEvents ProcessingStats.successRate ProcessingStats.failureRate
       ProcessingContext.eventCount ProcessingContext.processedCount
       ProcessingContext.failedCount].
  split; [reflexivity|]. split; [reflexivity|]. split; [reflexivity|].
  split; [|split].
  - intros ->. split; reflexivity.
  - intros Hn -> ->. rewrite (rate_full n Hn), (rate_none n) by lia. split; reflexivity.
  - intros Hn -> ->. rewrite (rate_full n Hn), (rate_none n) by lia. split; reflexivity.
Qed.

(** ** A bound on the traffic of one delivery *)

Lemma deliveryLoop_bounded MAX payload amzDate authorizationHeader :
  forall fuel idx st,
    fuel = Z.to_nat (MAX - idx) ->
    exists delta,
      trace (snd (deliveryLoop fuel MAX idx payload amzDate authorizationHeader st))
      = (trace st ++ delta)%list
      /\ (List.length (fetches delta) <= fuel)%nat
      /\ (List.length (sleeps delta) <= fuel - 1)%nat
      /\ (List.length (fetches delta) - 1 <= List.length (sleeps delta))%nat.
Proof.
  induction fuel as [|fuel IH]; intros idx st Hfuel; cbn [deliveryLoop].
  - exists []. cbn. rewrite app_nil_r. repeat split; lia.
  - assert (Hin : (idx <? MAX) = true) by (apply Z.ltb_lt; lia).
    rewrite Hin.
    unfold bind at 1. unfold tryCatch.
    unfold bind at 1. unfold lift at 1.
    assert (Hnext : forall s (pre : list Effect),
              trace s = (trace st ++ pre)%list ->
              (List.length (fetches pre) <= 1)%nat ->
              sleeps pre = [] ->
              exists delta,
                trace (snd (((if idx <? MAX - 1
                              then sleep (Constants.AWAIT_TIME_BEFORE_RETRY CONSTANTS)
                              else ret tt) ;;
                             deliveryLoop fuel MAX (idx + 1) payload amzDate
                                          authorizationHeader) s))
                = (trace st ++ delta)%list
                /\ (List.length (fetches delta) <= S fuel)%nat
                /\ (List.length (sleeps delta) <= S fuel - 1)%nat
                /\ (List.length (fetches delta) - 1 <= List.length (sleeps delta))%nat).
    { intros s pre Hs Hf Hsl. unfold bind.
      destruct (idx <? MAX - 1) eqn:Hmore; cbn [sleep ret].
      - apply Z.ltb_lt in Hmore.
        set (pause := Constants.AWAIT_TIME_BEFORE_RETRY CONSTANTS).
        destruct (IH (idx + 1) (elapse pause (emit (ESleep pause) s)))
          as (d & Htr & Hdf & Hds & Hrel); [lia|].
        exists (pre ++ [ESleep pause] ++ d)%list.
        split; [rewrite Htr; traces; rewrite Hs, <- !app_assoc; reflexivity|].
        rewrite !fetches_app, !sleeps_app, !length_app, Hsl.
        cbn [fetches sleeps flat_map app List.length]. lia.
      - apply Z.ltb_ge in Hmore.
        assert (Hzero : fuel = 0%nat) by lia. subst fuel. cbn [deliveryLoop ret snd].
        exists pre. rewrite Hsl. cbn [List.length]. repeat split; [exact Hs | lia | lia | lia]. }
    destruct (JSON_stringify payload) as [body|e0].
    + unfold bind at 1. unfold doFetch.
      destruct (fetch world (nFetch st) (requestOf amzDate authorizationHeader body))
        as [elapsed [[v|e2]|e1]]; step.
      * exists [EFetch (now st) (requestOf amzDate authorizationHeader body)].
        split; [reflexivity|]. cbn. repeat split; lia.
      * match goal with
        | |- context [snd (let (_, _) := _ ?s in _)] =>
            destruct (Hnext s [EFetch (now st) (requestOf amzDate authorizationHeader body);
                               ELog "console.error" "Error sending message to SQS"
                                 (JObject [ ("handler", JString "sendMessageToSQS");
                                            ("error", JObject [ ("name", JString (exnName e2));
                                                                ("message", JString (exnMessage e2)) ]) ])])
              as (d & Hd); [traces; rewrite <- !app_assoc; reflexivity | cbn; lia | reflexivity |]
        end.
        exists d. revert Hd. unfold bind.
        destruct (idx <? MAX - 1); step; intros Hd; exact Hd.
      * match goal with
        | |- context [snd (let (_, _) := _ ?s in _)] =>
            destruct (Hnext s [EFetch (now st) (requestOf amzDate authorizationHeader body);
                               ELog "console.error" "Error sending message to SQS"
                                 (JObject [ ("handler", JString "sendMessageToSQS");
                                            ("error", JObject [ ("name", JString (exnName e1));
                                                                ("message", JString (exnMessage e1)) ]) ])])
              as (d & Hd); [traces; rewrite <- !app_assoc; reflexivity | cbn; lia | reflexivity |]
        end.
        exists d. revert Hd. unfold bind.
        destruct (idx <? MAX - 1); step; intros Hd; exact Hd.
    + step.
      match goal with
      | |- context [snd (let (_, _) := _ ?s in _)] =>
          destruct (Hnext s [ELog "console.error" "Error sending message to SQS"
                               (JObject [ ("handler", JString "sendMessageToSQS");
                                          ("error", JObject [ ("name", JString (exnName e0));
                                                              ("message", JString (exnMessage e0)) ]) ])])
            as (d & Hd); [traces; reflexivity | cbn; lia | reflexivity |]
      end.
      exists d. revert Hd. unfold bind.
      destruct (idx <? MAX - 1); step; intros Hd; exact Hd.
Qed.

(** X14. Whatever the network answers, one call of [sendMessageToSQS] sends
    at most [MAX_TRIES] requests and pauses at most [MAX_TRIES - 1] times,
    and the pauses are never fewer than the requests less one. *)
Theorem delivery_traffic_is_bounded :
  forall (payload : value) (st : State),
    exists delta,
      trace (snd (sendMessageToSQS payload st)) = (trace st ++ delta)%list
      /\ (List.length (fetches delta)
          <= Z.to_nat (Constants.MAX_TRIES_BEFORE_RETRY CONSTANTS))%nat
      /\ (List.length (sleeps delta)
          <= Z.to_nat (Constants.MAX_TRIES_BEFORE_RETRY CONSTANTS) - 1)%nat
      /\ (List.length (fetches delta) - 1 <= List.length (sleeps delta))%nat.
Proof.
  intros payload st. rewrite sendMessageToSQS_unfold.
  destruct (authorizationHeaderAt (now st) payload) as [auth|e].
  - apply deliveryLoop_bounded. now rewrite Z.sub_0_r.
  - exists []. cbn. rewrite app_nil_r. repeat split; lia.
Qed.

(** ** Whole amounts *)

Lemma digitsValue_uint_acc (d : Decimal.uint) :
  forall p, JsNumber.digitsValue (NilEmpty.string_of_uint d) (Zpos p)
            = Some (Zpos (Pos.of_uint_acc d p)).
Proof.
  induction d; intros p;
    cbn [NilEmpty.string_of_uint JsNumber.digitsValue Pos.of_uint_acc];
    [reflexivity | ..];
    match goal with
    | |- context [Z.of_nat (nat_of_ascii ?c)] =>
        let n := eval vm_compute in (Z.of_nat (nat_of_ascii c)) in
        change (Z.of_nat (nat_of_ascii c)) with n
    end;
    cbn [Z.leb Z.compare Pos.compare Pos.compare_cont andb];
    match goal with
    | |- JsNumber.digitsValue _ ?acc = Some (Zpos (Pos.of_uint_acc _ ?q)) =>
        replace acc with (Zpos q) by lia
    end; apply IHd.
Qed.

Lemma digitsValue_uint (d : Decimal.uint) :
  JsNumber.digitsValue (NilEmpty.string_of_uint d) 0 = Some (Z.of_uint d).
Proof.
  unfold Z.of_uint.
  induction d;
    cbn [NilEmpty.string_of_uint JsNumber.digitsValue Pos.of_uint];
    [reflexivity | ..];
    match goal with
    | |- context [Z.of_nat (nat_of_ascii ?c)] =>
        let n := eval vm_compute in (Z.of_nat (nat_of_ascii c)) in
        change (Z.of_nat (nat_of_ascii c)) with n
    end;
    cbn [Z.leb Z.compare Pos.compare Pos.compare_cont andb Z.mul Z.add Z.sub Z.opp Z.pos_sub
         Pos.pred_double Z.succ_double Z.pred_double Z.double];
    [exact IHd | apply digitsValue_uint_acc ..].
Qed.

Lemma splitAtDot_uint (d : Decimal.uint) (frac : string) :
  JsNumber.splitAtDot (NilEmpty.string_of_uint d ++ String "."%char frac)
  = (NilEmpty.string_of_uint d, Some frac).
Proof.
  induction d; cbn [NilEmpty.string_of_uint append JsNumber.splitAtDot];
    [reflexivity | ..];
    match goal with
    | |- context [Ascii.eqb ?c "."%char] => change (Ascii.eqb c "."%char) with false
    end; cbv iota; rewrite IHd; reflexivity.
Qed.

Lemma Qred_whole (k : Z) : Qred (k # 1) = k # 1.
Proof.
  unfold Qred.
  pose proof (Z.ggcd_gcd k 1) as Hg.
  pose proof (Z.ggcd_correct_divisors k 1) as Hd.
  destruct (Z.ggcd k 1) as (g & aa & bb). cbn [fst] in Hg. destruct Hd as [Ha Hb].
  rewrite Z.gcd_1_r in Hg. subst g.
  rewrite Z.mul_1_l in Ha, Hb. subst aa bb. reflexivity.
Qed.

Lemma unsignedDecimal_whole (k : Z) :
  0 <= k ->
  JsNumber.unsignedDecimal (Text.ofZ k ++ "." ++ "0") = Some (k # 1).
Proof.
  intros Hk. unfold Text.ofZ.
  pose proof (DecimalZ.of_to k) as Hback.
  assert (Hform : exists d, Z.to_int k = Decimal.Pos d /\ d <> Decimal.Nil
                            /\ Z.of_uint d = k).
  { destruct k as [|p|p]; [| |lia].
    - exists (Decimal.D0 Decimal.Nil). repeat split; discriminate.
    - exists (Pos.to_uint p). cbn [Z.to_int] in *. repeat split; [|exact Hback].
      intros Hnil. rewrite Hnil in Hback. discriminate. }
  destruct Hform as (d & Hd & Hnil & Hval). rewrite Hd.
  cbn [NilZero.string_of_int].
  assert (Hstr : NilZero.string_of_uint d = NilEmpty.string_of_uint d)
    by (destruct d; [congruence | reflexivity ..]).
  rewrite Hstr. unfold JsNumber.unsignedDecimal.
  change ("." ++ "0") with (String "."%char "0").
  rewrite splitAtDot_uint, digitsValue_uint, Hval.
  replace ((String.length (NilEmpty.string_of_uint d) + String.length "0") =? 0)%nat
    with false by (symmetry; apply Nat.eqb_neq; cbn [String.length]; lia).
  cbn [JsNumber.digitsValue String.length].
  change (Z.of_nat (nat_of_ascii "0")) with 48.
  cbn [Z.leb Z.compare Pos.compare Pos.compare_cont andb Z.mul Z.add Z.sub Z.opp Z.pos_sub].
  change (10 ^ Z.of_nat 1) with 10. change (Z.to_pos 10) with 10%positive.
  rewrite <- (Qred_whole k). f_equal. apply Qred_complete.
  unfold Qeq. cbn [Qnum Qden]. lia.
Qed.

Lemma roundHalfEven_one (n : Z) : JsNumber.roundHalfEven n 1 = n.
Proof.
  unfold JsNumber.roundHalfEven. rewrite Z.div_1_r, Z.mod_1_r. reflexivity.
Qed.

(** Integers below 2^53 are doubles. *)
Lemma roundDouble_whole (k : Z) :
  0 <= k < 2 ^ 53 -> JsNumber.roundDouble (k # 1) = JsNumber.Num (k # 1).
Proof.
  intros [Hlo Hhi]. unfold JsNumber.roundDouble. cbn [Qnum Qden].
  destruct (Z.eqb_spec k 0) as [->|Hnz]; [reflexivity|].
  assert (Hpos : 0 < k) by lia.
  rewrite (Z.abs_eq k), (Z.sgn_pos k) by lia.
  pose proof (Z.log2_spec k Hpos) as [Hl1 Hl2].
  pose proof (Z.log2_nonneg k) as Hl0.
  assert (Hl52 : Z.log2 k <= 52).
  { destruct (Z_le_gt_dec (Z.log2 k) 52) as [H|H]; [exact H|].
    assert (2 ^ 53 <= 2 ^ Z.log2 k) by (apply Z.pow_le_mono_r; lia). lia. }
  assert (Hlog : JsNumber.ilog2 k 1 = Z.log2 k).
  { unfold JsNumber.ilog2, JsNumber.gePow. change (Z.log2 1) with 0. rewrite Z.sub_0_r.
    replace (0 <=? Z.log2 k) with true by (symmetry; apply Z.leb_le; lia).
    replace (1 * 2 ^ Z.log2 k <=? k) with true by (symmetry; apply Z.leb_le; lia).
    reflexivity. }
  rewrite Hlog, Z.max_l by lia.
  rewrite !Z.mul_1_l.
  destruct (Z.leb_spec 0 (Z.log2 k - 52)) as [He|He].
  - assert (E : Z.log2 k - 52 = 0) by lia. rewrite E.
    change (2 ^ 0) with 1. rewrite roundHalfEven_one, Z.mul_1_r.
    replace (2 ^ 1024 <=? k) with false.
    2:{ symmetry. apply Z.leb_gt.
        assert (2 ^ 53 <= 2 ^ 1024) by (apply Z.pow_le_mono_r; lia). lia. }
    cbn [andb]. unfold JsNumber.timesPow. cbn [Z.leb Z.compare].
    rewrite Z.pow_0_r, Z.mul_1_r. reflexivity.
  - rewrite roundHalfEven_one. cbn [andb]. unfold JsNumber.timesPow.
    replace (0 <=? Z.log2 k - 52) with false by (symmetry; apply Z.leb_gt; lia).
    assert (Hp : 0 < 2 ^ (- (Z.log2 k - 52))) by (apply Z.pow_pos_nonneg; lia).
    f_equal. rewrite <- (Qred_whole k). apply Qred_complete.
    unfold Qeq. cbn [Qnum Qden]. rewrite Z2Pos.id by exact Hp. lia.
Qed.

Lemma formatEther_whole (k : Z) :
  0 <= k -> Ethers.formatEther (k * 10 ^ 18) = Text.ofZ k ++ "." ++ "0".
Proof.
  intros Hk. unfold Ethers.formatEther.
  assert (Hbig : 0 < 10 ^ 18) by reflexivity.
  replace (k * 10 ^ 18 <? 0) with false by (symmetry; apply Z.ltb_ge; nia).
  rewrite Z.abs_eq by nia.
  rewrite Z.mod_mul, Z.div_mul by lia.
  change (Ethers.stripTrailingZeros (Text.padStart0 18 (Text.ofZ 0))) with "0".
  reflexivity.
Qed.

Lemma unsignedDecimal_no_sign (c : ascii) (s : string) (q : Q) :
  c = "-"%char \/ c = "+"%char -> JsNumber.unsignedDecimal (String c s) <> Some q.
Proof.
  intros Hc. unfold JsNumber.unsignedDecimal. cbn [JsNumber.splitAtDot].
  replace (Ascii.eqb c "."%char) with false by (destruct Hc as [->| ->]; reflexivity).
  destruct (JsNumber.splitAtDot s) as [w f].
  destruct (_ =? 0)%nat; [discriminate|].
  cbn [JsNumber.digitsValue].
  replace ((48 <=? Z.of_nat (nat_of_ascii c)) && (Z.of_nat (nat_of_ascii c) <=? 57))
    with false by (destruct Hc as [->| ->]; reflexivity).
  discriminate.
Qed.

Lemma Number_of_whole_ether (k : Z) :
  0 <= k < 2 ^ 53 ->
  JsNumber.Number_ofString (Ethers.formatEther (k * 10 ^ 18)) = JsNumber.ofZ k.
Proof.
  intros Hk. rewrite formatEther_whole by lia.
  pose proof (unsignedDecimal_whole k (proj1 Hk)) as Hparse.
  unfold JsNumber.Number_ofString.
  destruct (Text.ofZ k ++ "." ++ "0") as [|c s] eqn:Es.
  - vm_compute in Hparse. discriminate.
  - destruct (Ascii.eqb_spec c "-"%char) as [Hc|_];
      [exfalso; apply (unsignedDecimal_no_sign c s _ (or_introl Hc) Hparse)|].
    destruct (Ascii.eqb_spec c "+"%char) as [Hc|_];
      [exfalso; apply (unsignedDecimal_no_sign c s _ (or_intror Hc) Hparse)|].
    rewrite Hparse. apply roundDouble_whole. exact Hk.
Qed.

(** The product of two integers is exact as long as it stays below 2^53. *)
Lemma mul_whole (x y : Z) :
  0 <= x * y < 2 ^ 53 ->
  JsNumber.mul (JsNumber.ofZ x) (JsNumber.ofZ y) = JsNumber.ofZ (x * y).
Proof.
  intros H. unfold JsNumber.mul, JsNumber.ofZ.
  replace (inject_Z x * inject_Z y)%Q with (x * y # 1) by reflexivity.
  now apply roundDouble_whole.
Qed.

(** X15. An event whose two amounts are whole numbers of tokens (a multiple
    of 10^18 base units, below 2^53 tokens) is turned into a message whose
    amounts are exactly those numbers of tokens; the addresses are
    upper-cased; the time is the product, as doubles, of the block time and
    [AMOUNT_TO_MILLISECONDS], which is their product as integers as long as
    that stays below 2^53. *)
Theorem whole_amounts_are_converted_exactly :
  forall (event : Event.t) (a : EventArgs.t) (token pairAddress : string)
         (tokens ethers : Z) (blockData : Block.t),
    EventArgs.token a = Some token ->
    EventArgs.pairAddress a = Some pairAddress ->
    EventArgs.amountToken a = Some (tokens * 10 ^ 18) ->
    EventArgs.amountETH a = Some (ethers * 10 ^ 18) ->
    0 <= tokens < 2 ^ 53 ->
    0 <= ethers < 2 ^ 53 ->
    migrationDataOf event a (Some blockData)
    = Ok {| TokenMigratedDataType.tokenAddress := Text.toUpperCase token;
            TokenMigratedDataType.poolId := Text.toUpperCase pairAddress;
            TokenMigratedDataType.amountToken := JsNumber.ofZ tokens;
            TokenMigratedDataType.amountETH := JsNumber.ofZ ethers;
            TokenMigratedDataType.timestamp :=
              JsNumber.mul (JsNumber.ofZ (Block.timestamp blockData))
                           (JsNumber.ofZ (Constants.AMOUNT_TO_MILLISECONDS CONSTANTS));
            TokenMigratedDataType.transactionHash := Event.transactionHash event |}
    /\ (0 <= Block.timestamp blockData * Constants.AMOUNT_TO_MILLISECONDS CONSTANTS < 2 ^ 53 ->
        JsNumber.mul (JsNumber.ofZ (Block.timestamp blockData))
                     (JsNumber.ofZ (Constants.AMOUNT_TO_MILLISECONDS CONSTANTS))
        = JsNumber.ofZ (Block.timestamp blockData
                        * Constants.AMOUNT_TO_MILLISECONDS CONSTANTS)).
Proof.
  intros event a token pairAddress tokens ethers blockData Ha Hp Hat Hae Ht He.
  split; [|apply mul_whole].
  unfold migrationDataOf. rewrite Ha, Hp, Hat, Hae. cbn [required].
  rewrite !Number_of_whole_ether by assumption. reflexivity.
Qed.

(** A check made on every integer of a range holds on each of them. *)
Fixpoint checkedFrom (P : Z -> bool) (n : nat) (z : Z) : bool :=
  match n with
  | O => true
  | S n' => P z && checkedFrom P n' (z + 1)
  end.

Lemma checked_on_range (P : Z -> bool) (lo n : Z) :
  checkedFrom P (Z.to_nat n) lo = true ->
  forall z, lo <= z < lo + n -> P z = true.
Proof.
  intros Hall z Hz.
  assert (Hgen : forall k lo', checkedFrom P k lo' = true ->
                               lo' <= z < lo' + Z.of_nat k -> P z = true).
  { induction k as [|k IH]; intros lo' Hc Hr; [lia|].
    cbn [checkedFrom] in Hc. apply andb_prop in Hc. destruct Hc as [Hhere Hrest].
    destruct (Z.eq_dec z lo') as [->|Hne]; [exact Hhere|].
    apply (IH (lo' + 1) Hrest). lia. }
  apply (Hgen (Z.to_nat n) lo Hall). lia.
Qed.

(** Indices below ten thousand are printed with their decimal digits. *)
Lemma toString_small_index (i : Z) :
  0 <= i < 10000 -> JsNumber.toString (JsNumber.ofZ i) = Text.ofZ i.
Proof.
  intros Hi. apply String.eqb_eq.
  apply (checked_on_range
           (fun i => String.eqb (JsNumber.toString (JsNumber.ofZ i)) (Text.ofZ i)) 0 10000);
    [vm_compute; reflexivity | lia].
Qed.

(** ** Every well-formed event *)

(** X16. For every event that can be transformed, with a queue configured,
    [processEvent] reads the block of the event, builds an envelope
    whose group and deduplication identifiers are both
    "<txHash>/<txIndex>/<logIndex>", the two indices printed as [String]
    prints a number, and whose body is the JSON text of the message tagged with the
    event's coordinates, logs that envelope, and sends no request with any
    other body; it returns normally.  For indices below ten thousand the
    identifiers carry their decimal digits. *)
Theorem event_is_published_under_its_coordinates :
  forall (event : Event.t) (a : EventArgs.t) (blockData : option Block.t)
         (d : TokenMigratedDataType.t) (aws : AwsConfig.Section_) (st : State),
    Event.args event = Some a ->
    getBlock world (nBlock st) (Event.blockNumber event) = Ok blockData ->
    migrationDataOf event a blockData = Ok d ->
    AwsConfig.AWS awsConfig = Some aws ->
    exists st' text info rest,
      let id := Event.transactionHash event
                ++ "/" ++ JsNumber.toString (JsNumber.ofZ (Event.transactionIndex event))
                ++ "/" ++ JsNumber.toString (JsNumber.ofZ (Event.logIndex event)) in
      let envelope :=
        JObject [ ("QueueUrl", JString (AwsConfig.SQS_QUEUE_URL aws));
                  ("MessageBody", JString text);
                  ("MessageGroupId", JString id);
                  ("MessageDeduplicationId", JString id) ] in
      JSON_stringify
        (JObject [ ("type", JString MessageEventType.TOKEN_MIGRATED);
                   ("msg", TokenMigratedDataType.toValue d);
                   ("txHash", JString (Event.transactionHash event));
                   ("txIndex", JInt (Event.transactionIndex event));
                   ("logIndex", JInt (Event.logIndex event));
                   ("blockNumber", JInt (Event.blockNumber event)) ])
      = Ok (JString text)
      /\ processEvent event st = (Ok tt, st')
      /\ trace st'
         = (trace st
            ++ [ EGetBlock (Event.blockNumber event);
                 ELog "console.log" "Message Service" JUndefined;
                 ELog "console.info" "[INFO] Preparing to send message:" info;
                 ELog "console.log" "payload" envelope ]
            ++ rest)%list
      /\ Forall (carriesEnvelope envelope) rest
      /\ (0 <= Event.transactionIndex event < 10000 ->
          0 <= Event.logIndex event < 10000 ->
          id = Event.transactionHash event ++ "/" ++ Text.ofZ (Event.transactionIndex event)
               ++ "/" ++ Text.ofZ (Event.logIndex event)).
Proof.
  intros event a blockData d aws st Hargs Hblock Hdata Haws.
  destruct (message_serialises d MessageEventType.TOKEN_MIGRATED
              (Event.transactionHash event) (Event.transactionIndex event)
              (Event.logIndex event) (Event.blockNumber event)) as (text & Htext).
  unfold processEvent.
  unfold bind at 1. unfold lift at 1. rewrite Hargs.
  unfold bind at 1. unfold provider_getBlock at 1. rewrite Hblock.
  unfold bind at 1. unfold lift at 1. rewrite Hdata.
  match goal with
  | |- context [sendMessage ?t ?x ?h ?i ?l ?n ?s] =>
      destruct (sendMessage_publishes t x h i l n _ aws s Haws Htext)
        as (st' & info & rest & Hrun & Htr & Hall)
  end.
  exists st', text, info, rest. cbn zeta.
  split; [exact Htext|]. split; [exact Hrun|].
  split; [rewrite Htr; traces; rewrite <- !app_assoc; reflexivity|].
  split; [exact Hall|].
  intros Hti Hli. now rewrite !toString_small_index.
Qed.

(** ** The shape of the time stamp *)

Lemma length_append (a b : string) :
  String.length (a ++ b) = (String.length a + String.length b)%nat.
Proof.
  induction a as [|c a IH]; cbn [append String.length]; [reflexivity | now rewrite IH].
Qed.

Lemma substring_prefix (a b : string) : substring 0 (String.length a) (a ++ b) = a.
Proof.
  induction a as [|c a IH]; cbn [append String.length substring].
  - destruct b; reflexivity.
  - now rewrite IH.
Qed.

Lemma four_digit_year (y : Z) : 1000 <= y <= 9999 -> String.length (Text.ofZ y) = 4%nat.
Proof.
  intros Hy. apply Nat.eqb_eq.
  apply (checked_on_range (fun y => (String.length (Text.ofZ y) =? 4)%nat) 1000 9000);
    [vm_compute; reflexivity | lia].
Qed.

Lemma two_digit_field (v : Z) :
  0 <= v <= 99 -> String.length (Text.padStart0 2 (Text.ofZ v)) = 2%nat.
Proof.
  intros Hv. apply Nat.eqb_eq.
  apply (checked_on_range
           (fun v => (String.length (Text.padStart0 2 (Text.ofZ v)) =? 2)%nat) 0 100);
    [vm_compute; reflexivity | lia].
Qed.

(** The month and the day of [civil] are a month and a day. *)
Lemma civil_month_day (day : Z) :
  1 <= snd (fst (JsDate.civil day)) <= 12 /\ 1 <= snd (JsDate.civil day) <= 31.
Proof.
  pose proof (Z.mod_pos_bound (day + 719468) 146097 eq_refl) as Hdoe.
  unfold JsDate.civil. cbn [fst snd].
  set (doe := (day + 719468) mod 146097) in *. clearbody doe.
  set (yoe := (doe - doe / 1460 + doe / 36524 - doe / 146096) / 365).
  set (doy := doe - (365 * yoe + yoe / 4 - yoe / 100)).
  assert (Hdoy : 0 <= doy <= 365)
    by (subst doy yoe; Z.to_euclidean_division_equations; lia).
  clearbody doy.
  set (mp := (5 * doy + 2) / 153).
  assert (Hmp : 0 <= mp <= 11 /\ 1 <= doy - (153 * mp + 2) / 5 + 1 <= 31)
    by (subst mp; Z.to_euclidean_division_equations; lia).
  clearbody mp. destruct Hmp as [Hmp Hd].
  split; [|exact Hd].
  destruct (Z.ltb_spec mp 10); lia.
Qed.

(** X17. For a clock reading in a four-digit year, the stamp [amzDate] has
    16 characters and its first eight, which the signer takes as the date
    of the credential scope, are the year, the month and the day of that
    reading, the month and the day on two digits. *)
Theorem date_stamp_is_the_calendar_date :
  forall (now : JsDate.Date),
    1000 <= JsDate.getUTCFullYear now <= 9999 ->
    String.length (amzDateOf now) = 16%nat
    /\ Text.slice0 8 (amzDateOf now)
       = Text.ofZ (JsDate.getUTCFullYear now)
         ++ Text.padStart0 2 (Text.ofZ (JsDate.getUTCMonth now + 1))
         ++ Text.padStart0 2 (Text.ofZ (JsDate.getUTCDate now))
    /\ 1 <= JsDate.getUTCMonth now + 1 <= 12
    /\ 1 <= JsDate.getUTCDate now <= 31.
Proof.
  intros now Hyear.
  pose proof (civil_month_day (now / JsDate.msPerDay)) as Hcivil.
  assert (Hmd : 1 <= JsDate.getUTCMonth now + 1 <= 12 /\ 1 <= JsDate.getUTCDate now <= 31).
  { unfold JsDate.getUTCMonth, JsDate.getUTCDate. lia. }
  destruct Hmd as [Hm Hd].
  assert (Hday : 0 <= now mod JsDate.msPerDay < 86400000)
    by (apply Z.mod_pos_bound; reflexivity).
  assert (Hh : 0 <= JsDate.getUTCHours now <= 99).
  { unfold JsDate.getUTCHours. split; [apply Z.div_pos; lia|].
    assert ((now mod JsDate.msPerDay) / 3600000 < 24)
      by (apply Z.div_lt_upper_bound; lia). lia. }
  assert (Hmin : 0 <= JsDate.getUTCMinutes now <= 99).
  { unfold JsDate.getUTCMinutes.
    pose proof (Z.mod_pos_bound ((now mod JsDate.msPerDay) / 60000) 60). lia. }
  assert (Hs : 0 <= JsDate.getUTCSeconds now <= 99).
  { unfold JsDate.getUTCSeconds.
    pose proof (Z.mod_pos_bound ((now mod JsDate.msPerDay) / 1000) 60). lia. }
  pose proof (four_digit_year _ Hyear) as Ly.
  pose proof (two_digit_field (JsDate.getUTCMonth now + 1) ltac:(lia)) as Lm.
  pose proof (two_digit_field (JsDate.getUTCDate now) ltac:(lia)) as Ld.
  pose proof (two_digit_field _ Hh) as Lh.
  pose proof (two_digit_field _ Hmin) as Lmin.
  pose proof (two_digit_field _ Hs) as Ls.
  unfold amzDateOf. cbv zeta.
  split; [|split; [|split; assumption]].
  - rewrite !length_append, Ly, Lm, Ld, Lh, Lmin, Ls. reflexivity.
  - unfold Text.slice0.
    set (y := Text.ofZ (JsDate.getUTCFullYear now)) in *.
    set (m := Text.padStart0 2 (Text.ofZ (JsDate.getUTCMonth now + 1))) in *.
    set (d := Text.padStart0 2 (Text.ofZ (JsDate.getUTCDate now))) in *.
    match goal with
    | |- substring 0 8 (y ++ m ++ d ++ ?rest) = _ =>
        replace (y ++ m ++ d ++ rest) with ((y ++ m ++ d) ++ rest)
          by (rewrite !append_assoc; reflexivity);
        replace 8%nat with (String.length (y ++ m ++ d))
          by (rewrite !length_append, Ly, Lm, Ld; reflexivity)
    end.
    apply substring_prefix.
Qed.

(** ** The shape of the signature *)

Lemma bigEndian_length width x : List.length (Crypto.bigEndian width x) = width.
Proof. unfold Crypto.bigEndian. now rewrite length_map, length_seq. Qed.

Lemma bigEndian_bytes width x :
  Forall (fun b => 0 <= b < 256) (Crypto.bigEndian width x).
Proof.
  unfold Crypto.bigEndian. apply Forall_forall. intros b Hb.
  apply in_map_iff in Hb. destruct Hb as (i & <- & _).
  apply Z.mod_pos_bound. reflexivity.
Qed.

Lemma compress_length h block :
  List.length h = 8%nat -> List.length (Crypto.compress h block) = 8%nat.
Proof.
  intros Hh. unfold Crypto.compress.
  rewrite length_map, length_combine, Hh. reflexivity.
Qed.

Lemma blocks_length n :
  forall h bs, List.length h = 8%nat -> List.length (Crypto.blocks n h bs) = 8%nat.
Proof.
  induction n as [|n IH]; intros h bs Hh; cbn [Crypto.blocks]; [exact Hh|].
  apply IH. now apply compress_length.
Qed.

Lemma digest_words (l : list Z) :
  List.length (flat_map (Crypto.bigEndian 4) l) = (4 * List.length l)%nat
  /\ Forall (fun b => 0 <= b < 256) (flat_map (Crypto.bigEndian 4) l).
Proof.
  induction l as [|x l [IHl IHb]]; cbn [flat_map]; [split; [reflexivity | constructor]|].
  split.
  - rewrite length_app, bigEndian_length, IHl. cbn [List.length]. lia.
  - apply Forall_app. split; [apply bigEndian_bytes | exact IHb].
Qed.

(** A digest is 32 bytes. *)
Lemma sha256_shape msg :
  List.length (Crypto.sha256 msg) = 32%nat
  /\ Forall (fun b => 0 <= b < 256) (Crypto.sha256 msg).
Proof.
  unfold Crypto.sha256.
  destruct (digest_words (Crypto.blocks (List.length (Crypto.pad msg) / 64) Crypto.H256
                                        (Crypto.pad msg))) as [Hl Hb].
  split; [|exact Hb].
  rewrite Hl, blocks_length; reflexivity.
Qed.

Lemma hmac_sha256_shape key msg :
  List.length (Crypto.hmac_sha256 key msg) = 32%nat
  /\ Forall (fun b => 0 <= b < 256) (Crypto.hmac_sha256 key msg).
Proof. unfold Crypto.hmac_sha256. apply sha256_shape. Qed.

(** A digit of lower-case hexadecimal notation. *)
Definition lowerHex (c : ascii) : Prop :=
  In c (list_ascii_of_string "0123456789abcdef").

Lemma hexDigit_lowerHex n : 0 <= n < 16 -> lowerHex (Text.hexDigit n).
Proof.
  intros Hn.
  pose proof (checked_on_range
                (fun n => existsb (Ascii.eqb (Text.hexDigit n))
                                  (list_ascii_of_string "0123456789abcdef"))
                0 16 eq_refl n Hn) as Hcheck.
  cbv beta in Hcheck. apply existsb_exists in Hcheck.
  destruct Hcheck as (c & Hin & Heq). apply Ascii.eqb_eq in Heq.
  unfold lowerHex. now rewrite Heq.
Qed.

Lemma hex_shape bs :
  Forall (fun b => 0 <= b < 256) bs ->
  String.length (Text.hex bs) = (2 * List.length bs)%nat
  /\ Forall lowerHex (list_ascii_of_string (Text.hex bs)).
Proof.
  induction 1 as [|b bs Hb _ [IHl IHc]]; cbn [Text.hex String.length List.length
                                                list_ascii_of_string].
  - split; [reflexivity | constructor].
  - split; [rewrite IHl; lia|].
    constructor; [|constructor; [|exact IHc]]; apply hexDigit_lowerHex.
    + split; [apply Z.div_pos; lia | apply Z.div_lt_upper_bound; lia].
    + apply Z.mod_pos_bound. reflexivity.
Qed.

(** X18. Whatever the secret, the scope and the string to sign, the signing
    key is 32 bytes, and the Authorization header is the credential and the
    signed-header list followed by a signature of exactly 64 lower-case
    hexadecimal digits. *)
Theorem signature_is_64_hex_digits :
  forall (key dateStamp regionName serviceName stringToSign : string),
    List.length (getSignatureKey key dateStamp regionName serviceName) = 32%nat
    /\ exists signature,
         calculateAuthParam dateStamp stringToSign
         = SQSConfig.algorithm sqsConfig ++ " Credential="
           ++ SQSConfig.accessKey (SQSConfig.credentials sqsConfig) ++ "/"
           ++ (dateStamp ++ "/" ++ SQSConfig.region (SQSConfig.credentials sqsConfig)
               ++ "/" ++ SQSConfig.service sqsConfig ++ "/aws4_request")
           ++ ", SignedHeaders=" ++ "content-type;host;x-amz-date;x-amz-target"
           ++ ", Signature=" ++ signature
         /\ String.length signature = 64%nat
         /\ Forall lowerHex (list_ascii_of_string signature).
Proof.
  intros key dateStamp regionName serviceName stringToSign. split.
  - unfold getSignatureKey. apply hmac_sha256_shape.
  - unfold calculateAuthParam. cbv zeta.
    match goal with
    | |- context [Text.hex (Crypto.hmac_sha256 ?k ?m)] =>
        destruct (hmac_sha256_shape k m) as [Hl Hb];
        destruct (hex_shape _ Hb) as [Hhl Hhc];
        rewrite Hl in Hhl;
        set (signature := Text.hex (Crypto.hmac_sha256 k m)) in *
    end.
    clearbody signature. exists signature.
    split; [reflexivity|]. split; [exact Hhl | exact Hhc].
Qed.

End Program.

(** ** The process

    Running the worker first loads its modules, among them
    [sqs.service.ts] with the initialiser of its [sqsConfig], and then
    reaches the entry point.  An exception that escapes while the modules
    load ends the process with status 1 before any line of the scan
    function runs; what the runtime then prints is not an effect of the
    program. *)

Section Process.

Variable CONSTANTS : Constants.t.
Variable awsConfig : AwsConfig.t.
Variable world : World.

Definition main (fuel : nat) (st : State) : option (Z * State) :=
  match loadSqsConfig awsConfig with
  | Throw _ => Some (1, st)
  | Ok sqsConfig => entryPoint CONSTANTS awsConfig sqsConfig world fuel st
  end.

(** The import fails exactly when the section or the credentials object is
    missing. *)
Definition importFails : Prop :=
  AwsConfig.AWS awsConfig = None
  \/ exists aws, AwsConfig.AWS awsConfig = Some aws /\ AwsConfig.CREDENTIALS aws = None.

Lemma loadSqsConfig_throws :
  (exists e, loadSqsConfig awsConfig = Throw e) <-> importFails.
Proof.
  unfold loadSqsConfig, importFails.
  destruct (AwsConfig.AWS awsConfig) as [aws|].
  - destruct (AwsConfig.CREDENTIALS aws) as [c|] eqn:Hc; split.
    + intros (e & He). discriminate.
    + intros [H|(aws' & H & Hnone)]; [discriminate|].
      inversion H; subst aws'. congruence.
    + intros _. right. now exists aws.
    + intros _. eexists. reflexivity.
  - split; [now left | intros _; eexists; reflexivity].
Qed.

Lemma usable_configuration_loads :
  ~ ConfigurationFailure awsConfig world ->
  exists sqsConfig, loadSqsConfig awsConfig = Ok sqsConfig.
Proof.
  intros Hgood. unfold loadSqsConfig.
  destruct (AwsConfig.AWS awsConfig) as [aws|] eqn:Haws;
    [|exfalso; apply Hgood; now apply SectionMissing].
  destruct (AwsConfig.CREDENTIALS aws) as [c|] eqn:Hc;
    [eauto | exfalso; apply Hgood; now apply (CredentialsMissing awsConfig world aws)].
Qed.

(** C4, as the code has it.  When the AWS section or the credentials
    object is missing, the process ends with status one while its modules
    load, before the scan function is called.  When the modules load and
    the configuration is unusable (region missing or off the list, a
    credential or the queue URL empty, the queue not answering), the scan
    function logs the error and returns normally before any scanning: the
    node is not asked anything, no request is sent, no event is taken up;
    and the process then ends with status zero.  Once the modules are
    loaded the status is one exactly when an exception escapes the scan
    function, zero whenever it returns. *)
Theorem invalid_configuration_stops_with_status_zero :
  (importFails ->
   forall fuel st,
     (exists e, loadSqsConfig awsConfig = Throw e) /\ main fuel st = Some (1, st))
  /\ (ConfigurationFailure awsConfig world ->
      forall sqsConfig,
        loadSqsConfig awsConfig = Ok sqsConfig ->
        forall fuel st,
        exists st' delta,
          scanTokenMigratedEvents CONSTANTS awsConfig sqsConfig world fuel st
          = Some (Ok tt, st')
          /\ main fuel st = Some (0, st')
          /\ trace st' = (trace st ++ delta)%list
          /\ Forall (fun e => scanningEffect e = false) delta
          /\ outcomes delta = []
          /\ exists started error before,
               fst (validateAwsConfig awsConfig world
                      (emit (ELog "info" "Token Migration Scanner Started" started) st))
               = Throw error
               /\ delta
                  = (ELog "info" "Token Migration Scanner Started" started
                     :: before
                     ++ [ELog "console.error" ("Error [" ++ exnCode error ++ "]:")
                              (JString (exnMessage error))])%list)
  /\ (forall sqsConfig,
        loadSqsConfig awsConfig = Ok sqsConfig ->
        forall fuel st,
          match main fuel st with
          | None => scanTokenMigratedEvents CONSTANTS awsConfig sqsConfig world fuel st = None
          | Some (code, st') =>
              (code = 0
               /\ scanTokenMigratedEvents CONSTANTS awsConfig sqsConfig world fuel st
                  = Some (Ok tt, st'))
              \/ (code = 1
                  /\ exists e st1,
                       scanTokenMigratedEvents CONSTANTS awsConfig sqsConfig world fuel st
                       = Some (Throw e, st1))
          end).
Proof.
  split; [|split].
  - intros Hmissing fuel st.
    destruct (proj2 loadSqsConfig_throws Hmissing) as (e & He).
    split; [now exists e|]. unfold main. now rewrite He.
  - intros Hbad sqsConfig Hload fuel st. unfold main. rewrite Hload.
    exact (proj1 (entryPoint_status CONSTANTS awsConfig sqsConfig world) Hbad fuel st).
  - intros sqsConfig Hload fuel st. unfold main. rewrite Hload.
    exact (proj2 (entryPoint_status CONSTANTS awsConfig sqsConfig world) fuel st).
Qed.

(** X10. With a usable configuration, a node that answers and a window size
    that is not negative, the modules load, the scan ends (within
    [head - START_BLOCK] turns) and the process ends with status zero.  The
    windows it has asked for follow one another from [START_BLOCK] without
    gap or overlap and never reach beyond the head: every block from
    [START_BLOCK] up to the block where the loop stops lies in exactly one
    window, and no other block lies in any.  When the head is not above
    [START_BLOCK], no window is asked for at all.  The scan does so
    whatever the value of [sqsConfig]; the process runs it with the value
    the initialiser gave. *)
Theorem scan_covers_each_block_once :
  forall (fuel : nat) (st : State) (head : Z),
    ~ ConfigurationFailure awsConfig world ->
    nodeAnswers world ->
    getBlockNumber world (nHead st) = Ok head ->
    0 <= Constants.SCAN_WITH_SPACE_BLOCK CONSTANTS ->
    head - Constants.START_BLOCK CONSTANTS <= Z.of_nat fuel ->
    (exists sqsConfig, loadSqsConfig awsConfig = Ok sqsConfig)
    /\ forall sqsConfig,
       exists st' delta,
         scanTokenMigratedEvents CONSTANTS awsConfig sqsConfig world fuel st
         = Some (Ok tt, st')
         /\ (loadSqsConfig awsConfig = Ok sqsConfig -> main fuel st = Some (0, st'))
         /\ trace st' = (trace st ++ delta)%list
         /\ Chained (Constants.START_BLOCK CONSTANTS) (queries delta)
                    (stopBlock CONSTANTS head (Constants.START_BLOCK CONSTANTS))
         /\ Forall (fun w => snd w <= head) (queries delta)
         /\ (forall b,
               List.length (filter (covers b) (queries delta))
               = if (Constants.START_BLOCK CONSTANTS <=? b)
                    && (b <? stopBlock CONSTANTS head (Constants.START_BLOCK CONSTANTS))
                 then 1%nat else 0%nat)
         /\ (head <= Constants.START_BLOCK CONSTANTS -> queries delta = []).
Proof.
  intros fuel st head Hgood Hnode Hhead Hscan Hfuel.
  split; [now apply usable_configuration_loads|].
  intros sqsConfig.
  destruct (scan_windows_loaded CONSTANTS awsConfig sqsConfig world fuel st head
              Hgood Hnode Hhead Hscan Hfuel)
    as (st' & delta & Hrun & Hentry & Hrest).
  exists st', delta. split; [exact Hrun|]. split; [|exact Hrest].
  intros Hload. unfold main. now rewrite Hload.
Qed.

(** X12. The process ends with status one in exactly two situations: its
    modules fail to load (the AWS section or the credentials object is
    missing), in which case it has done nothing; or the configuration is
    usable and the request for the chain head throws, in which case that
    exception is logged twice, as "Scanner Failed" and as "Fatal Error",
    and no log query has been made.  Nothing that happens inside the loop
    (a failing query, a failing event, a failing delivery) can make the
    status one.  (The constructors of lines 26-27 are taken not to throw.) *)
Theorem status_one_from_import_or_head_request_only :
  forall (fuel : nat) (st : State),
    ((exists st', main fuel st = Some (1, st'))
     <-> (importFails
          \/ (~ ConfigurationFailure awsConfig world
              /\ exists e, getBlockNumber world (nHead st) = Throw e)))
    /\ (forall st',
          main fuel st = Some (1, st') ->
          (importFails /\ st' = st)
          \/ (~ importFails
              /\ exists delta scannerFailed fatalError,
                   trace st'
                   = (trace st ++ delta
                      ++ [ EGetBlockNumber;
                           ELog "error" "Scanner Failed" scannerFailed;
                           ELog "error" "Fatal Error" fatalError ])%list
                   /\ queries delta = [])).
Proof.
  intros fuel st. unfold main.
  destruct (loadSqsConfig awsConfig) as [sqsConfig|e] eqn:Hload.
  - assert (Hloaded : ~ importFails).
    { intros Hmissing. destruct (proj2 loadSqsConfig_throws Hmissing) as (e & He).
      congruence. }
    destruct (entryPoint_status_one CONSTANTS awsConfig sqsConfig world fuel st)
      as [Hiff Htrace].
    split.
    + rewrite Hiff. split; [now right | intros [H|H]; [contradiction | exact H]].
    + intros st' Hmain. right. split; [exact Hloaded | exact (Htrace st' Hmain)].
  - assert (Hmissing : importFails) by (apply loadSqsConfig_throws; now exists e).
    split.
    + split; [intros _; now left | intros _; now exists st].
    + intros st' Hmain. left. split; [exact Hmissing | congruence].
Qed.

End Process.

(** ** The claims at sample inputs *)

(** The stamp and the header at the sample start time, as computed
    independently from the reference algorithm. *)
Example amzDate_sample :
  amzDateOf 1700000000000 = "20231114T221320Z".
Proof. vm_compute. reflexivity. Qed.

Example signingKey_reference_vector :
  Text.hex (getSignatureKey "wJalrXUtnFEMI/K7MDENG+bPxRfiCYEXAMPLEKEY" "20120215"
                            "us-east-1" "iam")
  = "f4780e2d9f65fa895f9c67b32ce1baf0b0d8a43505a000a1a9e090d414db404d".
Proof. vm_compute. reflexivity. Qed.

Lemma signer_follows_reference_algorithm_witness :
  JSON_stringify Sample.smallPayload
  = Ok (JString (Text.quoted "{'QueueUrl':'q','MessageBody':'m'}"))
  /\ authorizationHeaderAt Sample.sqsConfig 1700000000000 Sample.smallPayload
     = Ok (SignerSpec.authorization
             "AWS4-HMAC-SHA256" "POST" "sqs.us-east-1.amazonaws.com"
             "application/x-amz-json-1.0" "AmazonSQS.SendMessage"
             (Text.quoted "{'QueueUrl':'q','MessageBody':'m'}")
             "20231114T221320Z"
             "wJalrXUtnFEMI/K7MDENG+bPxRfiCYEXAMPLEKEY" "AKIDEXAMPLE" "us-east-1" "sqs").
Proof.
  assert (H : JSON_stringify Sample.smallPayload
              = Ok (JString (Text.quoted "{'QueueUrl':'q','MessageBody':'m'}")))
    by (vm_compute; reflexivity).
  split; [exact H|].
  exact (proj2 (signer_follows_reference_algorithm Sample.sqsConfig 1700000000000
                  Sample.smallPayload _ H)).
Defined.

Lemma queueDown_always_fails head events :
  deliveryAlwaysFails (Sample.queueDown head events).
Proof.
  intros k req. exists 150, Sample.networkDown. left. reflexivity.
Defined.


Lemma attempts_reuse_the_signature_of_entry_witness :
  exists delta,
    trace (snd (sendMessageToSQS Sample.constants Sample.sqsConfig (Sample.queueFlaky 120 [])
                                 Sample.smallPayload Sample.start))
    = (trace Sample.start ++ delta)%list
    /\ forall t req,
         In (t, req) (fetches delta) ->
         header "X-Amz-Date" req = Some "20231114T221320Z".
Proof.
  destruct (attempts_reuse_the_signature_of_entry Sample.constants Sample.sqsConfig
              (Sample.queueFlaky 120 []) Sample.smallPayload Sample.start)
    as (delta & Htr & Hall).
  exists delta. split; [exact Htr|].
  intros t req Hin. destruct (Hall t req Hin) as [Hdate _].
  rewrite Hdate. vm_compute. reflexivity.
Defined.

(** C2 as stated fails: the second attempt is sent two seconds after the
    first, with the stamp and the signature of the first. *)
Lemma attempts_regenerate_signature_counterexample :
  exists t0 r0 t1 r1,
    fetches (trace (snd (sendMessageToSQS Sample.constants Sample.sqsConfig
                                          (Sample.queueFlaky 120 [])
                                          Sample.smallPayload Sample.start)))
    = [(t0, r0); (t1, r1)]
    /\ t1 = t0 + 2150
    /\ header "X-Amz-Date" r1 <> Some (amzDateOf t1)
    /\ header "Authorization" r1 = header "Authorization" r0
    /\ option_map Ok (header "Authorization" r1)
       <> Some (authorizationHeaderAt Sample.sqsConfig t1 Sample.smallPayload).
Proof.
  eexists _, _, _, _. split; [vm_compute; reflexivity|].
  split; [reflexivity|]. split; [vm_compute; discriminate|].
  split; [reflexivity|]. vm_compute. discriminate.
Qed.

Lemma exhausted_delivery_is_counted_as_processed_witness :
  deliveryAlwaysFails (Sample.queueDown 120 [Sample.rawEvent])
  /\ exists st',
       attemptEvent Sample.constants Sample.awsConfig Sample.sqsConfig
                    (Sample.queueDown 120 [Sample.rawEvent]) Sample.rawEvent
                    (ProcessingContext.mk 100 120 1 0 0) Sample.start
       = (Ok (ProcessingContext.mk 100 120 1 1 0), st').
Proof.
  split; [apply queueDown_always_fails|].
  destruct (proj1 (proj2 (exhausted_delivery_is_counted_as_processed
                            Sample.constants Sample.awsConfig Sample.sqsConfig
                            (Sample.queueDown 120 [Sample.rawEvent])
                            (queueDown_always_fails 120 [Sample.rawEvent])))
              Sample.rawEvent Sample.rawArgs (Some Sample.block) Sample.migrationMessage
              (ProcessingContext.mk 100 120 1 0 0) [] Sample.start
              eq_refl eq_refl ltac:(vm_compute; reflexivity))
    as (st' & Hrun & _).
  exists st'. exact Hrun.
Defined.

(** C1 as stated fails: all three delivery attempts for the event fail, and
    the window ends with the event counted as processed, none as failed. *)
Lemma exhausted_delivery_counterexample :
  let run :=
    iteration Sample.constants Sample.awsConfig Sample.sqsConfig
              (Sample.queueDown 120 [Sample.rawEvent]) 120 100 Sample.start in
  fst run = Ok (ProcessingContext.mk 100 120 1 1 0, 121)
  /\ map fst (fetches (trace (snd run))) = [1700000000000; 1700000002150; 1700000004300]
  /\ ProcessingContext.failedCount (ProcessingContext.mk 100 120 1 1 0) <> 1.
Proof.
  cbv zeta. split; [vm_compute; reflexivity|]. split; [vm_compute; reflexivity|].
  cbn. discriminate.
Qed.

Lemma marsConfig_is_invalid (world : World) :
  ConfigurationFailure Sample.marsConfig world.
Proof.
  eapply RegionInvalid; reflexivity.
Defined.

(** A configuration without its AWS section. *)
Definition emptyConfig : AwsConfig.t := AwsConfig.mk None.

Lemma invalid_configuration_stops_with_status_zero_witness :
  ConfigurationFailure Sample.marsConfig (Sample.queueDown 120 [Sample.rawEvent])
  /\ (exists sqsConfig, loadSqsConfig Sample.marsConfig = Ok sqsConfig)
  /\ (exists st',
        main Sample.constants Sample.marsConfig (Sample.queueDown 120 [Sample.rawEvent])
             5 Sample.start
        = Some (0, st'))
  /\ main Sample.constants emptyConfig (Sample.queueDown 120 [Sample.rawEvent])
          5 Sample.start
     = Some (1, Sample.start).
Proof.
  split; [apply marsConfig_is_invalid|]. split; [eexists; reflexivity|]. split.
  - destruct (proj1 (proj2 (invalid_configuration_stops_with_status_zero
                              Sample.constants Sample.marsConfig
                              (Sample.queueDown 120 [Sample.rawEvent])))
                (marsConfig_is_invalid _) _ eq_refl 5%nat Sample.start)
      as (st' & delta & _ & Hmain & _).
    exists st'. exact Hmain.
  - exact (proj2 (proj1 (invalid_configuration_stops_with_status_zero
                           Sample.constants emptyConfig
                           (Sample.queueDown 120 [Sample.rawEvent]))
                    (or_introl eq_refl) 5%nat Sample.start)).
Defined.

(** C4 as stated fails: the region is not on the allow-list, the modules
    load, validation throws, and the process ends with status zero. *)
Lemma invalid_configuration_counterexample :
  ConfigurationFailure Sample.marsConfig (Sample.queueDown 120 [Sample.rawEvent])
  /\ option_map fst (main Sample.constants Sample.marsConfig
                          (Sample.queueDown 120 [Sample.rawEvent]) 5 Sample.start)
     = Some 0
  /\ option_map fst (main Sample.constants Sample.marsConfig
                          (Sample.queueDown 120 [Sample.rawEvent]) 5 Sample.start)
     <> Some 1.
Proof.
  split; [apply marsConfig_is_invalid|].
  split; [vm_compute; reflexivity | vm_compute; discriminate].
Qed.

Lemma failing_window_is_retried_without_bound_witness :
  100 < 120
  /\ (forall k, (k < 3)%nat ->
        exists e,
          queryFilter (Sample.nodeFlaky 3 120) (nQuery Sample.start + k) "TokenMigrated" 100
            (Z.min (100 + Constants.SCAN_WITH_SPACE_BLOCK Sample.constants) 120)
          = Throw e)
  /\ whileLoop Sample.constants Sample.awsConfig Sample.sqsConfig (Sample.nodeFlaky 3 120)
               3 120 100 Sample.start
     = None
  /\ exists st',
       (forall fuel,
          whileLoop Sample.constants Sample.awsConfig Sample.sqsConfig (Sample.nodeFlaky 3 120)
                    (3 + S fuel) 120 100 Sample.start
          = Some (Ok tt, st'))
       /\ queries (trace st') = [(100, 120); (100, 120); (100, 120); (100, 120)].
Proof.
  assert (Hfail : forall k, (k < 3)%nat ->
            exists e,
              queryFilter (Sample.nodeFlaky 3 120) (nQuery Sample.start + k) "TokenMigrated" 100
                (Z.min (100 + Constants.SCAN_WITH_SPACE_BLOCK Sample.constants) 120)
              = Throw e).
  { intros k Hk. exists Sample.nodeDown. cbn.
    destruct k as [|[|[|k]]]; [reflexivity | reflexivity | reflexivity | lia]. }
  split; [lia|]. split; [exact Hfail|].
  pose proof (failing_window_is_retried_without_bound
                Sample.constants Sample.awsConfig Sample.sqsConfig (Sample.nodeFlaky 3 120)
                120 100 3%nat Sample.start ltac:(lia) Hfail) as H.
  cbv zeta in H.
  destruct H as (_ & _ & Hnone & (delta & Htr & Hq & _) & Hrecover).
  split; [exact Hnone|].
  destruct (Hrecover [] eq_refl) as (c & st' & d & _ & Htr' & Hq' & _ & Hlast).
  exists st'. split; [exact (Hlast ltac:(cbn; lia))|].
  rewrite Htr', Htr, !queries_app, Hq, Hq'. reflexivity.
Defined.


Lemma counters_add_up_witness :
  exists context next st',
    iteration Sample.constants Sample.awsConfig Sample.sqsConfig
              (Sample.queueDown 120 [Sample.rawEvent]) 120 100 Sample.start
    = (Ok (context, next), st')
    /\ ProcessingContext.processedCount context + ProcessingContext.failedCount context
       = ProcessingContext.eventCount context
    /\ ProcessingContext.eventCount context = 1.
Proof.
  destruct (proj2 (proj2 (proj2 (counters_add_up Sample.constants Sample.awsConfig
                                   Sample.sqsConfig
                                   (Sample.queueDown 120 [Sample.rawEvent]))))
              120 100 Sample.start)
    as (context & next & st' & Hrun & Hsum & Hcount).
  exists context, next, st'. split; [exact Hrun|]. split; [exact Hsum|].
  exact (proj1 (Hcount [Sample.rawEvent] eq_refl)).
Defined.

Lemma end_to_end_scenario_witness :
  Constants.AMOUNT_TO_MILLISECONDS Sample.constants = 1000
  /\ AwsConfig.AWS Sample.awsConfig = Some Sample.aws
  /\ getBlock (Sample.queueDown 120 [Sample.rawEvent]) (nBlock Sample.start) 42
     = Ok (Some Sample.block)
  /\ migrationDataOf Sample.constants Sample.rawEvent Sample.rawArgs (Some Sample.block)
     = Ok Sample.migrationMessage
  /\ exists st',
       processEvent Sample.constants Sample.awsConfig Sample.sqsConfig
                    (Sample.queueDown 120 [Sample.rawEvent]) Sample.rawEvent Sample.start
       = (Ok tt, st').
Proof.
  split; [reflexivity|]. split; [reflexivity|]. split; [reflexivity|].
  destruct (end_to_end_scenario Sample.constants Sample.awsConfig Sample.sqsConfig
              (Sample.queueDown 120 [Sample.rawEvent]) Sample.start Sample.aws
              eq_refl eq_refl eq_refl)
    as (Hdata & st' & info & rest & Hrun & _).
  split; [exact Hdata|]. exists st'. exact Hrun.
Defined.

(** The whole scan on the two heads of the scenario: one window up to 120;
    and, with windows of 50 blocks from 100 to a head of 500, eight windows,
    the second starting at 151.  The head read later (one block further)
    plays no part. *)
Example scan_windows_head_120 :
  option_map (fun r => queries (trace (snd r)))
    (scanTokenMigratedEvents Sample.constants Sample.awsConfig Sample.sqsConfig
       (Sample.queueDown 120 []) 10 Sample.start)
  = Some [(100, 120)].
Proof. vm_compute. reflexivity. Qed.

Example scan_windows_head_500 :
  option_map (fun r => queries (trace (snd r)))
    (scanTokenMigratedEvents Sample.constants Sample.awsConfig Sample.sqsConfig
       (Sample.queueDown 500 []) 10 Sample.start)
  = Some [ (100, 150); (151, 201); (202, 252); (253, 303);
           (304, 354); (355, 405); (406, 456); (457, 500) ].
Proof. vm_compute. reflexivity. Qed.

(** ** The further properties at sample inputs *)

Lemma sampleConfig_is_usable (world : World) :
  getQueueAttributes world = None -> ~ ConfigurationFailure Sample.awsConfig world.
Proof.
  intros Hprobe Hbad.
  destruct Hbad as [H|aws H H'|aws H H'|aws H H'|aws c H H' H''|aws H H'|e H];
    try (cbn in H; inversion H; subst aws; cbn in *);
    try discriminate; try congruence.
  inversion H'; subst c. destruct H'' as [H''|H'']; discriminate.
Defined.

Lemma worldOf_node_answers head events fetchAnswer :
  nodeAnswers (Sample.worldOf head events fetchAnswer).
Proof.
  intros k name f t. cbn. destruct (k =? 0)%nat; eauto.
Defined.

(** A payload holding a BigInt. *)
Definition bigPayload : value := JObject [("amount", JBigInt 5)].

(** A node that cannot tell the chain head. *)
Definition headDown : World :=
  {| getQueueAttributes := None;
     getBlockNumber := fun _ => Throw Sample.nodeDown;
     queryFilter := fun _ _ _ _ => Ok [];
     getBlock := fun _ _ => Ok (Some Sample.block);
     fetch := fun _ _ => (150, Ok (Ok Sample.accepted)) |}.


Lemma sendMessageToSQS_throws_before_any_attempt_witness :
  JSON_stringify bigPayload = Throw (TypeError "Do not know how to serialize a BigInt")
  /\ sendMessageToSQS Sample.constants Sample.sqsConfig (Sample.queueDown 120 [])
                      bigPayload Sample.start
     = (Throw (TypeError "Do not know how to serialize a BigInt"), Sample.start).
Proof.
  assert (H : JSON_stringify bigPayload
              = Throw (TypeError "Do not know how to serialize a BigInt")) by reflexivity.
  split; [exact H|].
  exact (proj1 (sendMessageToSQS_throws_before_any_attempt
                  Sample.constants Sample.sqsConfig (Sample.queueDown 120 [])
                  bigPayload Sample.start) _ H).
Defined.

Lemma delivery_stops_at_first_answer_witness :
  exists st',
    sendMessageToSQS Sample.constants Sample.sqsConfig (Sample.queueFlaky 120 [])
                     Sample.smallPayload Sample.start
    = (Ok Sample.accepted, st')
    /\ nFetch st' = 2%nat
    /\ sleeps (trace st') = [2000].
Proof.
  assert (Hjson : JSON_stringify Sample.smallPayload
                  = Ok (JString (Text.quoted "{'QueueUrl':'q','MessageBody':'m'}")))
    by (vm_compute; reflexivity).
  destruct (authorizationHeaderAt_ok Sample.sqsConfig (now Sample.start)
              Sample.smallPayload _ Hjson) as (h & Hh).
  destruct (delivery_stops_at_first_answer
              Sample.constants Sample.sqsConfig (Sample.queueFlaky 120 [])
              Sample.smallPayload _ Sample.start 1%nat 150 Sample.accepted h Hjson Hh)
    as (st' & delta & Hrun & Htr & _ & Hsl & Hn).
  - cbn. lia.
  - intros j Hj. exists 150, Sample.networkDown. left.
    destruct j as [|j]; [reflexivity | lia].
  - reflexivity.
  - exists st'. split; [exact Hrun|]. split; [exact Hn|].
    rewrite Htr. exact Hsl.
Defined.

Lemma delivery_exhaustion_accounting_witness :
  exists st' delta,
    sendMessageToSQS Sample.constants Sample.sqsConfig (Sample.queueDown 120 [])
                     Sample.smallPayload Sample.start
    = (Ok JUndefined, st')
    /\ trace st' = (trace Sample.start ++ delta)%list
    /\ List.length (fetches delta) = 3%nat
    /\ sleeps delta = [2000; 2000].
Proof.
  assert (Hjson : JSON_stringify Sample.smallPayload
                  = Ok (JString (Text.quoted "{'QueueUrl':'q','MessageBody':'m'}")))
    by (vm_compute; reflexivity).
  destruct (authorizationHeaderAt_ok Sample.sqsConfig (now Sample.start)
              Sample.smallPayload _ Hjson) as (h & Hh).
  destruct (delivery_exhaustion_accounting
              Sample.constants Sample.sqsConfig (Sample.queueDown 120 [])
              Sample.smallPayload _ Sample.start h Hjson Hh ltac:(cbn; lia)
              (queueDown_always_fails 120 []))
    as (st' & delta & Hrun & Htr & Hreq & Hsl).
  exists st', delta. split; [exact Hrun|]. split; [exact Htr|]. split; [|exact Hsl].
  rewrite <- (length_map snd), Hreq. reflexivity.
Defined.

Lemma validateAwsConfig_accepts_exactly_witness :
  fst (validateAwsConfig Sample.awsConfig (Sample.queueDown 120 []) Sample.start) = Ok tt
  /\ ~ ConfigurationFailure Sample.awsConfig (Sample.queueDown 120 []).
Proof.
  assert (H : fst (validateAwsConfig Sample.awsConfig (Sample.queueDown 120 []) Sample.start)
              = Ok tt) by reflexivity.
  split; [exact H|].
  exact (proj1 (validateAwsConfig_accepts_exactly Sample.awsConfig (Sample.queueDown 120 [])
                  Sample.start) H).
Defined.

Lemma static_checks_in_order_witness :
  exists e,
    validateAwsConfig Sample.marsConfig (Sample.queueDown 120 []) Sample.start
    = (Throw e, Sample.start)
    /\ exnCode e = "REGION_INVALID" /\ isError e = false.
Proof.
  destruct (static_checks_in_order Sample.marsConfig (Sample.queueDown 120 []) Sample.start)
    as (_ & Hregion & _).
  exact (Hregion _ eq_refl eq_refl).
Defined.

Lemma queue_probe_outcome_witness :
  validateAwsConfig Sample.awsConfig (Sample.queueDown 120 []) Sample.start
  = (Ok tt, emit (EProbe (AwsConfig.SQS_QUEUE_URL Sample.aws)) Sample.start).
Proof.
  apply (queue_probe_outcome Sample.awsConfig (Sample.queueDown 120 []) Sample.start
           Sample.aws Sample.credentials);
    first [reflexivity | discriminate].
Defined.

(** A data object that contains itself. *)
Definition cyclicData : value :=
  JObject [ ("name", JString "pool");
            ("self", JThrows (TypeError "Converting circular structure to JSON")) ].

Lemma sendMessage_throws_exactly_what_the_walk_throws_witness :
  sendMessage Sample.constants Sample.awsConfig Sample.sqsConfig (Sample.queueDown 120 [])
              MessageEventType.TOKEN_MIGRATED cyclicData "0x2" 1 0 42 Sample.start
  = (Throw (TypeError "Converting circular structure to JSON"), Sample.start).
Proof.
  exact (proj2 (sendMessage_throws_exactly_what_the_walk_throws
                  Sample.constants Sample.awsConfig Sample.sqsConfig (Sample.queueDown 120 [])
                  MessageEventType.TOKEN_MIGRATED cyclicData "0x2" 1 0 42 Sample.start)
               _ eq_refl).
Defined.



Lemma scan_covers_each_block_once_witness :
  exists st' delta,
    main Sample.constants Sample.awsConfig (Sample.queueDown 500 []) 400 Sample.start
    = Some (0, st')
    /\ trace st' = (trace Sample.start ++ delta)%list
    /\ List.length (filter (covers 321) (queries delta)) = 1%nat
    /\ List.length (filter (covers 501) (queries delta)) = 0%nat.
Proof.
  destruct (proj2 (scan_covers_each_block_once
                     Sample.constants Sample.awsConfig (Sample.queueDown 500 [])
                     400%nat Sample.start 500
                     (sampleConfig_is_usable (Sample.queueDown 500 []) eq_refl)
                     (worldOf_node_answers _ _ _) eq_refl
                     ltac:(cbn; lia) ltac:(cbn; lia))
              Sample.sqsConfig)
    as (st' & delta & _ & Hmain & Htr & _ & _ & Hcover & _).
  exists st', delta. split; [exact (Hmain eq_refl)|]. split; [exact Htr|].
  split; [rewrite (Hcover 321) | rewrite (Hcover 501)]; reflexivity.
Defined.

Lemma head_block_is_scanned_unless_stride_divides_witness :
  exists st' delta,
    scanTokenMigratedEvents Sample.constants Sample.awsConfig Sample.sqsConfig
                            (Sample.queueDown 151 []) 60 Sample.start
    = Some (Ok tt, st')
    /\ trace st' = (trace Sample.start ++ delta)%list
    /\ List.length (filter (covers 151) (queries delta)) = 0%nat.
Proof.
  destruct (head_block_is_scanned_unless_stride_divides
              Sample.constants Sample.awsConfig Sample.sqsConfig (Sample.queueDown 151 [])
              60%nat Sample.start 151
              (sampleConfig_is_usable (Sample.queueDown 151 []) eq_refl)
              (worldOf_node_answers _ _ _) eq_refl
              ltac:(cbn; lia) ltac:(cbn; lia) ltac:(cbn; lia))
    as (st' & delta & Hrun & Htr & Hmiss & _).
  exists st', delta. split; [exact Hrun|]. split; [exact Htr|].
  apply Hmiss. reflexivity.
Defined.

Lemma status_one_from_import_or_head_request_only_witness :
  (exists st', main Sample.constants Sample.awsConfig headDown 5 Sample.start = Some (1, st'))
  /\ exists st', main Sample.constants emptyConfig headDown 5 Sample.start = Some (1, st').
Proof.
  split.
  - apply (proj2 (proj1 (status_one_from_import_or_head_request_only
                           Sample.constants Sample.awsConfig headDown 5%nat Sample.start))).
    right. split; [apply sampleConfig_is_usable; reflexivity|].
    exists Sample.nodeDown. reflexivity.
  - apply (proj2 (proj1 (status_one_from_import_or_head_request_only
                           Sample.constants emptyConfig headDown 5%nat Sample.start))).
    left. left. reflexivity.
Defined.

Lemma processing_stats_at_the_ends_witness :
  ProcessingStats.successRate (calculateProcessingStats (ProcessingContext.mk 100 120 7 7 0))
  = "100.00%"
  /\ ProcessingStats.failureRate (calculateProcessingStats (ProcessingContext.mk 100 120 7 7 0))
     = "0.00%".
Proof.
  destruct (processing_stats_at_the_ends (ProcessingContext.mk 100 120 7 7 0))
    as (_ & _ & _ & _ & Hfull & _).
  apply Hfull; [cbn; lia | reflexivity | reflexivity].
Defined.

Lemma whole_amounts_are_converted_exactly_witness :
  migrationDataOf Sample.constants Sample.rawEvent Sample.rawArgs (Some Sample.block)
  = Ok {| TokenMigratedDataType.tokenAddress := Text.toUpperCase "0xabc";
          TokenMigratedDataType.poolId := Text.toUpperCase "0xdef";
          TokenMigratedDataType.amountToken := JsNumber.ofZ 2;
          TokenMigratedDataType.amountETH := JsNumber.ofZ 1;
          TokenMigratedDataType.timestamp := JsNumber.ofZ (1700000000 * 1000);
          TokenMigratedDataType.transactionHash := "0x1" |}.
Proof.
  destruct (whole_amounts_are_converted_exactly Sample.constants Sample.rawEvent
              Sample.rawArgs "0xabc" "0xdef" 2 1 Sample.block
              eq_refl eq_refl eq_refl eq_refl
              ltac:(split; [lia | reflexivity]) ltac:(split; [lia | reflexivity]))
    as [Hdata Htime].
  rewrite Hdata.
  change (Block.timestamp Sample.block) with 1700000000 in *.
  change (Constants.AMOUNT_TO_MILLISECONDS Sample.constants) with 1000 in *.
  rewrite Htime; [reflexivity|].
  split; [lia | reflexivity].
Defined.

Lemma event_is_published_under_its_coordinates_witness :
  exists st' text info rest,
    processEvent Sample.constants Sample.awsConfig Sample.sqsConfig
                 (Sample.queueFlaky 120 [Sample.rawEvent]) Sample.rawEvent Sample.start
    = (Ok tt, st')
    /\ trace st'
       = (trace Sample.start
          ++ [ EGetBlock 42;
               ELog "console.log" "Message Service" JUndefined;
               ELog "console.info" "[INFO] Preparing to send message:" info;
               ELog "console.log" "payload"
                    (JObject [ ("QueueUrl", JString (AwsConfig.SQS_QUEUE_URL Sample.aws));
                               ("MessageBody", JString text);
                               ("MessageGroupId", JString "0x1/0/0");
                               ("MessageDeduplicationId", JString "0x1/0/0") ]) ]
          ++ rest)%list.
Proof.
  destruct (event_is_published_under_its_coordinates
              Sample.constants Sample.awsConfig Sample.sqsConfig
              (Sample.queueFlaky 120 [Sample.rawEvent]) Sample.rawEvent Sample.rawArgs
              (Some Sample.block) Sample.migrationMessage Sample.aws Sample.start
              eq_refl eq_refl ltac:(vm_compute; reflexivity) eq_refl)
    as (st' & text & info & rest & _ & Hrun & Htr & _).
  exists st', text, info, rest. split; [exact Hrun | exact Htr].
Defined.

Lemma date_stamp_is_the_calendar_date_witness :
  1000 <= JsDate.getUTCFullYear 1700000000000 <= 9999
  /\ Text.slice0 8 (amzDateOf 1700000000000) = "20231114".
Proof.
  assert (H : 1000 <= JsDate.getUTCFullYear 1700000000000 <= 9999)
    by (split; apply Z.leb_le; vm_compute; reflexivity).
  split; [exact H|].
  destruct (date_stamp_is_the_calendar_date 1700000000000 H) as (_ & Hslice & _).
  rewrite Hslice. vm_compute. reflexivity.
Defined.
